(** * AdaBound, AdamP and AdaMod: a shallow embedding of the update rules

    The three optimizers of [src/optimizers] are embedded as state-passing
    programs over the real numbers.

    Conventions of the embedding.
    - A floating-point scalar is a real number.  Rounding and the IEEE
      values inf and nan are not represented.
    - TensorFlow arithmetic never raises: it is embedded by the total
      operations of [R].  Where a tensor divisor is [0] or the argument of
      [tf.sqrt] is negative, TensorFlow yields inf or nan and the embedding
      yields the value Rocq gives to [x / 0] and [sqrt x]; statements that
      depend on such a value carry a hypothesis excluding it.
    - Arithmetic on Python floats raises: [1 / x] raises [ZeroDivisionError]
      at [x = 0], [math.sqrt x] raises [ValueError] at [x < 0] and
      [x ** n] raises [OverflowError] when the power leaves the range of
      a float.  These are embedded as exceptions.
    - The slot lists of AdaMod are proxies of lists held by a
      [multiprocessing] manager: subscripting one returns a copy of the
      stored element, so that [assign] on what was read changes the copy
      and not the list.
    - Python mutates the optimizer object in place and an exception leaves
      the mutations made so far; a computation is therefore a function from
      a state to an outcome together with the state reached. *)

From Stdlib Require Import Reals Lra Lia List String Bool Arith.
Import ListNotations.
Open Scope R_scope.

(** ** Exceptions and the state-and-exception monad *)

Inductive exn : Type :=
| RuntimeError (msg : string)
| ZeroDivisionError
| ValueError
| KeyError
| IndexError
| AttributeError (name : string)
| InvalidArgumentError
| OverflowError.

Inductive result (A : Type) : Type :=
| Ok (a : A)
| Raise (e : exn).
Arguments Ok {A} a.
Arguments Raise {A} e.

Definition M (S A : Type) : Type := S -> result A * S.

Definition ret {S A} (a : A) : M S A := fun s => (Ok a, s).

Definition raise {S A} (e : exn) : M S A := fun s => (Raise e, s).

Definition bind {S A B} (c : M S A) (k : A -> M S B) : M S B :=
  fun s =>
    match c s with
    | (Ok a, s') => k a s'
    | (Raise e, s') => (Raise e, s')
    end.

Definition get {S} : M S S := fun s => (Ok s, s).

Definition modify {S} (f : S -> S) : M S unit := fun s => (Ok tt, f s).

Definition lift {S A} (r : result A) : M S A := fun s => (r, s).

Declare Scope py_scope.
Delimit Scope py_scope with py.
Notation "x <- c ;; k" := (bind c (fun x => k))
  (at level 61, c at next level, right associativity) : py_scope.
Notation "c ;;; k" := (bind c (fun _ => k))
  (at level 61, right associativity) : py_scope.
Open Scope py_scope.

(** [obj.name] where the attribute may not have been created yet. *)
Definition attr {S A} (field : S -> option A) (name : string) : M S A :=
  fun s =>
    match field s with
    | Some a => (Ok a, s)
    | None => (Raise (AttributeError name), s)
    end.

(** [l[i]] on a Python list with a non-negative index. *)
Definition getitem {A} (l : list A) (i : nat) : result A :=
  match nth_error l i with
  | Some a => Ok a
  | None => Raise IndexError
  end.

(** [l[i] = a], for [i] in range. *)
Fixpoint setitem {A} (l : list A) (i : nat) (a : A) : list A :=
  match l, i with
  | [], _ => []
  | _ :: r, O => a :: r
  | x :: r, S j => x :: setitem r j a
  end.

(** Python-float division [x / y]. *)
Definition py_div (x y : R) : result R :=
  if Req_dec_T y 0 then Raise ZeroDivisionError else Ok (x / y).

(** [math.sqrt x]. *)
Definition math_sqrt (x : R) : result R :=
  if Rlt_dec x 0 then Raise ValueError else Ok (sqrt x).

(** The largest finite float, [(2 - 2^-52) * 2^1023]. *)
Definition float_max : R := (2 - / 2 ^ 52) * 2 ^ 1023.

(** A real number within the range of the finite floats. *)
Definition representable (x : R) : Prop := Rabs x <= float_max.

(** [x ** n] for a Python float [x] and a non-negative Python integer
    [n]: the power, or [OverflowError] when it is out of range. *)
Definition py_pow (x : R) (n : nat) : result R :=
  if Rle_dec (Rabs (x ^ n)) float_max then Ok (x ^ n)
  else Raise OverflowError.
Arguments py_pow : simpl never.

(** ** Tensors

    A dense tensor is its shape, its element type and its elements in
    row-major order, addressed by flat index.  Elementwise operations act
    index by index and keep the shape of their left operand; the operands
    of one operation have the same shape in every call the optimizers
    make (slots are created from the reference variable). *)

Inductive dtype : Type := int32 | int64 | float16 | float32.

Definition dtype_eqb (a b : dtype) : bool :=
  match a, b with
  | int32, int32 | int64, int64 | float16, float16 | float32, float32 => true
  | _, _ => false
  end.

Record tensor : Type := mkTensor {
  shape : list nat;
  t_dtype : dtype;
  data : nat -> R
}.

Definition numel (sh : list nat) : nat := fold_right Nat.mul 1%nat sh.

Module tf.

Definition map (f : R -> R) (x : tensor) : tensor :=
  mkTensor (shape x) (t_dtype x) (fun i => f (data x i)).

Definition map2 (f : R -> R -> R) (x y : tensor) : tensor :=
  mkTensor (shape x) (t_dtype x) (fun i => f (data x i) (data y i)).

Definition add := map2 Rplus.
Definition sub := map2 Rminus.
Definition multiply := map2 Rmult.
Definition divide := map2 Rdiv.
Definition maximum := map2 Rmax.
Definition minimum := map2 Rmin.

(** Scalar on the left: [c * x], and on the right: [x * c], [x / c],
    [x + c]. *)
Definition scale (c : R) (x : tensor) : tensor := map (fun v => c * v) x.
Definition times (x : tensor) (c : R) : tensor := map (fun v => v * c) x.
Definition over (x : tensor) (c : R) : tensor := map (fun v => v / c) x.
Definition plus (x : tensor) (c : R) : tensor := map (fun v => v + c) x.

Definition neg : tensor -> tensor := map Ropp.
Definition square : tensor -> tensor := map (fun v => v * v).
Definition sqrt : tensor -> tensor := map R_sqrt.sqrt.
Definition abs : tensor -> tensor := map Rabs.

(** [tf.fill(dims, value)]; the element type is that of the value. *)
Definition fill (dims : list nat) (dt : dtype) (value : R) : tensor :=
  mkTensor dims dt (fun _ => value).

(** [tf.clip_by_value]: the minimum with the upper bound is taken
    first, then the maximum with the lower bound. *)
Definition clip_scalar (lo hi v : R) : R := Rmax (Rmin v hi) lo.

Definition clip_by_value (x : tensor) (clip_value_min clip_value_max : R)
  : tensor :=
  map (clip_scalar clip_value_min clip_value_max) x.

(** [tf.zeros_like]. *)
Definition zeros_like (x : tensor) : tensor :=
  mkTensor (shape x) (t_dtype x) (fun _ => 0).

End tf.

(** ** The optimizer base class

    Modelled from the spec: the base class [optimizer.Optimizer] (Keras
    for AdaBound and AdamP, [optimizers/optimizer.py] for AdaMod) is not
    among the sources.  What the three subclasses use of it is embedded
    here from sections 3, 5 and 6 of the specification: the [built] flag
    of the two-phase lifecycle, the learning rate and weight decay given
    to the constructor, the [iterations] counter read by [get_config], the
    index assigned to each trainable variable at build time, a slot
    variable created from a reference variable and filled with zeros, and
    the mapping of the base hyperparameters. *)

Definition var_id : Type := nat.

Inductive cfg_value : Type :=
| CFloat (x : R)
| CBool (b : bool)
| CInt (n : nat)
| CList (l : list nat)
| CStr (s : string).

Definition config : Type := list (string * cfg_value).

Module Base.

Record t : Type := mk {
  built : bool;
  _learning_rate : R;
  weight_decay : R;
  iterations : nat;
  _trainable_variables : list var_id;
  base_config : config
}.

Definition set_built (b : t) : t :=
  mk true (_learning_rate b) (weight_decay b) (iterations b)
     (_trainable_variables b) (base_config b).

Definition set_trainable (l : list var_id) (b : t) : t :=
  mk (built b) (_learning_rate b) (weight_decay b) (iterations b)
     l (base_config b).

(** [super().build(var_list)]. *)
Definition build (var_list : list var_id) (b : t) : t :=
  set_built (set_trainable var_list b).

(** The index of a variable is the last position it has in the list
    given to [build] (a later entry of the index mapping replaces an
    earlier one); an unknown variable is a [KeyError]. *)
Fixpoint index_from (v : var_id) (l : list var_id) (i : nat) : option nat :=
  match l with
  | [] => None
  | x :: r =>
      match index_from v r (S i) with
      | Some j => Some j
      | None => if Nat.eqb x v then Some i else None
      end
  end.

Definition _get_variable_index (b : t) (v : var_id) : result nat :=
  match index_from v (_trainable_variables b) 0 with
  | Some i => Ok i
  | None => Raise KeyError
  end.

(** [add_variable_from_reference]: a fresh variable of the reference's
    shape and element type, initialised with zeros. *)
Definition add_variable_from_reference (reference_variable : tensor)
  : tensor := tf.zeros_like reference_variable.

Definition get_config (b : t) : config := base_config b.

End Base.

(** [d.update(e)] on mappings: an existing key keeps its place and takes
    the new value, a new key is appended. *)
Fixpoint dict_set (d : config) (k : string) (v : cfg_value) : config :=
  match d with
  | [] => [(k, v)]
  | (k', v') :: r =>
      if String.eqb k' k then (k', v) :: r else (k', v') :: dict_set r k v
  end.

Definition dict_update (d e : config) : config :=
  fold_left (fun acc kv => dict_set acc (fst kv) (snd kv)) e d.

Fixpoint dict_get (d : config) (k : string) : option cfg_value :=
  match d with
  | [] => None
  | (k', v) :: r => if String.eqb k' k then Some v else dict_get r k
  end.

(** A gradient is a dense tensor or a sparse representation
    ([tf.IndexedSlices] or [tf.SparseTensor]). *)
Inductive gradient : Type :=
| Dense (g : tensor)
| Sparse (indices : list nat) (values : list R) (dense_shape : list nat).

(** [tf.keras.backend.is_sparse]. *)
Definition is_sparse (g : gradient) : bool :=
  match g with
  | Dense _ => false
  | Sparse _ _ _ => true
  end.

(** ** AdaBound ([src/optimizers/adabound.py]) *)

Module AdaBound.

(** The optimizer object together with the host's variables.  The
    attributes created by [build] are absent ([None]) before it. *)
Record state : Type := mk {
  base : Base.t;
  beta1 : R;
  beta2 : R;
  epsilon : R;
  final_lr : R;
  gamma : R;
  amsbound : bool;
  exp_avg : option (list tensor);
  exp_avg_sq : option (list tensor);
  max_exp_avg_sq : option (list tensor);
  base_lr : option R;
  step : option (list nat);
  variables : var_id -> tensor
}.

Definition set_base (x : Base.t) (s : state) : state :=
  mk x (beta1 s) (beta2 s) (epsilon s) (final_lr s) (gamma s) (amsbound s)
     (exp_avg s) (exp_avg_sq s) (max_exp_avg_sq s) (base_lr s) (step s)
     (variables s).
Definition set_amsbound (x : bool) (s : state) : state :=
  mk (base s) (beta1 s) (beta2 s) (epsilon s) (final_lr s) (gamma s) x
     (exp_avg s) (exp_avg_sq s) (max_exp_avg_sq s) (base_lr s) (step s)
     (variables s).
Definition set_exp_avg (x : option (list tensor)) (s : state) : state :=
  mk (base s) (beta1 s) (beta2 s) (epsilon s) (final_lr s) (gamma s)
     (amsbound s) x (exp_avg_sq s) (max_exp_avg_sq s) (base_lr s) (step s)
     (variables s).
Definition set_exp_avg_sq (x : option (list tensor)) (s : state) : state :=
  mk (base s) (beta1 s) (beta2 s) (epsilon s) (final_lr s) (gamma s)
     (amsbound s) (exp_avg s) x (max_exp_avg_sq s) (base_lr s) (step s)
     (variables s).
Definition set_max_exp_avg_sq (x : option (list tensor)) (s : state)
  : state :=
  mk (base s) (beta1 s) (beta2 s) (epsilon s) (final_lr s) (gamma s)
     (amsbound s) (exp_avg s) (exp_avg_sq s) x (base_lr s) (step s)
     (variables s).
Definition set_base_lr (x : option R) (s : state) : state :=
  mk (base s) (beta1 s) (beta2 s) (epsilon s) (final_lr s) (gamma s)
     (amsbound s) (exp_avg s) (exp_avg_sq s) (max_exp_avg_sq s) x (step s)
     (variables s).
Definition set_step (x : option (list nat)) (s : state) : state :=
  mk (base s) (beta1 s) (beta2 s) (epsilon s) (final_lr s) (gamma s)
     (amsbound s) (exp_avg s) (exp_avg_sq s) (max_exp_avg_sq s) (base_lr s)
     x (variables s).
Definition set_variables (x : var_id -> tensor) (s : state) : state :=
  mk (base s) (beta1 s) (beta2 s) (epsilon s) (final_lr s) (gamma s)
     (amsbound s) (exp_avg s) (exp_avg_sq s) (max_exp_avg_sq s) (base_lr s)
     (step s) x.

(** [__init__]: the base class keeps the learning rate and the weight
    decay, the subclass the remaining hyperparameters. *)
Definition __init__ (learning_rate beta1 beta2 epsilon weight_decay
                     final_lr gamma : R) (amsbound : bool)
                    (host_config : config) (host : var_id -> tensor)
  : state :=
  mk (Base.mk false learning_rate weight_decay 0 [] host_config)
     beta1 beta2 epsilon final_lr gamma amsbound
     None None None None None host.

(** The pickled attribute dictionary handed to [__setstate__]: for each
    attribute, its recorded value if the dictionary has the key. *)
Record pickled : Type := mkPickled {
  p_base : option Base.t;
  p_beta1 : option R;
  p_beta2 : option R;
  p_epsilon : option R;
  p_final_lr : option R;
  p_gamma : option R;
  p_amsbound : option bool;
  p_exp_avg : option (list tensor);
  p_exp_avg_sq : option (list tensor);
  p_max_exp_avg_sq : option (list tensor);
  p_base_lr : option R;
  p_step : option (list nat)
}.

Definition or_keep {A} (new : option A) (old : A) : A :=
  match new with Some a => a | None => old end.

Definition or_keep_opt {A} (new old : option A) : option A :=
  match new with Some a => Some a | None => old end.

(** [self.__dict__.update(state)]. *)
Definition dict_update_self (p : pickled) (s : state) : state :=
  mk (or_keep (p_base p) (base s))
     (or_keep (p_beta1 p) (beta1 s))
     (or_keep (p_beta2 p) (beta2 s))
     (or_keep (p_epsilon p) (epsilon s))
     (or_keep (p_final_lr p) (final_lr s))
     (or_keep (p_gamma p) (gamma s))
     (or_keep (p_amsbound p) (amsbound s))
     (or_keep_opt (p_exp_avg p) (exp_avg s))
     (or_keep_opt (p_exp_avg_sq p) (exp_avg_sq s))
     (or_keep_opt (p_max_exp_avg_sq p) (max_exp_avg_sq s))
     (or_keep_opt (p_base_lr p) (base_lr s))
     (or_keep_opt (p_step p) (step s))
     (variables s).

Definition __setstate__ (p : pickled) (s : state) : state :=
  set_amsbound false (dict_update_self p s).

Definition append {A} (a : A) (l : option (list A)) : option (list A) :=
  match l with Some xs => Some (xs ++ [a]) | None => None end.

(** The body of [for var in var_list] in [build]. *)
Definition build_var (var : var_id) (s : state) : state :=
  let ref := variables s var in
  let s := set_exp_avg
             (append (Base.add_variable_from_reference ref) (exp_avg s)) s in
  let s := set_exp_avg_sq
             (append (Base.add_variable_from_reference ref) (exp_avg_sq s))
             s in
  let s := if amsbound s
           then set_max_exp_avg_sq
                  (append (Base.add_variable_from_reference ref)
                          (max_exp_avg_sq s)) s
           else s in
  set_step (append 0%nat (step s)) s.

Definition build (var_list : list var_id) (s : state) : state :=
  if Base.built (base s) then s
  else
    let s := set_base (Base.build var_list (base s)) s in
    let s := set_exp_avg (Some []) s in
    let s := set_exp_avg_sq (Some []) s in
    let s := if amsbound s then set_max_exp_avg_sq (Some []) s else s in
    let s := set_base_lr (Some (Base._learning_rate (base s))) s in
    let s := set_step (Some []) s in
    fold_left (fun acc var => build_var var acc) var_list s.

(** [self._get_variable_index(variable)]. *)
Definition index_of (variable : var_id) : M state nat :=
  fun s => (Base._get_variable_index (base s) variable, s).

(** [self.slot[self._get_variable_index(variable)]]: the attribute is
    evaluated first, then the index, then the subscript. *)
Definition subscript {A} (field : state -> option (list A)) (name : string)
                     (variable : var_id) : M state (nat * A) :=
  l <- attr field name ;;
  i <- index_of variable ;;
  a <- lift (getitem l i) ;;
  ret (i, a).

(** Reading the current value of the slot variable at a position. *)
Definition read {A} (field : state -> option (list A)) (name : string)
                (i : nat) : M state A :=
  l <- attr field name ;;
  lift (getitem l i).

(** [slot.assign(value)] on the slot variable at a position. *)
Definition assign (field : state -> option (list tensor))
                  (set : option (list tensor) -> state -> state)
                  (name : string) (i : nat) (value : tensor)
  : M state unit :=
  l <- attr field name ;;
  modify (set (Some (setitem l i value))).

Definition update_var (f : var_id -> tensor) (v : var_id) (x : tensor)
  : var_id -> tensor :=
  fun w => if Nat.eqb w v then x else f w.

(** What [update_step] has in its local variables when it returns. *)
Record frame : Type := mkFrame {
  f_gradient : tensor;
  f_denom : tensor;
  f_bias_correction1 : R;
  f_bias_correction2 : R;
  f_step_size_scalar : R;
  f_final_lr : R;
  f_lower_bound : R;
  f_upper_bound : R;
  f_step_size : tensor
}.

Definition sparse_message : string :=
  "AdaBound does not support sparse gradients, please consider SparseAdam instead".

(** [final_lr * (1 - 1 / (gamma * step + 1))] and
    [final_lr * (1 + 1 / (gamma * step))]: the quotients are taken on
    Python floats, the products with the scaled final learning rate. *)
Definition lower_bound (final_lr gamma : R) (step : nat) : result R :=
  match py_div 1 (gamma * INR step + 1) with
  | Ok q => Ok (final_lr * (1 - q))
  | Raise e => Raise e
  end.

Definition upper_bound (final_lr gamma : R) (step : nat) : result R :=
  match py_div 1 (gamma * INR step) with
  | Ok q => Ok (final_lr * (1 + q))
  | Raise e => Raise e
  end.

Definition update_step_frame (gradient : gradient) (variable : var_id)
                             (learning_rate : R) : M state frame :=
  let lr := learning_rate in
  match gradient with
  | Sparse _ _ _ => raise (RuntimeError sparse_message)
  | Dense gradient =>
      ea <- subscript exp_avg "exp_avg" variable ;;
      let exp_avg_ref := fst ea in
      eas <- subscript exp_avg_sq "exp_avg_sq" variable ;;
      let exp_avg_sq_ref := fst eas in
      s <- get ;;
      max_ref <- (if amsbound s
                  then m <- subscript max_exp_avg_sq "max_exp_avg_sq"
                                      variable ;;
                       ret (fst m)
                  else ret 0%nat) ;;
      (* self.step[...] += 1 *)
      st <- subscript step "step" variable ;;
      l <- attr step "step" ;;
      modify (set_step (Some (setitem l (fst st) (snd st + 1)%nat))) ;;;
      s <- get ;;
      let gradient :=
        if Req_dec_T (Base.weight_decay (base s)) 0 then gradient
        else tf.add gradient
               (tf.scale (Base.weight_decay (base s))
                  (variables s variable)) in
      m <- read exp_avg "exp_avg" exp_avg_ref ;;
      assign exp_avg set_exp_avg "exp_avg" exp_avg_ref
        (tf.add (tf.scale (beta1 s) m)
                (tf.scale (1 - beta1 s) gradient)) ;;;
      v <- read exp_avg_sq "exp_avg_sq" exp_avg_sq_ref ;;
      assign exp_avg_sq set_exp_avg_sq "exp_avg_sq" exp_avg_sq_ref
        (tf.add (tf.scale (beta2 s) v)
                (tf.scale (1 - beta2 s) (tf.square gradient))) ;;;
      denom <- (if amsbound s
                then
                  mx <- read max_exp_avg_sq "max_exp_avg_sq" max_ref ;;
                  v <- read exp_avg_sq "exp_avg_sq" exp_avg_sq_ref ;;
                  assign max_exp_avg_sq set_max_exp_avg_sq "max_exp_avg_sq"
                    max_ref (tf.maximum mx v) ;;;
                  mx <- read max_exp_avg_sq "max_exp_avg_sq" max_ref ;;
                  ret (tf.plus (tf.sqrt mx) (epsilon s))
                else
                  v <- read exp_avg_sq "exp_avg_sq" exp_avg_sq_ref ;;
                  ret (tf.plus (tf.sqrt v) (epsilon s))) ;;
      n1 <- subscript step "step" variable ;;
      pow1 <- lift (py_pow (beta1 s) (snd n1)) ;;
      let bias_correction1 := 1 - pow1 in
      n2 <- subscript step "step" variable ;;
      pow2 <- lift (py_pow (beta2 s) (snd n2)) ;;
      let bias_correction2 := 1 - pow2 in
      root <- lift (math_sqrt bias_correction2) ;;
      let step_size := lr * root / bias_correction1 in
      blr <- attr base_lr "base_lr" ;;
      let final_lr := final_lr s * lr / blr in
      n3 <- subscript step "step" variable ;;
      lower_bound <- lift (lower_bound final_lr (gamma s) (snd n3)) ;;
      n4 <- subscript step "step" variable ;;
      upper_bound <- lift (upper_bound final_lr (gamma s) (snd n4)) ;;
      let step_size_t := tf.fill (shape denom) (t_dtype denom) step_size in
      let step_size_t := tf.divide step_size_t denom in
      let step_size_t :=
        tf.clip_by_value step_size_t lower_bound upper_bound in
      m <- read exp_avg "exp_avg" exp_avg_ref ;;
      let step_size_t := tf.multiply step_size_t m in
      s' <- get ;;
      modify (set_variables
                (update_var (variables s') variable
                   (tf.add (variables s' variable) (tf.neg step_size_t)))) ;;;
      ret (mkFrame gradient denom bias_correction1 bias_correction2
                   step_size final_lr lower_bound upper_bound step_size_t)
  end.

(** [update_step] returns nothing. *)
Definition update_step (gradient : gradient) (variable : var_id)
                       (learning_rate : R) : M state unit :=
  update_step_frame gradient variable learning_rate ;;; ret tt.

(** [get_config]: the entry under "step" repeats the base class's
    iteration counter once per step counter. *)
Definition get_config (s : state) : result config :=
  match step s with
  | None => Raise (AttributeError "step")
  | Some l =>
      Ok (dict_update (Base.get_config (base s))
            [ ("beta1", CFloat (beta1 s));
              ("beta2", CFloat (beta2 s));
              ("epsilon", CFloat (epsilon s));
              ("final_lr", CFloat (final_lr s));
              ("gamma", CFloat (gamma s));
              ("amsbound", CBool (amsbound s));
              ("step", CList (List.map (fun _ => Base.iterations (base s))
                                       (seq 0 (List.length l)))) ]%string)
  end.

End AdaBound.

(** ** AdamP ([src/optimizers/adamp.py]) *)

Module AdamP.

(** [np.iinfo] and [np.finfo] maxima used by [clip]. *)
Definition int32_max : R := IZR 2147483647.
Definition int64_max : R := IZR 9223372036854775807.
Definition float16_max : R := IZR 65504.
Definition float32_max : R :=
  IZR 340282346638528859811704183484516925440.

Definition clip_max (dt : dtype) : R :=
  if dtype_eqb dt int32 then int32_max - 2 ^ 7
  else if dtype_eqb dt int64 then int64_max - 2 ^ 39
  else if dtype_eqb dt float16 then float16_max
  else float32_max.

Definition clip (x : tensor) (min : R) : tensor :=
  tf.clip_by_value x min (clip_max (t_dtype x)).

(** Rows and row width of a two-dimensional view. *)
Definition rows (x : tensor) : nat := nth 0 (shape x) 0%nat.
Definition width (x : tensor) : nat := nth 1 (shape x) 0%nat.

Fixpoint sum_upto (f : nat -> R) (n : nat) : R :=
  match n with
  | O => 0
  | S k => sum_upto f k + f k
  end.

(** [tf.reduce_sum(x, axis=1)] on a two-dimensional view. *)
Definition reduce_sum_axis1 (x : tensor) : tensor :=
  mkTensor [rows x] (t_dtype x)
    (fun r => sum_upto (fun j => data x (r * width x + j)%nat) (width x)).

(** [tf.norm(x, ord=2, axis=1)] on a two-dimensional view. *)
Definition norm_axis1 (x : tensor) : tensor :=
  tf.sqrt (reduce_sum_axis1 (tf.multiply x x)).

(** [tf.reduce_max] of a non-empty vector. *)
Fixpoint max_upto (f : nat -> R) (n : nat) : R :=
  match n with
  | O => f 0%nat
  | S O => f 0%nat
  | S k => Rmax (max_upto f k) (f k)
  end.

Definition reduce_max (x : tensor) : R := max_upto (data x) (rows x).

(** The divisor of [cosine_similarity]: [n12]. *)
Definition cosine_denominator (x1 x2 : tensor) (eps : R) : tensor :=
  let w1 := reduce_sum_axis1 (tf.multiply x1 x1) in
  let w2 := reduce_sum_axis1 (tf.multiply x2 x2) in
  tf.sqrt (clip (tf.multiply w1 w2) (eps * eps)).

Definition cosine_similarity (x1 x2 : tensor) (eps : R) : tensor :=
  let w12 := reduce_sum_axis1 (tf.multiply x1 x2) in
  let n12 := cosine_denominator x1 x2 eps in
  let cos_sim := tf.divide w12 n12 in
  cos_sim.

(** [tf.reshape(x, (x.shape[0], -1))]: a scalar has no first dimension,
    and the free dimension cannot be inferred next to a dimension 0. *)
Definition _channel_view (x : tensor) : result tensor :=
  match shape x with
  | [] => Raise IndexError
  | O :: _ => Raise InvalidArgumentError
  | d :: rest => Ok (mkTensor [d; numel rest] (t_dtype x) (data x))
  end.

(** [tf.reshape(x, (1, -1))]. *)
Definition _layer_view (x : tensor) : result tensor :=
  Ok (mkTensor [1%nat; numel (shape x)] (t_dtype x) (data x)).

(** A vector with one entry per row of a view, reshaped to
    [expand_size] and broadcast against a tensor of the parameter's
    shape: the element at flat index [i] meets the entry of its row. *)
Definition expand (per_row : tensor) (row_width : nat) (like : tensor)
  : tensor :=
  mkTensor (shape like) (t_dtype like)
    (fun i => data per_row (i / row_width)%nat).

(** The divisor of the normalisation in [projection]. *)
Definition unit_denominator (param_view : tensor) (eps : R) : tensor :=
  tf.plus (norm_axis1 param_view) eps.

(** The test of one view: [tf.reduce_max(cosine_sim) < delta /
    math.sqrt(param_view.shape[1])]. *)
Definition view_test (view_func : tensor -> result tensor)
                     (p grad : tensor) (delta eps : R) : result bool :=
  match view_func p with
  | Raise e => Raise e
  | Ok param_view =>
      match view_func grad with
      | Raise e => Raise e
      | Ok grad_view =>
          let cosine_sim :=
            tf.abs (cosine_similarity grad_view param_view eps) in
          match math_sqrt (INR (width param_view)) with
          | Raise e => Raise e
          | Ok root =>
              match py_div delta root with
              | Raise e => Raise e
              | Ok threshold =>
                  Ok (if Rlt_dec (reduce_max cosine_sim) threshold
                      then true else false)
              end
          end
      end
  end.

(** The body of the branch taken when a view's test succeeds. *)
Definition project (view_func : tensor -> result tensor)
                   (p perturb : tensor) (eps : R) : result tensor :=
  match view_func p with
  | Raise e => Raise e
  | Ok param_view =>
      let w := width param_view in
      let p_n := tf.divide p (expand (unit_denominator param_view eps) w p) in
      match view_func (tf.multiply p_n perturb) with
      | Raise e => Raise e
      | Ok pv =>
          Ok (tf.sub perturb
                (tf.multiply p_n (expand (reduce_sum_axis1 pv) w p)))
      end
  end.

(** The loop [for view_func in [...]] of [projection], [wd] being [1.]
    on entry. *)
Fixpoint projection_loop (views : list (tensor -> result tensor))
                         (p grad perturb : tensor)
                         (delta wd_ratio eps wd : R)
  : result (tensor * R) :=
  match views with
  | [] => Ok (perturb, wd)
  | view_func :: rest =>
      match view_test view_func p grad delta eps with
      | Raise e => Raise e
      | Ok true =>
          match project view_func p perturb eps with
          | Raise e => Raise e
          | Ok perturb' => Ok (perturb', wd_ratio)
          end
      | Ok false =>
          projection_loop rest p grad perturb delta wd_ratio eps wd
      end
  end.

Definition projection (p grad perturb : tensor) (delta wd_ratio eps : R)
  : result (tensor * R) :=
  let wd := 1 in
  projection_loop [_channel_view; _layer_view] p grad perturb
                  delta wd_ratio eps wd.

Record state : Type := mk {
  base : Base.t;
  beta1 : R;
  beta2 : R;
  epsilon : R;
  delta : R;
  wd_ratio : R;
  nesterov : bool;
  exp_avg : option (list tensor);
  exp_avg_sq : option (list tensor);
  step : option (list nat);
  variables : var_id -> tensor
}.

Definition set_base (x : Base.t) (s : state) : state :=
  mk x (beta1 s) (beta2 s) (epsilon s) (delta s) (wd_ratio s) (nesterov s)
     (exp_avg s) (exp_avg_sq s) (step s) (variables s).
Definition set_exp_avg (x : option (list tensor)) (s : state) : state :=
  mk (base s) (beta1 s) (beta2 s) (epsilon s) (delta s) (wd_ratio s)
     (nesterov s) x (exp_avg_sq s) (step s) (variables s).
Definition set_exp_avg_sq (x : option (list tensor)) (s : state) : state :=
  mk (base s) (beta1 s) (beta2 s) (epsilon s) (delta s) (wd_ratio s)
     (nesterov s) (exp_avg s) x (step s) (variables s).
Definition set_step (x : option (list nat)) (s : state) : state :=
  mk (base s) (beta1 s) (beta2 s) (epsilon s) (delta s) (wd_ratio s)
     (nesterov s) (exp_avg s) (exp_avg_sq s) x (variables s).
Definition set_variables (x : var_id -> tensor) (s : state) : state :=
  mk (base s) (beta1 s) (beta2 s) (epsilon s) (delta s) (wd_ratio s)
     (nesterov s) (exp_avg s) (exp_avg_sq s) (step s) x.

Definition __init__ (learning_rate beta1 beta2 epsilon weight_decay
                     delta wd_ratio : R) (nesterov : bool)
                    (host_config : config) (host : var_id -> tensor)
  : state :=
  mk (Base.mk false learning_rate weight_decay 0 [] host_config)
     beta1 beta2 epsilon delta wd_ratio nesterov None None None host.

Definition build_var (var : var_id) (s : state) : state :=
  let ref := variables s var in
  let s := set_exp_avg
             (AdaBound.append (Base.add_variable_from_reference ref)
                              (exp_avg s)) s in
  let s := set_exp_avg_sq
             (AdaBound.append (Base.add_variable_from_reference ref)
                              (exp_avg_sq s)) s in
  set_step (AdaBound.append 0%nat (step s)) s.

Definition build (var_list : list var_id) (s : state) : state :=
  if Base.built (base s) then s
  else
    let s := set_base (Base.build var_list (base s)) s in
    let s := set_exp_avg (Some []) s in
    let s := set_exp_avg_sq (Some []) s in
    let s := set_step (Some []) s in
    fold_left (fun acc var => build_var var acc) var_list s.

Definition index_of (variable : var_id) : M state nat :=
  fun s => (Base._get_variable_index (base s) variable, s).

Definition subscript {A} (field : state -> option (list A)) (name : string)
                     (variable : var_id) : M state (nat * A) :=
  l <- attr field name ;;
  i <- index_of variable ;;
  a <- lift (getitem l i) ;;
  ret (i, a).

Definition read {A} (field : state -> option (list A)) (name : string)
                (i : nat) : M state A :=
  l <- attr field name ;;
  lift (getitem l i).

Definition assign (field : state -> option (list tensor))
                  (set : option (list tensor) -> state -> state)
                  (name : string) (i : nat) (value : tensor)
  : M state unit :=
  l <- attr field name ;;
  modify (set (Some (setitem l i value))).

Record frame : Type := mkFrame {
  f_bias_correction1 : R;
  f_bias_correction2 : R;
  f_denom : tensor;
  f_step_size : R;
  f_perturb : tensor;
  f_wd_ratio : R
}.

(** The gradient is a dense tensor: the source makes no test for a
    sparse one, and what the tensor library does with a sparse operand
    is outside this embedding. *)
Definition update_step_frame (gradient : tensor) (variable : var_id)
                             (learning_rate : R) : M state frame :=
  let lr := learning_rate in
  ea <- subscript exp_avg "exp_avg" variable ;;
  eas <- subscript exp_avg_sq "exp_avg_sq" variable ;;
  let exp_avg_ref := fst ea in
  let exp_avg_sq_ref := fst eas in
  s <- get ;;
  let beta1 := beta1 s in
  let beta2 := beta2 s in
  st <- subscript step "step" variable ;;
  l <- attr step "step" ;;
  modify (set_step (Some (setitem l (fst st) (snd st + 1)%nat))) ;;;
  n1 <- subscript step "step" variable ;;
  pow1 <- lift (py_pow beta1 (snd n1)) ;;
  let bias_correction1 := 1 - pow1 in
  n2 <- subscript step "step" variable ;;
  pow2 <- lift (py_pow beta2 (snd n2)) ;;
  let bias_correction2 := 1 - pow2 in
  m <- read exp_avg "exp_avg" exp_avg_ref ;;
  assign exp_avg set_exp_avg "exp_avg" exp_avg_ref
    (tf.add (tf.times m beta1) (tf.times gradient (1 - beta1))) ;;;
  v <- read exp_avg_sq "exp_avg_sq" exp_avg_sq_ref ;;
  assign exp_avg_sq set_exp_avg_sq "exp_avg_sq" exp_avg_sq_ref
    (tf.add (tf.times v beta2)
            (tf.times (tf.multiply gradient gradient) (1 - beta2))) ;;;
  v <- read exp_avg_sq "exp_avg_sq" exp_avg_sq_ref ;;
  root <- lift (math_sqrt bias_correction2) ;;
  let denom := tf.plus (tf.over (tf.sqrt v) root) (epsilon s) in
  let step_size := lr / bias_correction1 in
  m <- read exp_avg "exp_avg" exp_avg_ref ;;
  let perturb :=
    if nesterov s
    then tf.divide (tf.add (tf.scale beta1 m)
                           (tf.scale (1 - beta1) gradient)) denom
    else tf.divide m denom in
  (* Projection *)
  s1 <- get ;;
  pw <- (if (1 <? List.length (shape (variables s1 variable)))%nat
         then lift (projection (variables s1 variable) gradient perturb
                               (delta s) (wd_ratio s) (epsilon s))
         else ret (perturb, 1)) ;;
  let perturb := fst pw in
  let wd_ratio := snd pw in
  (* Weight decay *)
  (if Rlt_dec 0 (Base.weight_decay (base s))
   then modify (fun s2 =>
          set_variables
            (AdaBound.update_var (variables s2) variable
               (tf.times (variables s2 variable)
                  (1 - lr * Base.weight_decay (base s) * wd_ratio))) s2)
   else ret tt) ;;;
  (* Step *)
  modify (fun s3 =>
    set_variables
      (AdaBound.update_var (variables s3) variable
         (tf.add (variables s3 variable) (tf.times perturb (- step_size))))
      s3) ;;;
  ret (mkFrame bias_correction1 bias_correction2 denom step_size
               perturb wd_ratio).

Definition update_step (gradient : tensor) (variable : var_id)
                       (learning_rate : R) : M state unit :=
  update_step_frame gradient variable learning_rate ;;; ret tt.

Definition get_config (s : state) : result config :=
  match step s with
  | None => Raise (AttributeError "step")
  | Some l =>
      Ok (dict_update (Base.get_config (base s))
            [ ("beta1", CFloat (beta1 s));
              ("beta2", CFloat (beta2 s));
              ("epsilon", CFloat (epsilon s));
              ("delta", CFloat (delta s));
              ("wd_ratio", CFloat (wd_ratio s));
              ("nesterov", CBool (nesterov s));
              ("step", CList (List.map (fun _ => Base.iterations (base s))
                                       (seq 0 (List.length l)))) ]%string)
  end.

End AdamP.

(** ** AdaMod ([src/optimizers/parallel/adamod.py]) *)

Module AdaMod.

(** The slots live in lists served by a [multiprocessing] manager.  A
    manager is identified by the number it was started with;
    [managers_started] counts the managers started so far.  The step
    counter is one integer for the whole optimizer. *)
Record state : Type := mk {
  base : Base.t;
  beta1 : R;
  beta2 : R;
  beta3 : R;
  epsilon : R;
  manager : option nat;
  manager_ : option nat;
  managers_started : nat;
  exp_avg : option (list tensor);
  exp_avg_sq : option (list tensor);
  exp_avg_lr : option (list tensor);
  step : option nat;
  variables : var_id -> tensor
}.

Definition set_base (x : Base.t) (s : state) : state :=
  mk x (beta1 s) (beta2 s) (beta3 s) (epsilon s) (manager s) (manager_ s)
     (managers_started s) (exp_avg s) (exp_avg_sq s) (exp_avg_lr s)
     (step s) (variables s).
Definition set_manager (x : option nat) (n : nat) (s : state) : state :=
  mk (base s) (beta1 s) (beta2 s) (beta3 s) (epsilon s) x (manager_ s)
     n (exp_avg s) (exp_avg_sq s) (exp_avg_lr s) (step s) (variables s).
Definition set_manager_ (x : option nat) (n : nat) (s : state) : state :=
  mk (base s) (beta1 s) (beta2 s) (beta3 s) (epsilon s) (manager s) x
     n (exp_avg s) (exp_avg_sq s) (exp_avg_lr s) (step s) (variables s).
Definition set_exp_avg (x : option (list tensor)) (s : state) : state :=
  mk (base s) (beta1 s) (beta2 s) (beta3 s) (epsilon s) (manager s)
     (manager_ s) (managers_started s) x (exp_avg_sq s) (exp_avg_lr s)
     (step s) (variables s).
Definition set_exp_avg_sq (x : option (list tensor)) (s : state) : state :=
  mk (base s) (beta1 s) (beta2 s) (beta3 s) (epsilon s) (manager s)
     (manager_ s) (managers_started s) (exp_avg s) x (exp_avg_lr s)
     (step s) (variables s).
Definition set_exp_avg_lr (x : option (list tensor)) (s : state) : state :=
  mk (base s) (beta1 s) (beta2 s) (beta3 s) (epsilon s) (manager s)
     (manager_ s) (managers_started s) (exp_avg s) (exp_avg_sq s) x
     (step s) (variables s).
Definition set_step (x : option nat) (s : state) : state :=
  mk (base s) (beta1 s) (beta2 s) (beta3 s) (epsilon s) (manager s)
     (manager_ s) (managers_started s) (exp_avg s) (exp_avg_sq s)
     (exp_avg_lr s) x (variables s).
Definition set_variables (x : var_id -> tensor) (s : state) : state :=
  mk (base s) (beta1 s) (beta2 s) (beta3 s) (epsilon s) (manager s)
     (manager_ s) (managers_started s) (exp_avg s) (exp_avg_sq s)
     (exp_avg_lr s) (step s) x.

Definition __init__ (learning_rate beta1 beta2 beta3 epsilon
                     weight_decay : R)
                    (host_config : config) (host : var_id -> tensor)
  : state :=
  mk (Base.mk false learning_rate weight_decay 0 [] host_config)
     beta1 beta2 beta3 epsilon None None 0 None None None None host.

(** [mp.Manager()]: starts a manager and returns it. *)
Definition Manager : M state nat :=
  fun s => (Ok (managers_started s), s).

Definition build_var (var : var_id) (s : state) : state :=
  let ref := variables s var in
  let s := set_exp_avg
             (AdaBound.append (Base.add_variable_from_reference ref)
                              (exp_avg s)) s in
  let s := set_exp_avg_sq
             (AdaBound.append (Base.add_variable_from_reference ref)
                              (exp_avg_sq s)) s in
  set_exp_avg_lr
    (AdaBound.append (Base.add_variable_from_reference ref)
                     (exp_avg_lr s)) s.

(** [manager.list(seq)] is a new shared list with the elements of
    [seq]; [manager.list()] is a new empty one. *)
Definition build (var_list : list var_id) : M state unit :=
  m <- Manager ;;
  modify (fun s => set_manager (Some m) (S (managers_started s)) s) ;;;
  s <- get ;;
  if Base.built (base s) then
    l <- attr exp_avg "exp_avg" ;;
    modify (set_exp_avg (Some l)) ;;;
    l <- attr exp_avg_sq "exp_avg_sq" ;;
    modify (set_exp_avg_sq (Some l)) ;;;
    l <- attr exp_avg_lr "exp_avg_lr" ;;
    modify (set_exp_avg_lr (Some l))
  else
    modify (fun s => set_base (Base.build var_list (base s)) s) ;;;
    modify (set_exp_avg (Some [])) ;;;
    modify (set_exp_avg_sq (Some [])) ;;;
    modify (set_exp_avg_lr (Some [])) ;;;
    modify (set_step (Some 0%nat)) ;;;
    modify (fun s => fold_left (fun acc var => build_var var acc)
                               var_list s).

Definition index_of (variable : var_id) : M state nat :=
  fun s => (Base._get_variable_index (base s) variable, s).

Definition subscript {A} (field : state -> option (list A)) (name : string)
                     (variable : var_id) : M state (nat * A) :=
  l <- attr field name ;;
  i <- index_of variable ;;
  a <- lift (getitem l i) ;;
  ret (i, a).

(** What [update_step] has in its local variables when it returns:
    [f_exp_avg], [f_exp_avg_sq] and [f_exp_avg_lr] are the values of the
    three copies after their [assign]. *)
Record frame : Type := mkFrame {
  f_exp_avg : tensor;
  f_exp_avg_sq : tensor;
  f_denom : tensor;
  f_bias_correction1 : R;
  f_bias_correction2 : R;
  f_step_size_scalar : R;
  f_raw : tensor;
  f_exp_avg_lr : tensor;
  f_capped : tensor;
  f_step_size : tensor
}.

Definition sparse_message : string :=
  "Adam does not support sparse gradients, please consider SparseAdam instead".

(** [exp_avg = self.exp_avg[...]] binds a copy of the stored element,
    and so do the two other subscripts; every [assign] below acts on
    such a copy, which the later lines read back, and the lists of the
    manager keep what [build] stored. *)
Definition update_step_frame (gradient : gradient) (variable : var_id)
                             (learning_rate : R) : M state frame :=
  let lr := learning_rate in
  match gradient with
  | Sparse _ _ _ => raise (RuntimeError sparse_message)
  | Dense gradient =>
      ea <- subscript exp_avg "exp_avg" variable ;;
      let exp_avg_copy := snd ea in
      eas <- subscript exp_avg_sq "exp_avg_sq" variable ;;
      let exp_avg_sq_copy := snd eas in
      eal <- subscript exp_avg_lr "exp_avg_lr" variable ;;
      let exp_avg_lr_copy := snd eal in
      (* self.step += 1 *)
      n <- attr step "step" ;;
      modify (set_step (Some (n + 1)%nat)) ;;;
      s <- get ;;
      let exp_avg_copy :=
        tf.add (tf.scale (beta1 s) exp_avg_copy)
               (tf.scale (1 - beta1 s) gradient) in
      let exp_avg_sq_copy :=
        tf.add (tf.scale (beta2 s) exp_avg_sq_copy)
               (tf.scale (1 - beta2 s) (tf.square gradient)) in
      let denom := tf.plus (tf.sqrt exp_avg_sq_copy) (epsilon s) in
      n1 <- attr step "step" ;;
      pow1 <- lift (py_pow (beta1 s) n1) ;;
      let bias_correction1 := 1 - pow1 in
      n2 <- attr step "step" ;;
      pow2 <- lift (py_pow (beta2 s) n2) ;;
      let bias_correction2 := 1 - pow2 in
      let step_size := lr * sqrt bias_correction2 / bias_correction1 in
      (if Req_dec_T (Base.weight_decay (base s)) 0 then ret tt
       else modify (fun s1 =>
              set_variables
                (AdaBound.update_var (variables s1) variable
                   (tf.add (variables s1 variable)
                      (tf.scale (- Base.weight_decay (base s) * lr)
                                (variables s1 variable)))) s1)) ;;;
      (* Applies momental bounds on actual learning rates *)
      let raw := tf.fill (shape denom) (t_dtype denom) step_size in
      let raw := tf.divide raw denom in
      let exp_avg_lr_copy :=
        tf.add (tf.scale (beta3 s) exp_avg_lr_copy)
               (tf.scale (1 - beta3 s) raw) in
      let capped := tf.minimum raw exp_avg_lr_copy in
      let step_size_t := tf.multiply capped exp_avg_copy in
      modify (fun s2 =>
        set_variables
          (AdaBound.update_var (variables s2) variable
             (tf.add (variables s2 variable) (tf.neg step_size_t))) s2) ;;;
      ret (mkFrame exp_avg_copy exp_avg_sq_copy denom
                   bias_correction1 bias_correction2 step_size
                   raw exp_avg_lr_copy capped step_size_t)
  end.

Definition update_step (gradient : gradient) (variable : var_id)
                       (learning_rate : R) : M state unit :=
  update_step_frame gradient variable learning_rate ;;; ret tt.

(** [get_config] starts a manager of its own and reports the base
    class's iteration counter under "step". *)
Definition get_config : M state config :=
  m <- Manager ;;
  modify (fun s => set_manager_ (Some m) (S (managers_started s)) s) ;;;
  s <- get ;;
  ret (dict_update (Base.get_config (base s))
         [ ("beta1", CFloat (beta1 s));
           ("beta2", CFloat (beta2 s));
           ("beta3", CFloat (beta3 s));
           ("epsilon", CFloat (epsilon s));
           ("step", CInt (Base.iterations (base s))) ]%string).

End AdaMod.

(** ** The host's calls

    Modelled from the spec: the training loop belongs to the host
    framework and is not among the sources.  Section 5 of the
    specification has it invoke [update_step] once per parameter per
    training iteration, one call after the other, a failed update
    aborting the iteration. *)

Fixpoint training_iteration {S G : Type}
    (update_step : G -> var_id -> R -> M S unit)
    (grads_and_vars : list (G * var_id)) (learning_rate : R) : M S unit :=
  match grads_and_vars with
  | [] => ret tt
  | (g, v) :: rest =>
      update_step g v learning_rate ;;;
      training_iteration update_step rest learning_rate
  end.

(** Any sequence of [update_step] calls made on one optimizer, the
    caller going on after a call that raised: the state reached. *)
Fixpoint after_calls {S G : Type}
    (update_step : G -> var_id -> R -> M S unit)
    (calls : list (G * var_id * R)) (s : S) : S :=
  match calls with
  | [] => s
  | (g, v, lr) :: rest =>
      after_calls update_step rest (snd (update_step g v lr s))
  end.

(** ** Vocabulary of the statements *)

(** The list of counters [l'] is [l] with one added at position [i]. *)
Definition bumped (l : list nat) (i : nat) (l' : list nat) : Prop :=
  exists n, nth_error l i = Some n /\ l' = setitem l i (n + 1)%nat.

(** The attributes of AdaMod that [build] creates. *)
Definition adamod_slots_exist (s : AdaMod.state) : Prop :=
  AdaMod.exp_avg s <> None /\ AdaMod.exp_avg_sq s <> None /\
  AdaMod.exp_avg_lr s <> None.

(** Two AdaMod states that differ at most in their managers. *)
Definition adamod_same_state (s s' : AdaMod.state) : Prop :=
  AdaMod.base s' = AdaMod.base s /\
  AdaMod.beta1 s' = AdaMod.beta1 s /\
  AdaMod.beta2 s' = AdaMod.beta2 s /\
  AdaMod.beta3 s' = AdaMod.beta3 s /\
  AdaMod.epsilon s' = AdaMod.epsilon s /\
  AdaMod.exp_avg s' = AdaMod.exp_avg s /\
  AdaMod.exp_avg_sq s' = AdaMod.exp_avg_sq s /\
  AdaMod.exp_avg_lr s' = AdaMod.exp_avg_lr s /\
  AdaMod.step s' = AdaMod.step s /\
  AdaMod.variables s' = AdaMod.variables s.

(** Every element of every slot of a list of slots is non-negative, as
    the second moments are from their initial zeros on when [beta2] lies
    between 0 and 1. *)
Definition nonneg_slots (slots : option (list tensor)) : Prop :=
  forall l t, slots = Some l -> In t l -> forall k, 0 <= data t k.

(** The AdaBound rule as section 4.1 of the specification words it,
    for one element of the parameter: [g], [p], [exp_avg] and
    [exp_avg_sq] are the element's gradient, value and moments before
    the call and [step'] is the counter after the increment.  [clip] is
    the clipping of the tensor library. *)
Module Rule.
Section OneElement.

Variables beta1 beta2 epsilon final_lr gamma weight_decay base_lr : R.
Variable lr : R.
Variable step' : nat.
Variables g p exp_avg exp_avg_sq : R.

Definition g' : R :=
  if Req_dec_T weight_decay 0 then g else g + weight_decay * p.

Definition exp_avg' : R := beta1 * exp_avg + (1 - beta1) * g'.

Definition exp_avg_sq' : R := beta2 * exp_avg_sq + (1 - beta2) * g' ^ 2.

Definition denom : R := sqrt exp_avg_sq' + epsilon.

Definition step_size_scalar : R :=
  lr * sqrt (1 - beta2 ^ step') / (1 - beta1 ^ step').

Definition final_lr_eff : R := final_lr * lr / base_lr.

Definition lower : R := final_lr_eff * (1 - 1 / (gamma * INR step' + 1)).

Definition upper : R := final_lr_eff * (1 + 1 / (gamma * INR step')).

Definition clip (x lo hi : R) : R := tf.clip_scalar lo hi x.

Definition p' : R := p - clip (step_size_scalar / denom) lower upper * exp_avg'.

End OneElement.
End Rule.

(** ** Concrete optimizers

    The scenario of section 8 of the specification: one scalar
    parameter [p = 1.0] and the default hyperparameters. *)
Module Example.

Definition scalar (x : R) : tensor := mkTensor [] float32 (fun _ => x).

Definition host : var_id -> tensor := fun _ => scalar 1.

Definition lr : R := 1 / 1000.

Definition adabound_new (gamma : R) : AdaBound.state :=
  AdaBound.__init__ lr (9 / 10) (999 / 1000) (1 / 100000000) 0
                    (1 / 10) gamma false [] host.

Definition adabound : AdaBound.state :=
  AdaBound.build [0%nat] (adabound_new (1 / 1000)).

(** The same optimizer with [gamma = 0]. *)
Definition adabound_gamma0 : AdaBound.state :=
  AdaBound.build [0%nat] (adabound_new 0).

Definition adamp : AdamP.state :=
  AdamP.build [0%nat]
    (AdamP.__init__ lr (9 / 10) (999 / 1000) (1 / 100000000) 0
                    (1 / 10) (1 / 10) false [] host).

(** AdaMod over two parameters. *)
Definition adamod : AdaMod.state :=
  snd (AdaMod.build [0%nat; 1%nat]
         (AdaMod.__init__ lr (9 / 10) (999 / 1000) (999 / 1000)
                          (1 / 100000000) 0 [] host)).

Definition grad : tensor := scalar (1 / 10).

(** A one-by-one matrix parameter and a gradient parallel to it. *)
Definition matrix (x : R) : tensor :=
  mkTensor [1%nat; 1%nat] float32 (fun _ => x).

End Example.

(** ** Vocabulary of the further properties *)

(** [_apply_weight_decay] is overridden in each of the three classes by
    a method whose body is [pass]: the weight decay of the base class
    is switched off and the only decay is that of [update_step]. *)
Module AdaBoundOverrides.
Definition _apply_weight_decay (variables : list var_id)
  : M AdaBound.state unit := ret tt.
End AdaBoundOverrides.

Module AdamPOverrides.
Definition _apply_weight_decay (variables : list var_id)
  : M AdamP.state unit := ret tt.
End AdamPOverrides.

Module AdaModOverrides.
Definition _apply_weight_decay (variables : list var_id)
  : M AdaMod.state unit := ret tt.
End AdaModOverrides.

(** A list attribute that exists and has [n] entries. *)
Definition slots_for {A} (n : nat) (slots : option (list A)) : Prop :=
  exists l, slots = Some l /\ List.length l = n.

(** The slots of an optimizer are in step with the variables it was
    built for: one entry of every slot list per trainable variable. *)
Definition adabound_wf (s : AdaBound.state) : Prop :=
  let n := List.length (Base._trainable_variables (AdaBound.base s)) in
  slots_for n (AdaBound.exp_avg s) /\
  slots_for n (AdaBound.exp_avg_sq s) /\
  slots_for n (AdaBound.step s) /\
  AdaBound.base_lr s <> None /\
  (AdaBound.amsbound s = true -> slots_for n (AdaBound.max_exp_avg_sq s)).

Definition adamp_wf (s : AdamP.state) : Prop :=
  let n := List.length (Base._trainable_variables (AdamP.base s)) in
  slots_for n (AdamP.exp_avg s) /\
  slots_for n (AdamP.exp_avg_sq s) /\
  slots_for n (AdamP.step s).

Definition adamod_wf (s : AdaMod.state) : Prop :=
  let n := List.length (Base._trainable_variables (AdaMod.base s)) in
  slots_for n (AdaMod.exp_avg s) /\
  slots_for n (AdaMod.exp_avg_sq s) /\
  slots_for n (AdaMod.exp_avg_lr s) /\
  AdaMod.step s <> None.

(** The slot a [build] creates for a variable of the host. *)
Definition zero_slot (host : var_id -> tensor) (v : var_id) : tensor :=
  tf.zeros_like (host v).

(** Every element of a tensor is 0. *)
Definition all_zero (t : tensor) : Prop := forall k, data t k = 0.

(** The attribute dictionary of an AdaBound object, as pickling it
    without a [__getstate__] records it: every attribute that exists. *)
Definition adabound_dict (s : AdaBound.state) : AdaBound.pickled :=
  AdaBound.mkPickled
    (Some (AdaBound.base s)) (Some (AdaBound.beta1 s))
    (Some (AdaBound.beta2 s)) (Some (AdaBound.epsilon s))
    (Some (AdaBound.final_lr s)) (Some (AdaBound.gamma s))
    (Some (AdaBound.amsbound s)) (AdaBound.exp_avg s)
    (AdaBound.exp_avg_sq s) (AdaBound.max_exp_avg_sq s)
    (AdaBound.base_lr s) (AdaBound.step s).

(** The inner product of row [r] of two tensors laid out in rows of
    width [w]. *)
Definition row_dot (x y : tensor) (w r : nat) : R :=
  AdamP.sum_upto (fun c => data x (r * w + c)%nat * data y (r * w + c)%nat) w.

(** The parameter divided, row by row of a view, by the row's norm plus
    [eps]: the [p_n] of [projection]. *)
Definition unit_rows (p param_view : tensor) (eps : R) : tensor :=
  tf.divide p
    (AdamP.expand (AdamP.unit_denominator param_view eps)
                  (AdamP.width param_view) p).

(** One of the two views of [projection]. *)
Definition is_view (view_func : tensor -> result tensor) : Prop :=
  view_func = AdamP._channel_view \/ view_func = AdamP._layer_view.

(** Every slot of a list of slots is zero everywhere. *)
Definition zero_slots (slots : option (list tensor)) : Prop :=
  forall l t, slots = Some l -> In t l -> all_zero t.

(** A call with a dense gradient that is zero everywhere. *)
Definition zero_call (c : gradient * var_id * R) : Prop :=
  exists g, fst (fst c) = Dense g /\ all_zero g.

(** A tensor that [_channel_view] turns into rows that are not empty:
    it has a first dimension, which is not 0, and the other dimensions
    hold at least one element. *)
Definition has_rows (t : tensor) : Prop :=
  exists view, AdamP._channel_view t = Ok view /\ (0 < AdamP.width view)%nat.

(** What AdamP's [update_step] needs of a parameter: fewer than two
    dimensions (no projection), or rows that are not empty. *)
Definition projectable (t : tensor) : Prop :=
  (List.length (shape t) <= 1)%nat \/ has_rows t.

(** * Properties *)

(** ** Lists and mappings *)

Lemma nth_error_setitem_same {A} (l : list A) (i : nat) (a x : A) :
  nth_error l i = Some x -> nth_error (setitem l i a) i = Some a.
Proof.
  revert i; induction l as [|y l IH]; intros [|i] H; simpl in *;
    try discriminate; auto.
Qed.

Lemma nth_error_setitem_other {A} (l : list A) (i j : nat) (a : A) :
  i <> j -> nth_error (setitem l i a) j = nth_error l j.
Proof.
  revert i j; induction l as [|y l IH]; intros [|i] [|j] H; simpl;
    try reflexivity; try congruence.
  apply IH; congruence.
Qed.

Lemma length_setitem {A} (l : list A) (i : nat) (a : A) :
  List.length (setitem l i a) = List.length l.
Proof.
  revert i; induction l as [|y l IH]; intros [|i]; simpl; auto.
Qed.

Lemma dict_get_set_same (d : config) (k : string) (v : cfg_value) :
  dict_get (dict_set d k v) k = Some v.
Proof.
  induction d as [|[k' v'] d IH]; simpl.
  - now rewrite String.eqb_refl.
  - destruct (String.eqb k' k) eqn:E; simpl; rewrite E; auto.
Qed.

(** The entry a mapping has under the last key written by [update]. *)
Lemma dict_get_update_last (d e : config) (k : string) (v : cfg_value) :
  dict_get (dict_update d (e ++ [(k, v)])) k = Some v.
Proof.
  unfold dict_update. rewrite fold_left_app. simpl.
  apply dict_get_set_same.
Qed.

Lemma map_const_seq {A} (a : A) (n : nat) :
  List.map (fun _ => a) (seq 0 n) = repeat a n.
Proof.
  generalize 0%nat. induction n as [|n IH]; intros k; simpl; auto.
  now rewrite IH.
Qed.

(** ** The monad of state and exceptions *)

Lemma bind_ret_l {S A B} (a : A) (k : A -> M S B) (s : S) :
  bind (ret a) k s = k a s.
Proof. reflexivity. Qed.

Lemma bind_ret_r {S A} (c : M S A) (s : S) : bind c ret s = c s.
Proof.
  unfold bind, ret. destruct (c s) as [[a|e] s']; reflexivity.
Qed.

Lemma bind_assoc {S A B C} (c : M S A) (f : A -> M S B) (g : B -> M S C)
    (s : S) :
  bind (bind c f) g s = bind c (fun a => bind (f a) g) s.
Proof.
  unfold bind. destruct (c s) as [[a|e] s']; reflexivity.
Qed.

(** An exception ends the computation with the state reached. *)
Lemma bind_raise {S A B} (e : exn) (k : A -> M S B) (s : S) :
  bind (raise e) k s = (Raise e, s).
Proof. reflexivity. Qed.

(** ** Exploring every path of a call

    [crunch] unfolds one layer of the program at a time: it reduces, then
    splits on the innermost scrutinee that is still undetermined. *)

Ltac crunch :=
  repeat (cbn in *;
          match goal with
          | |- context [match ?x with _ => _ end] =>
              lazymatch x with
              | context [match _ with _ => _ end] => fail
              | _ => destruct x eqn:?
              end
          end).

Ltac unfold_adabound :=
  unfold AdaBound.update_step, AdaBound.update_step_frame,
    AdaBound.subscript, AdaBound.read, AdaBound.assign, AdaBound.index_of,
    attr, lift, bind, get, modify, ret, raise.

Ltac unfold_adamp :=
  unfold AdamP.update_step, AdamP.update_step_frame,
    AdamP.subscript, AdamP.read, AdamP.assign, AdamP.index_of,
    attr, lift, bind, get, modify, ret, raise.

Ltac unfold_adamod :=
  unfold AdaMod.update_step, AdaMod.update_step_frame,
    AdaMod.subscript, AdaMod.index_of,
    attr, lift, bind, get, modify, ret, raise.

(** ** What a call of [update_step] leaves alone *)

(** AdaBound: the base object, the hyperparameters and [base_lr] are
    never written. *)
Lemma adabound_frame_keeps g v lr s :
  let s' := snd (AdaBound.update_step_frame g v lr s) in
  AdaBound.base s' = AdaBound.base s /\
  AdaBound.amsbound s' = AdaBound.amsbound s /\
  AdaBound.gamma s' = AdaBound.gamma s /\
  AdaBound.epsilon s' = AdaBound.epsilon s /\
  AdaBound.base_lr s' = AdaBound.base_lr s.
Proof.
  destruct s. unfold_adabound. crunch; auto.
Qed.

(** AdaBound without [amsbound]: the slot [max_exp_avg_sq] is not
    written. *)
Lemma adabound_frame_max_untouched g v lr s :
  AdaBound.amsbound s = false ->
  AdaBound.max_exp_avg_sq (snd (AdaBound.update_step_frame g v lr s))
  = AdaBound.max_exp_avg_sq s.
Proof.
  destruct s. unfold_adabound. cbn. intros ->. crunch; auto.
Qed.

Lemma update_step_snd_adabound g v lr s :
  snd (AdaBound.update_step g v lr s)
  = snd (AdaBound.update_step_frame g v lr s).
Proof.
  unfold AdaBound.update_step, bind, ret.
  destruct (AdaBound.update_step_frame g v lr s) as [[f|e] s']; reflexivity.
Qed.

Lemma update_step_fst_adabound g v lr s :
  fst (AdaBound.update_step g v lr s)
  = match fst (AdaBound.update_step_frame g v lr s) with
    | Ok _ => Ok tt
    | Raise e => Raise e
    end.
Proof.
  unfold AdaBound.update_step, bind, ret.
  destruct (AdaBound.update_step_frame g v lr s) as [[f|e] s']; reflexivity.
Qed.

(** The slot counters: a call either stops before the increment, the
    counters being as they were, or adds one to the counter of the
    variable it was called for. *)
Lemma adabound_frame_step g v lr s :
  let r := AdaBound.update_step_frame g v lr s in
  (AdaBound.step (snd r) = AdaBound.step s \/
   exists l i, AdaBound.step s = Some l /\
     Base._get_variable_index (AdaBound.base s) v = Ok i /\
     exists l', bumped l i l' /\ AdaBound.step (snd r) = Some l') /\
  (forall f, fst r = Ok f ->
   exists l i, AdaBound.step s = Some l /\
     Base._get_variable_index (AdaBound.base s) v = Ok i /\
     exists l', bumped l i l' /\ AdaBound.step (snd r) = Some l').
Proof.
  destruct s. unfold_adabound. unfold bumped, getitem.
  crunch; (split; [ | intros f Hf; try discriminate ]);
    try (left; reflexivity);
    try (right); repeat eexists; try eassumption; try reflexivity;
    repeat match goal with
           | H : Some _ = Some _ |- _ => inversion H; clear H; subst
           | H : Ok _ = Ok _ |- _ => inversion H; clear H; subst
           end; try eassumption; try reflexivity.
Qed.

Lemma adamp_frame_keeps g v lr s :
  AdamP.base (snd (AdamP.update_step_frame g v lr s)) = AdamP.base s.
Proof.
  destruct s. unfold_adamp. crunch; auto.
Qed.

Lemma update_step_snd_adamp g v lr s :
  snd (AdamP.update_step g v lr s) = snd (AdamP.update_step_frame g v lr s).
Proof.
  unfold AdamP.update_step, bind, ret.
  destruct (AdamP.update_step_frame g v lr s) as [[f|e] s']; reflexivity.
Qed.

Lemma update_step_fst_adamp g v lr s :
  fst (AdamP.update_step g v lr s)
  = match fst (AdamP.update_step_frame g v lr s) with
    | Ok _ => Ok tt
    | Raise e => Raise e
    end.
Proof.
  unfold AdamP.update_step, bind, ret.
  destruct (AdamP.update_step_frame g v lr s) as [[f|e] s']; reflexivity.
Qed.

Lemma adamp_frame_step g v lr s :
  let r := AdamP.update_step_frame g v lr s in
  (AdamP.step (snd r) = AdamP.step s \/
   exists l i, AdamP.step s = Some l /\
     Base._get_variable_index (AdamP.base s) v = Ok i /\
     exists l', bumped l i l' /\ AdamP.step (snd r) = Some l') /\
  (forall f, fst r = Ok f ->
   exists l i, AdamP.step s = Some l /\
     Base._get_variable_index (AdamP.base s) v = Ok i /\
     exists l', bumped l i l' /\ AdamP.step (snd r) = Some l').
Proof.
  destruct s. unfold_adamp. unfold bumped, getitem.
  crunch; (split; [ | intros f Hf; try discriminate ]);
    try (left; reflexivity);
    try (right); repeat eexists; try eassumption; try reflexivity;
    repeat match goal with
           | H : Some _ = Some _ |- _ => inversion H; clear H; subst
           | H : Ok _ = Ok _ |- _ => inversion H; clear H; subst
           end; try eassumption; try reflexivity.
Qed.

Lemma adamod_frame_keeps g v lr s :
  AdaMod.base (snd (AdaMod.update_step_frame g v lr s)) = AdaMod.base s.
Proof.
  destruct s. unfold_adamod. crunch; auto.
Qed.

Lemma update_step_snd_adamod g v lr s :
  snd (AdaMod.update_step g v lr s) = snd (AdaMod.update_step_frame g v lr s).
Proof.
  unfold AdaMod.update_step, bind, ret.
  destruct (AdaMod.update_step_frame g v lr s) as [[f|e] s']; reflexivity.
Qed.

Lemma update_step_fst_adamod g v lr s :
  fst (AdaMod.update_step g v lr s)
  = match fst (AdaMod.update_step_frame g v lr s) with
    | Ok _ => Ok tt
    | Raise e => Raise e
    end.
Proof.
  unfold AdaMod.update_step, bind, ret.
  destruct (AdaMod.update_step_frame g v lr s) as [[f|e] s']; reflexivity.
Qed.

(** AdaMod: a call either stops before the increment or adds one to the
    shared counter, whichever variable it was called for. *)
Lemma adamod_frame_step g v lr s :
  let r := AdaMod.update_step_frame g v lr s in
  (AdaMod.step (snd r) = AdaMod.step s \/
   exists n, AdaMod.step s = Some n /\
             AdaMod.step (snd r) = Some (n + 1)%nat) /\
  (forall f, fst r = Ok f ->
   exists n, AdaMod.step s = Some n /\
             AdaMod.step (snd r) = Some (n + 1)%nat).
Proof.
  destruct s. unfold_adamod. unfold getitem.
  crunch; (split; [ | intros f Hf; try discriminate ]);
    try (left; reflexivity);
    try (right); repeat eexists; try eassumption; try reflexivity.
Qed.

(** ** Sparse gradients *)

Lemma adabound_dense_no_runtime_error t v lr s msg :
  fst (AdaBound.update_step_frame (Dense t) v lr s)
  <> Raise (RuntimeError msg).
Proof.
  destruct s. unfold_adabound.
  unfold getitem, py_pow, math_sqrt, AdaBound.lower_bound,
    AdaBound.upper_bound, py_div, Base._get_variable_index.
  crunch; discriminate.
Qed.

Lemma adamod_dense_no_runtime_error t v lr s msg :
  fst (AdaMod.update_step_frame (Dense t) v lr s)
  <> Raise (RuntimeError msg).
Proof.
  destruct s. unfold_adamod.
  unfold getitem, py_pow, Base._get_variable_index.
  crunch; discriminate.
Qed.

(** C4: on a sparse gradient, [update_step] of AdaBound and of AdaMod
    raises the error for unsupported gradients (a [RuntimeError] in the
    source) and the state reached is the state it was called in: slots,
    counters, hyperparameters and the host's variables, the parameter
    among them.  On a dense gradient that error is never raised. *)
Theorem sparse_gradient_rejected :
  (forall idx vals sh v lr s,
      AdaBound.update_step (Sparse idx vals sh) v lr s
      = (Raise (RuntimeError AdaBound.sparse_message), s)) /\
  (forall idx vals sh v lr s,
      AdaMod.update_step (Sparse idx vals sh) v lr s
      = (Raise (RuntimeError AdaMod.sparse_message), s)) /\
  (forall t v lr s msg,
      fst (AdaBound.update_step (Dense t) v lr s)
      <> Raise (RuntimeError msg)) /\
  (forall t v lr s msg,
      fst (AdaMod.update_step (Dense t) v lr s)
      <> Raise (RuntimeError msg)).
Proof.
  split; [ reflexivity | ].
  split; [ reflexivity | ].
  split.
  - intros t v lr s msg. rewrite update_step_fst_adabound.
    pose proof (adabound_dense_no_runtime_error t v lr s msg) as H.
    destruct (fst (AdaBound.update_step_frame (Dense t) v lr s));
      congruence.
  - intros t v lr s msg. rewrite update_step_fst_adamod.
    pose proof (adamod_dense_no_runtime_error t v lr s msg) as H.
    destruct (fst (AdaMod.update_step_frame (Dense t) v lr s));
      congruence.
Qed.

(** ** Restoring an AdaBound optimizer *)

Lemma adabound_calls_keep_flag calls s :
  AdaBound.amsbound s = false ->
  AdaBound.amsbound (after_calls AdaBound.update_step calls s) = false /\
  AdaBound.max_exp_avg_sq (after_calls AdaBound.update_step calls s)
  = AdaBound.max_exp_avg_sq s.
Proof.
  revert s. induction calls as [|[[g v] lr] calls IH]; intros s Hs; simpl.
  - auto.
  - rewrite update_step_snd_adabound.
    pose proof (adabound_frame_keeps g v lr s) as (_ & Hflag & _).
    pose proof (adabound_frame_max_untouched g v lr s Hs) as Hmax.
    cbv zeta in Hflag. rewrite Hs in Hflag.
    destruct (IH _ Hflag) as [H1 H2]. split; congruence.
Qed.

(** C10: whatever the restored attribute dictionary records,
    [__setstate__] leaves the [amsbound] flag at [False]; through every
    later sequence of [update_step] calls the flag stays [False], so the
    branch guarded by it is not taken and the slot [max_exp_avg_sq] is
    never written. *)
Theorem setstate_disables_amsbound :
  forall (p : AdaBound.pickled) (s : AdaBound.state),
    AdaBound.amsbound (AdaBound.__setstate__ p s) = false /\
    forall calls,
      let s' := after_calls AdaBound.update_step calls
                            (AdaBound.__setstate__ p s) in
      AdaBound.amsbound s' = false /\
      AdaBound.max_exp_avg_sq s'
      = AdaBound.max_exp_avg_sq (AdaBound.__setstate__ p s).
Proof.
  intros p s. split; [ reflexivity | ].
  intros calls. apply adabound_calls_keep_flag. reflexivity.
Qed.

(** ** Building twice *)

Lemma adabound_build_var_base var s :
  AdaBound.base (AdaBound.build_var var s) = AdaBound.base s.
Proof.
  unfold AdaBound.build_var. cbn. destruct (AdaBound.amsbound s); reflexivity.
Qed.

Lemma adabound_build_loop_base vl s :
  AdaBound.base (fold_left (fun acc var => AdaBound.build_var var acc) vl s)
  = AdaBound.base s.
Proof.
  revert s. induction vl as [|x vl IH]; intros s; simpl; auto.
  rewrite IH. apply adabound_build_var_base.
Qed.

Lemma adabound_build_built vl s :
  Base.built (AdaBound.base (AdaBound.build vl s)) = true.
Proof.
  unfold AdaBound.build.
  destruct (Base.built (AdaBound.base s)) eqn:E; auto.
  rewrite adabound_build_loop_base.
  destruct (AdaBound.amsbound _); reflexivity.
Qed.

Lemma adabound_build_noop vl s :
  Base.built (AdaBound.base s) = true -> AdaBound.build vl s = s.
Proof.
  unfold AdaBound.build. now intros ->.
Qed.

Lemma adamp_build_loop_base vl s :
  AdamP.base (fold_left (fun acc var => AdamP.build_var var acc) vl s)
  = AdamP.base s.
Proof.
  revert s. induction vl as [|x vl IH]; intros s; simpl; auto.
  now rewrite IH.
Qed.

Lemma adamp_build_built vl s :
  Base.built (AdamP.base (AdamP.build vl s)) = true.
Proof.
  unfold AdamP.build.
  destruct (Base.built (AdamP.base s)) eqn:E; auto.
  now rewrite adamp_build_loop_base.
Qed.

Lemma adamp_build_noop vl s :
  Base.built (AdamP.base s) = true -> AdamP.build vl s = s.
Proof.
  unfold AdamP.build. now intros ->.
Qed.

Lemma adamod_build_loop vl s :
  let s' := fold_left (fun acc var => AdaMod.build_var var acc) vl s in
  AdaMod.base s' = AdaMod.base s /\
  (adamod_slots_exist s -> adamod_slots_exist s').
Proof.
  revert s. induction vl as [|x vl IH]; intros s; simpl; auto.
  destruct (IH (AdaMod.build_var x s)) as [Hb Hs]. split.
  - rewrite Hb. reflexivity.
  - intros H. apply Hs. destruct s. unfold adamod_slots_exist in *.
    cbn in *. destruct exp_avg, exp_avg_sq, exp_avg_lr; cbn;
      intuition congruence.
Qed.

Lemma adamod_build_fresh vl s :
  Base.built (AdaMod.base s) = false ->
  fst (AdaMod.build vl s) = Ok tt /\
  Base.built (AdaMod.base (snd (AdaMod.build vl s))) = true /\
  adamod_slots_exist (snd (AdaMod.build vl s)).
Proof.
  intros Hb. destruct s. cbn in Hb.
  unfold AdaMod.build, AdaMod.Manager, attr, bind, get, modify, ret. cbn.
  rewrite Hb. cbn.
  match goal with
  | |- context [fold_left ?f vl ?s0] =>
      destruct (adamod_build_loop vl s0) as [H1 H2]
  end.
  split; [ reflexivity | ]. split.
  - rewrite H1. reflexivity.
  - apply H2. unfold adamod_slots_exist. cbn. repeat split; discriminate.
Qed.

Lemma adamod_build_built vl s :
  Base.built (AdaMod.base s) = true ->
  adamod_same_state s (snd (AdaMod.build vl s)) /\
  (adamod_slots_exist s -> fst (AdaMod.build vl s) = Ok tt).
Proof.
  intros Hb. destruct s. cbn in Hb.
  unfold AdaMod.build, AdaMod.Manager, attr, bind, get, modify, ret,
    adamod_same_state, adamod_slots_exist. cbn.
  rewrite Hb. cbn.
  destruct exp_avg, exp_avg_sq, exp_avg_lr; cbn;
    (split; [ repeat split | intuition congruence ]).
Qed.

Lemma adamod_build_built_outcome vl vl' s s' :
  Base.built (AdaMod.base s) = true ->
  adamod_same_state s s' ->
  fst (AdaMod.build vl' s') = fst (AdaMod.build vl s).
Proof.
  intros Hb Hs. destruct s, s'. unfold adamod_same_state in Hs.
  cbn in Hb, Hs.
  destruct Hs as (-> & _ & _ & _ & _ & -> & -> & -> & _).
  unfold AdaMod.build, AdaMod.Manager, attr, bind, get, modify, ret. cbn.
  rewrite Hb. cbn.
  destruct exp_avg, exp_avg_sq, exp_avg_lr; reflexivity.
Qed.

(** C2: a second [build] after a first one changes nothing.  For AdaBound
    and AdamP the state after the second call is the state after the
    first.  For AdaMod the second call ends as the first did (normally,
    on an optimizer fresh from its constructor) and leaves the slots
    [exp_avg], [exp_avg_sq], [exp_avg_lr], the step counter, the base
    object, the hyperparameters and the variables as the first call left
    them; it starts a manager of its own and moves the slot lists,
    unchanged, to it. *)
Theorem build_twice_is_noop :
  (forall vl vl' s,
      AdaBound.build vl' (AdaBound.build vl s) = AdaBound.build vl s) /\
  (forall vl vl' s,
      AdamP.build vl' (AdamP.build vl s) = AdamP.build vl s) /\
  (forall vl vl' s,
      let s1 := snd (AdaMod.build vl s) in
      adamod_same_state s1 (snd (AdaMod.build vl' s1)) /\
      fst (AdaMod.build vl' s1) = fst (AdaMod.build vl s)) /\
  (forall vl host_config host lr b1 b2 b3 eps wd,
      fst (AdaMod.build vl
             (AdaMod.__init__ lr b1 b2 b3 eps wd host_config host))
      = Ok tt).
Proof.
  split; [ | split; [ | split ] ].
  - intros. apply adabound_build_noop, adabound_build_built.
  - intros. apply adamp_build_noop, adamp_build_built.
  - intros vl vl' s s1.
    destruct (Base.built (AdaMod.base s)) eqn:Hb.
    + destruct (adamod_build_built vl s Hb) as [H1 _].
      assert (Hb1 : Base.built (AdaMod.base s1) = true).
      { destruct H1 as [H1 _]. fold s1 in H1. rewrite H1. exact Hb. }
      destruct (adamod_build_built vl' s1 Hb1) as [H2 _].
      split; [ exact H2 | ].
      apply adamod_build_built_outcome; assumption.
    + destruct (adamod_build_fresh vl s Hb) as (H1 & H2 & H3).
      destruct (adamod_build_built vl' s1 H2) as [H4 H5].
      split; [ exact H4 | ]. rewrite H1. apply H5, H3.
  - intros. apply adamod_build_fresh. reflexivity.
Qed.

(** ** One call of AdaBound's [update_step], step by step *)

Section AdaBoundCall.

Variables (s : AdaBound.state) (g : tensor) (v : var_id) (lr : R).
Variables (ea eas : list tensor) (st : list nat) (blr : R).
Variables (i : nat) (m vv : tensor) (n : nat).

Hypothesis Hams : AdaBound.amsbound s = false.
Hypothesis Hea : AdaBound.exp_avg s = Some ea.
Hypothesis Heas : AdaBound.exp_avg_sq s = Some eas.
Hypothesis Hst : AdaBound.step s = Some st.
Hypothesis Hblr : AdaBound.base_lr s = Some blr.
Hypothesis Hidx : Base._get_variable_index (AdaBound.base s) v = Ok i.
Hypothesis Hm : nth_error ea i = Some m.
Hypothesis Hv : nth_error eas i = Some vv.
Hypothesis Hn : nth_error st i = Some n.
Hypothesis Hp1 :
  py_pow (AdaBound.beta1 s) (n + 1) = Ok (AdaBound.beta1 s ^ (n + 1)).
Hypothesis Hp2 :
  py_pow (AdaBound.beta2 s) (n + 1) = Ok (AdaBound.beta2 s ^ (n + 1)).

(** With the slots of the variable in place, [amsbound] off and both
    powers in range, the
    call increments the counter, updates both moments and then either
    stops at one of the three Python-float operations or updates the
    variable. *)
Lemma adabound_exec :
  let wd := Base.weight_decay (AdaBound.base s) in
  let g' := if Req_dec_T wd 0 then g
            else tf.add g (tf.scale wd (AdaBound.variables s v)) in
  let m' := tf.add (tf.scale (AdaBound.beta1 s) m)
                   (tf.scale (1 - AdaBound.beta1 s) g') in
  let v' := tf.add (tf.scale (AdaBound.beta2 s) vv)
                   (tf.scale (1 - AdaBound.beta2 s) (tf.square g')) in
  let s2 := AdaBound.set_exp_avg_sq (Some (setitem eas i v'))
              (AdaBound.set_exp_avg (Some (setitem ea i m'))
                 (AdaBound.set_step (Some (setitem st i (n + 1)%nat)) s)) in
  let denom := tf.plus (tf.sqrt v') (AdaBound.epsilon s) in
  let bc1 := 1 - AdaBound.beta1 s ^ (n + 1) in
  let bc2 := 1 - AdaBound.beta2 s ^ (n + 1) in
  let fl := AdaBound.final_lr s * lr / blr in
  AdaBound.update_step_frame (Dense g) v lr s =
  match math_sqrt bc2 with
  | Raise e => (Raise e, s2)
  | Ok root =>
      match AdaBound.lower_bound fl (AdaBound.gamma s) (n + 1) with
      | Raise e => (Raise e, s2)
      | Ok lo =>
          match AdaBound.upper_bound fl (AdaBound.gamma s) (n + 1) with
          | Raise e => (Raise e, s2)
          | Ok hi =>
              let size :=
                tf.multiply
                  (tf.clip_by_value
                     (tf.divide
                        (tf.fill (shape denom) (t_dtype denom)
                                 (lr * root / bc1)) denom) lo hi) m' in
              (Ok (AdaBound.mkFrame g' denom bc1 bc2 (lr * root / bc1)
                                    fl lo hi size),
               AdaBound.set_variables
                 (AdaBound.update_var (AdaBound.variables s) v
                    (tf.add (AdaBound.variables s v) (tf.neg size))) s2)
          end
      end
  end.
Proof.
  destruct s; cbn in *; subst.
  unfold_adabound. unfold getitem. cbn.
  repeat (rewrite ?Hidx, ?Hm, ?Hv, ?Hn, ?Hp1, ?Hp2,
            ?(nth_error_setitem_same _ _ _ _ Hn),
            ?(nth_error_setitem_same _ _ _ _ Hm),
            ?(nth_error_setitem_same _ _ _ _ Hv); cbn).
  destruct (math_sqrt _) as [root|e]; cbn; [ | reflexivity ].
  repeat (rewrite ?Hidx, ?Hn, ?(nth_error_setitem_same _ _ _ _ Hn),
            ?(nth_error_setitem_same _ _ _ _ Hm); cbn).
  destruct (AdaBound.lower_bound _ _ _) as [lo|e]; cbn; [ | reflexivity ].
  repeat (rewrite ?Hidx, ?Hn, ?(nth_error_setitem_same _ _ _ _ Hn),
            ?(nth_error_setitem_same _ _ _ _ Hm); cbn).
  destruct (AdaBound.upper_bound _ _ _) as [hi|e]; cbn; [ | reflexivity ].
  repeat (rewrite ?Hidx, ?Hn, ?(nth_error_setitem_same _ _ _ _ Hn),
            ?(nth_error_setitem_same _ _ _ _ Hm); cbn).
  reflexivity.
Qed.

End AdaBoundCall.

Lemma math_sqrt_ok (x : R) : 0 <= x -> math_sqrt x = Ok (sqrt x).
Proof.
  intros H. unfold math_sqrt. destruct (Rlt_dec x 0); [ lra | reflexivity ].
Qed.

Lemma float_max_ge_1 : 1 <= float_max.
Proof.
  unfold float_max.
  assert (H1 : 1 <= 2 ^ 1023) by (apply pow_R1_Rle; lra).
  assert (H2 : 1 <= 2 ^ 52) by (apply pow_R1_Rle; lra).
  assert (H3 : / 2 ^ 52 <= 1).
  { rewrite <- Rinv_1. apply Rinv_le_contravar; lra. }
  set (a := 2 ^ 1023) in *. set (b := / 2 ^ 52) in *. nra.
Qed.

Lemma py_pow_in_range (x : R) (n : nat) :
  representable (x ^ n) -> py_pow x n = Ok (x ^ n).
Proof.
  intros H. unfold py_pow.
  destruct (Rle_dec (Rabs (x ^ n)) float_max); [ reflexivity | ].
  contradiction.
Qed.

Lemma representable_pow (x : R) (n : nat) :
  Rabs x <= 1 -> representable (x ^ n).
Proof.
  intros H. unfold representable. rewrite <- RPow_abs.
  apply Rle_trans with 1; [ | exact float_max_ge_1 ].
  rewrite <- (pow1 n). apply pow_incr. split; [ apply Rabs_pos | exact H ].
Qed.

(** A power of a float between 0 and 1 does not overflow. *)
Lemma py_pow_ok (x : R) (n : nat) :
  0 <= x <= 1 -> py_pow x n = Ok (x ^ n).
Proof.
  intros H. apply py_pow_in_range, representable_pow.
  rewrite Rabs_pos_eq; lra.
Qed.

Lemma root_plus_eps_nonzero (x eps : R) : 0 < eps -> sqrt x + eps <> 0.
Proof.
  intros H. pose proof (sqrt_pos x). apply Rgt_not_eq. lra.
Qed.

Lemma py_div_ok (x y : R) : y <> 0 -> py_div x y = Ok (x / y).
Proof.
  intros H. unfold py_div. destruct (Req_dec_T y 0); [ contradiction | auto ].
Qed.

Lemma py_div_zero (x : R) : py_div x 0 = Raise ZeroDivisionError.
Proof.
  unfold py_div. destruct (Req_dec_T 0 0); [ reflexivity | contradiction ].
Qed.

Lemma update_var_same f v x : AdaBound.update_var f v x v = x.
Proof. unfold AdaBound.update_var. now rewrite Nat.eqb_refl. Qed.

Lemma update_var_other f v x w : w <> v -> AdaBound.update_var f v x w = f w.
Proof.
  intros H. unfold AdaBound.update_var.
  destruct (Nat.eqb w v) eqn:E; auto.
  apply Nat.eqb_eq in E. contradiction.
Qed.

(** C1, as the code has it: one call of AdaBound's [update_step]
    without [amsbound], on a dense gradient and a built per-parameter
    state, produces exactly the values of the rule whenever the
    operations of the rule are defined, and then returns normally: the
    counter of the parameter is incremented, and element by element the
    first moment, the second moment and the parameter take the values
    [exp_avg'], [exp_avg_sq'] and [p'] of the rule, computed from the
    gradient with weight decay folded in, the denominator
    [sqrt exp_avg_sq' + epsilon], the bias-corrected step size, the
    scaled final learning rate and the lower and upper bounds at the
    incremented step.  The counters, moments and variables of the other
    parameters are as they were.  The operations are defined when both
    powers [beta1 ^ step'] and [beta2 ^ step'] are within the range of a
    float, [1 - beta2 ^ step'] is not negative, [1 - beta1 ^ step'],
    [base_lr], [gamma * step' + 1] and [gamma * step'] are not 0, and in
    every element the new second moment is not negative and the
    denominator is not 0. *)
Theorem adabound_update_step_rule
    (s : AdaBound.state) (g : tensor) (v : var_id) (lr : R)
    (ea eas : list tensor) (st : list nat) (blr : R)
    (i : nat) (m vv : tensor) (n : nat) :
  AdaBound.amsbound s = false ->
  AdaBound.exp_avg s = Some ea ->
  AdaBound.exp_avg_sq s = Some eas ->
  AdaBound.step s = Some st ->
  AdaBound.base_lr s = Some blr ->
  Base._get_variable_index (AdaBound.base s) v = Ok i ->
  nth_error ea i = Some m ->
  nth_error eas i = Some vv ->
  nth_error st i = Some n ->
  representable (AdaBound.beta1 s ^ (n + 1)) ->
  representable (AdaBound.beta2 s ^ (n + 1)) ->
  0 <= 1 - AdaBound.beta2 s ^ (n + 1) ->
  1 - AdaBound.beta1 s ^ (n + 1) <> 0 ->
  blr <> 0 ->
  AdaBound.gamma s * INR (n + 1) + 1 <> 0 ->
  AdaBound.gamma s * INR (n + 1) <> 0 ->
  (forall k,
      let wd := Base.weight_decay (AdaBound.base s) in
      let p := data (AdaBound.variables s v) k in
      0 <= Rule.exp_avg_sq' (AdaBound.beta2 s) wd (data g k) p (data vv k) /\
      Rule.denom (AdaBound.beta2 s) (AdaBound.epsilon s) wd (data g k) p
                 (data vv k) <> 0) ->
  exists s' m' v',
    AdaBound.update_step (Dense g) v lr s = (Ok tt, s') /\
    AdaBound.step s' = Some (setitem st i (n + 1)%nat) /\
    AdaBound.exp_avg s' = Some (setitem ea i m') /\
    AdaBound.exp_avg_sq s' = Some (setitem eas i v') /\
    (forall w, w <> v -> AdaBound.variables s' w = AdaBound.variables s w) /\
    forall k,
      let wd := Base.weight_decay (AdaBound.base s) in
      let p := data (AdaBound.variables s v) k in
      data m' k
      = Rule.exp_avg' (AdaBound.beta1 s) wd (data g k) p (data m k) /\
      data v' k
      = Rule.exp_avg_sq' (AdaBound.beta2 s) wd (data g k) p (data vv k) /\
      data (AdaBound.variables s' v) k
      = Rule.p' (AdaBound.beta1 s) (AdaBound.beta2 s) (AdaBound.epsilon s)
                (AdaBound.final_lr s) (AdaBound.gamma s) wd blr lr
                (n + 1) (data g k) p (data m k) (data vv k).
Proof.
  intros Hams Hea Heas Hst Hblr Hidx Hm Hv Hn Hr1 Hr2 Hbc Hbc1 Hblr0
         Hg1 Hg2 _.
  pose proof (adabound_exec s g v lr ea eas st blr i m vv n
                Hams Hea Heas Hst Hblr Hidx Hm Hv Hn
                (py_pow_in_range _ _ Hr1) (py_pow_in_range _ _ Hr2))
    as Hexec.
  cbv zeta in Hexec.
  rewrite (math_sqrt_ok _ Hbc) in Hexec.
  unfold AdaBound.lower_bound, AdaBound.upper_bound in Hexec.
  rewrite (py_div_ok _ _ Hg1), (py_div_ok _ _ Hg2) in Hexec.
  unfold AdaBound.update_step, bind. rewrite Hexec.
  eexists _, _, _. split; [ reflexivity | ].
  split; [ reflexivity | ]. split; [ reflexivity | ].
  split; [ reflexivity | ]. split.
  - intros w Hw. cbn. now rewrite update_var_other.
  - intros k. cbn. rewrite update_var_same.
    unfold Rule.exp_avg', Rule.exp_avg_sq', Rule.p', Rule.clip, Rule.denom,
      Rule.exp_avg_sq', Rule.exp_avg', Rule.step_size_scalar, Rule.lower,
      Rule.upper, Rule.final_lr_eff, Rule.g'.
    destruct (Req_dec_T (Base.weight_decay (AdaBound.base s)) 0) as [E|E];
      cbn; rewrite ?Rmult_1_r; repeat split; ring.
Qed.

(** The rule applied to the scenario of section 8: the first call on the
    scalar parameter returns normally and sets its counter to 1. *)
Lemma adabound_update_step_rule_witness :
  exists s',
    AdaBound.update_step (Dense Example.grad) 0%nat Example.lr
                         Example.adabound = (Ok tt, s') /\
    AdaBound.step s' = Some [1%nat].
Proof.
  destruct (adabound_update_step_rule
              Example.adabound Example.grad 0%nat Example.lr
              [tf.zeros_like (Example.scalar 1)]
              [tf.zeros_like (Example.scalar 1)]
              [0%nat] Example.lr 0%nat
              (tf.zeros_like (Example.scalar 1))
              (tf.zeros_like (Example.scalar 1)) 0%nat)
    as (s' & m' & v' & H1 & H2 & _); try reflexivity.
  - apply representable_pow. cbn. rewrite Rabs_pos_eq; lra.
  - apply representable_pow. cbn. rewrite Rabs_pos_eq; lra.
  - cbn. lra.
  - cbn. lra.
  - cbn. unfold Example.lr. lra.
  - cbn. apply Rgt_not_eq. lra.
  - cbn. apply Rgt_not_eq. lra.
  - intros k. cbn.
    assert (Hv : 0 <= Rule.exp_avg_sq' (999 / 1000) 0 (1 / 10) 1 0).
    { unfold Rule.exp_avg_sq', Rule.g'.
      destruct (Req_dec_T 0 0); [ lra | contradiction ]. }
    split; [ exact Hv | ].
    unfold Rule.denom. apply Rgt_not_eq.
    pose proof (sqrt_pos (Rule.exp_avg_sq' (999 / 1000) 0 (1 / 10) 1 0)).
    lra.
  - exists s'. split; assumption.
Defined.

(** ** The bounds of AdaBound *)

Lemma INR_pos_of_ge_1 (n : nat) : (1 <= n)%nat -> 1 <= INR n.
Proof.
  intros H. change 1 with (INR 1). now apply le_INR.
Qed.

(** C6: for positive [lr], [gamma], [final_lr] and [base_lr], between
    two steps [s <= t] the lower bound does not decrease; from step 1
    on, where the upper bound is defined, the upper bound does not
    increase between [s] and [t] and the lower bound at [s] is at most
    the upper bound at [s]. *)
Theorem adabound_bounds_monotone
    (final_lr lr base_lr gamma : R) (s t : nat) :
  0 < lr -> 0 < gamma -> 0 < final_lr -> 0 < base_lr ->
  (s <= t)%nat ->
  let final_lr_eff := final_lr * lr / base_lr in
  (exists ls lt,
      AdaBound.lower_bound final_lr_eff gamma s = Ok ls /\
      AdaBound.lower_bound final_lr_eff gamma t = Ok lt /\
      ls <= lt) /\
  ((1 <= s)%nat ->
   exists ls us ut,
     AdaBound.lower_bound final_lr_eff gamma s = Ok ls /\
     AdaBound.upper_bound final_lr_eff gamma s = Ok us /\
     AdaBound.upper_bound final_lr_eff gamma t = Ok ut /\
     ut <= us /\ ls <= us).
Proof.
  intros Hlr Hg Hf Hb Hst fe.
  assert (Hfe : 0 < fe).
  { unfold fe. apply Rdiv_lt_0_compat; [ apply Rmult_lt_0_compat | ]; lra. }
  assert (Hs0 : 0 <= INR s) by apply pos_INR.
  assert (Hstr : INR s <= INR t) by now apply le_INR.
  assert (Hgs : 0 <= gamma * INR s) by (apply Rmult_le_pos; lra).
  assert (Hgt : gamma * INR s <= gamma * INR t)
    by (apply Rmult_le_compat_l; lra).
  assert (Hi1 : / (gamma * INR t + 1) <= / (gamma * INR s + 1))
    by (apply Rinv_le_contravar; lra).
  assert (Hp1 : 0 < / (gamma * INR s + 1)) by (apply Rinv_0_lt_compat; lra).
  unfold AdaBound.lower_bound, AdaBound.upper_bound.
  rewrite !(py_div_ok 1 (_ + 1)) by lra.
  split.
  - eexists _, _. repeat (split; [ reflexivity | ]).
    unfold Rdiv. rewrite !Rmult_1_l. apply Rmult_le_compat_l; lra.
  - intros Hs.
    assert (Hs1 : 1 <= INR s) by now apply INR_pos_of_ge_1.
    assert (Hgs' : 0 < gamma * INR s) by (apply Rmult_lt_0_compat; lra).
    rewrite !py_div_ok by lra.
    eexists _, _, _. repeat (split; [ reflexivity | ]).
    assert (Hi2 : / (gamma * INR t) <= / (gamma * INR s))
      by (apply Rinv_le_contravar; lra).
    assert (Hp2 : 0 < / (gamma * INR s)) by (apply Rinv_0_lt_compat; lra).
    unfold Rdiv. rewrite !Rmult_1_l.
    split; apply Rmult_le_compat_l; lra.
Qed.

Lemma adabound_bounds_monotone_witness :
  (exists ls lt,
      AdaBound.lower_bound (1 * 1 / 1) 1 1 = Ok ls /\
      AdaBound.lower_bound (1 * 1 / 1) 1 2 = Ok lt /\
      ls <= lt) /\
  exists ls us ut,
    AdaBound.lower_bound (1 * 1 / 1) 1 1 = Ok ls /\
    AdaBound.upper_bound (1 * 1 / 1) 1 1 = Ok us /\
    AdaBound.upper_bound (1 * 1 / 1) 1 2 = Ok ut /\
    ut <= us /\ ls <= us.
Proof.
  assert (H01 : 0 < 1) by lra.
  assert (H12 : (1 <= 2)%nat) by lia.
  destruct (adabound_bounds_monotone 1 1 1 1 1 2 H01 H01 H01 H01 H12)
    as [Hlow Hup].
  split; [ exact Hlow | ]. apply Hup. lia.
Defined.

(** ** One call of AdaMod's [update_step], step by step *)

Section AdaModCall.

Variables (s : AdaMod.state) (g : tensor) (v : var_id) (lr : R).
Variables (ea eas eal : list tensor) (n i : nat) (m vv c : tensor).

Hypothesis Hea : AdaMod.exp_avg s = Some ea.
Hypothesis Heas : AdaMod.exp_avg_sq s = Some eas.
Hypothesis Heal : AdaMod.exp_avg_lr s = Some eal.
Hypothesis Hst : AdaMod.step s = Some n.
Hypothesis Hidx : Base._get_variable_index (AdaMod.base s) v = Ok i.
Hypothesis Hm : nth_error ea i = Some m.
Hypothesis Hv : nth_error eas i = Some vv.
Hypothesis Hc : nth_error eal i = Some c.
Hypothesis Hp1 :
  py_pow (AdaMod.beta1 s) (n + 1) = Ok (AdaMod.beta1 s ^ (n + 1)).
Hypothesis Hp2 :
  py_pow (AdaMod.beta2 s) (n + 1) = Ok (AdaMod.beta2 s ^ (n + 1)).

(** With the slots of the variable in place and both powers in range
    the call returns normally: it writes the counter and the variable,
    and the three lists keep their elements. *)
Lemma adamod_exec :
  let wd := Base.weight_decay (AdaMod.base s) in
  let m' := tf.add (tf.scale (AdaMod.beta1 s) m)
                   (tf.scale (1 - AdaMod.beta1 s) g) in
  let v' := tf.add (tf.scale (AdaMod.beta2 s) vv)
                   (tf.scale (1 - AdaMod.beta2 s) (tf.square g)) in
  let denom := tf.plus (tf.sqrt v') (AdaMod.epsilon s) in
  let bc1 := 1 - AdaMod.beta1 s ^ (n + 1) in
  let bc2 := 1 - AdaMod.beta2 s ^ (n + 1) in
  let size := lr * sqrt bc2 / bc1 in
  let p := AdaMod.variables s v in
  let decayed := if Req_dec_T wd 0 then AdaMod.variables s
                 else AdaBound.update_var (AdaMod.variables s) v
                        (tf.add p (tf.scale (- wd * lr) p)) in
  let raw := tf.divide (tf.fill (shape denom) (t_dtype denom) size)
                       denom in
  let cap := tf.add (tf.scale (AdaMod.beta3 s) c)
                    (tf.scale (1 - AdaMod.beta3 s) raw) in
  let capped := tf.minimum raw cap in
  let delta := tf.multiply capped m' in
  AdaMod.update_step_frame (Dense g) v lr s =
  (Ok (AdaMod.mkFrame m' v' denom bc1 bc2 size raw cap capped delta),
   AdaMod.set_variables
     (AdaBound.update_var decayed v
        (tf.add (decayed v) (tf.neg delta)))
     (AdaMod.set_step (Some (n + 1)%nat) s)).
Proof.
  destruct s; cbn in *; subst.
  unfold_adamod. unfold getitem. cbn.
  repeat (rewrite ?Hidx, ?Hm, ?Hv, ?Hc, ?Hp1, ?Hp2; cbn).
  destruct (Req_dec_T (Base.weight_decay base) 0); cbn; reflexivity.
Qed.

End AdaModCall.

(** C7: in a call of AdaMod's [update_step] that reaches the update (a
    dense gradient, the slots of the variable in place, both powers
    within the range of a float) and in which the step sizes are defined
    (the first bias correction is not 0, the second is not negative, and
    in every element the new second moment is not negative and the
    denominator is not 0), the call returns and, for every element, the
    raw step size is the bias-corrected scalar step size over the
    denominator (the root of the updated second moment plus [epsilon]),
    the cap is refreshed from the raw step size by the moving average
    with [beta3], the capped step size is the minimum of the raw one and
    the refreshed cap, and the capped step size is at most the raw
    one. *)
Theorem adamod_cap_never_increases
    (s : AdaMod.state) (g : tensor) (v : var_id) (lr : R)
    (ea eas eal : list tensor) (n i : nat) (m vv c : tensor) :
  AdaMod.exp_avg s = Some ea ->
  AdaMod.exp_avg_sq s = Some eas ->
  AdaMod.exp_avg_lr s = Some eal ->
  AdaMod.step s = Some n ->
  Base._get_variable_index (AdaMod.base s) v = Ok i ->
  nth_error ea i = Some m ->
  nth_error eas i = Some vv ->
  nth_error eal i = Some c ->
  representable (AdaMod.beta1 s ^ (n + 1)) ->
  representable (AdaMod.beta2 s ^ (n + 1)) ->
  1 - AdaMod.beta1 s ^ (n + 1) <> 0 ->
  0 <= 1 - AdaMod.beta2 s ^ (n + 1) ->
  (forall k,
      let v' := AdaMod.beta2 s * data vv k
                + (1 - AdaMod.beta2 s) * (data g k * data g k) in
      0 <= v' /\ sqrt v' + AdaMod.epsilon s <> 0) ->
  exists f s',
    AdaMod.update_step_frame (Dense g) v lr s = (Ok f, s') /\
    AdaMod.f_step_size_scalar f
    = lr * sqrt (1 - AdaMod.beta2 s ^ (n + 1))
      / (1 - AdaMod.beta1 s ^ (n + 1)) /\
    forall k,
      data (AdaMod.f_denom f) k
      = sqrt (AdaMod.beta2 s * data vv k
              + (1 - AdaMod.beta2 s) * (data g k * data g k))
        + AdaMod.epsilon s /\
      data (AdaMod.f_raw f) k
      = AdaMod.f_step_size_scalar f / data (AdaMod.f_denom f) k /\
      data (AdaMod.f_exp_avg_lr f) k
      = AdaMod.beta3 s * data c k
        + (1 - AdaMod.beta3 s) * data (AdaMod.f_raw f) k /\
      data (AdaMod.f_capped f) k
      = Rmin (data (AdaMod.f_raw f) k) (data (AdaMod.f_exp_avg_lr f) k) /\
      data (AdaMod.f_capped f) k <= data (AdaMod.f_raw f) k.
Proof.
  intros Hea Heas Heal Hst Hidx Hm Hv Hc Hr1 Hr2 _ _ _.
  pose proof (adamod_exec s g v lr ea eas eal n i m vv c
                Hea Heas Heal Hst Hidx Hm Hv Hc
                (py_pow_in_range _ _ Hr1) (py_pow_in_range _ _ Hr2))
    as Hexec.
  cbv zeta in Hexec. rewrite Hexec.
  eexists _, _. split; [ reflexivity | ].
  split; [ reflexivity | ].
  intros k. cbn. repeat split. apply Rmin_l.
Qed.

Lemma adamod_cap_never_increases_witness :
  exists f s',
    AdaMod.update_step_frame (Dense Example.grad) 0%nat Example.lr
                             Example.adamod = (Ok f, s') /\
    forall k, data (AdaMod.f_capped f) k <= data (AdaMod.f_raw f) k.
Proof.
  destruct (adamod_cap_never_increases
              Example.adamod Example.grad 0%nat Example.lr
              [tf.zeros_like (Example.scalar 1);
               tf.zeros_like (Example.scalar 1)]
              [tf.zeros_like (Example.scalar 1);
               tf.zeros_like (Example.scalar 1)]
              [tf.zeros_like (Example.scalar 1);
               tf.zeros_like (Example.scalar 1)]
              0%nat 0%nat
              (tf.zeros_like (Example.scalar 1))
              (tf.zeros_like (Example.scalar 1))
              (tf.zeros_like (Example.scalar 1)))
    as (f & s' & H1 & _ & H2); try reflexivity.
  - apply representable_pow. cbn. rewrite Rabs_pos_eq; lra.
  - apply representable_pow. cbn. rewrite Rabs_pos_eq; lra.
  - cbn. lra.
  - cbn. lra.
  - intros k. cbn.
    assert (Hv : 0 <= 999 / 1000 * 0
                      + (1 - 999 / 1000) * (1 / 10 * (1 / 10))) by lra.
    split; [ exact Hv | ].
    apply Rgt_not_eq.
    pose proof (sqrt_pos (999 / 1000 * 0
                          + (1 - 999 / 1000) * (1 / 10 * (1 / 10)))).
    lra.
  - exists f, s'. split; [ exact H1 | ]. intros k. apply H2.
Defined.

(** ** The concrete optimizers at work *)

(** The powers of the two default coefficients never overflow. *)
Lemma example_pow_beta1 (n : nat) :
  py_pow (9 / 10) n = Ok ((9 / 10) ^ n).
Proof. apply py_pow_ok. lra. Qed.

Lemma example_pow_beta2 (n : nat) :
  py_pow (999 / 1000) n = Ok ((999 / 1000) ^ n).
Proof. apply py_pow_ok. lra. Qed.

Lemma example_adabound_call :
  exists f s',
    AdaBound.update_step_frame (Dense Example.grad) 0%nat Example.lr
                               Example.adabound = (Ok f, s') /\
    AdaBound.step s' = Some [1%nat] /\
    AdaBound.base s' = AdaBound.base Example.adabound.
Proof.
  pose proof (adabound_exec Example.adabound Example.grad 0%nat Example.lr
                [tf.zeros_like (Example.scalar 1)]
                [tf.zeros_like (Example.scalar 1)]
                [0%nat] Example.lr 0%nat
                (tf.zeros_like (Example.scalar 1))
                (tf.zeros_like (Example.scalar 1)) 0%nat
                eq_refl eq_refl eq_refl eq_refl eq_refl eq_refl
                eq_refl eq_refl eq_refl
                (example_pow_beta1 _) (example_pow_beta2 _)) as Hexec.
  cbv zeta in Hexec.
  rewrite math_sqrt_ok in Hexec by (cbn; lra).
  unfold AdaBound.lower_bound, AdaBound.upper_bound in Hexec.
  rewrite !py_div_ok in Hexec by (cbn; apply Rgt_not_eq; lra).
  rewrite Hexec. eexists _, _. repeat split.
Qed.

(** With [gamma = 0] the same call stops at the quotient
    [1 / (gamma * step)] of the upper bound. *)
Lemma example_adabound_gamma0_call :
  fst (AdaBound.update_step_frame (Dense Example.grad) 0%nat Example.lr
                                  Example.adabound_gamma0)
  = Raise ZeroDivisionError.
Proof.
  pose proof (adabound_exec Example.adabound_gamma0 Example.grad 0%nat
                Example.lr
                [tf.zeros_like (Example.scalar 1)]
                [tf.zeros_like (Example.scalar 1)]
                [0%nat] Example.lr 0%nat
                (tf.zeros_like (Example.scalar 1))
                (tf.zeros_like (Example.scalar 1)) 0%nat
                eq_refl eq_refl eq_refl eq_refl eq_refl eq_refl
                eq_refl eq_refl eq_refl
                (example_pow_beta1 _) (example_pow_beta2 _)) as Hexec.
  cbv zeta in Hexec.
  rewrite math_sqrt_ok in Hexec by (cbn; lra).
  unfold AdaBound.lower_bound, AdaBound.upper_bound in Hexec.
  rewrite py_div_ok in Hexec by (cbn; apply Rgt_not_eq; lra).
  replace (AdaBound.gamma Example.adabound_gamma0 * INR (0 + 1)) with 0
    in Hexec by (cbn; ring).
  rewrite py_div_zero in Hexec.
  rewrite Hexec. reflexivity.
Qed.

(** C1, as the claim has it, fails: the rule is not produced for every
    choice of the hyperparameters.  With [gamma = 0] (and [amsbound]
    off, on the built optimizer of the scenario) the first call of
    [update_step] raises [ZeroDivisionError] at the quotient
    [1 / (gamma * step)] of the upper bound, after the counter was
    incremented, and the parameter keeps its value instead of taking
    the value [p'] of the rule. *)
Lemma adabound_rule_counterexample :
  AdaBound.amsbound Example.adabound_gamma0 = false /\
  exists s',
    AdaBound.update_step (Dense Example.grad) 0%nat Example.lr
                         Example.adabound_gamma0
    = (Raise ZeroDivisionError, s') /\
    AdaBound.step s' = Some [1%nat] /\
    AdaBound.variables s' = AdaBound.variables Example.adabound_gamma0.
Proof.
  split; [ reflexivity | ].
  pose proof (adabound_exec Example.adabound_gamma0 Example.grad 0%nat
                Example.lr
                [tf.zeros_like (Example.scalar 1)]
                [tf.zeros_like (Example.scalar 1)]
                [0%nat] Example.lr 0%nat
                (tf.zeros_like (Example.scalar 1))
                (tf.zeros_like (Example.scalar 1)) 0%nat
                eq_refl eq_refl eq_refl eq_refl eq_refl eq_refl
                eq_refl eq_refl eq_refl
                (example_pow_beta1 _) (example_pow_beta2 _)) as Hexec.
  cbv zeta in Hexec.
  rewrite math_sqrt_ok in Hexec by (cbn; lra).
  unfold AdaBound.lower_bound, AdaBound.upper_bound in Hexec.
  rewrite py_div_ok in Hexec by (cbn; apply Rgt_not_eq; lra).
  replace (AdaBound.gamma Example.adabound_gamma0 * INR (0 + 1)) with 0
    in Hexec by (cbn; ring).
  rewrite py_div_zero in Hexec.
  unfold AdaBound.update_step, bind. rewrite Hexec.
  eexists. split; [ reflexivity | ]. split; reflexivity.
Qed.

(** ** Step counters *)

Lemma bumped_length l i l' : bumped l i l' -> List.length l' = List.length l.
Proof.
  intros (n & _ & ->). apply length_setitem.
Qed.

(** The meaning of [bumped]: the counter at [i] is one more, every
    other counter is the same. *)
Lemma bumped_spec l i l' :
  bumped l i l' ->
  (exists n, nth_error l i = Some n /\ nth_error l' i = Some (n + 1)%nat) /\
  (forall j, j <> i -> nth_error l' j = nth_error l j).
Proof.
  intros (n & Hn & ->). split.
  - exists n. split; [ exact Hn | ].
    eapply nth_error_setitem_same; eauto.
  - intros j Hj. apply nth_error_setitem_other. congruence.
Qed.

(** A training iteration of AdaMod that completes advances the shared
    counter by the number of updates it made. *)
Lemma adamod_training_iteration_step gvs lr :
  forall s n,
    AdaMod.step s = Some n ->
    fst (training_iteration AdaMod.update_step gvs lr s) = Ok tt ->
    AdaMod.step (snd (training_iteration AdaMod.update_step gvs lr s))
    = Some (n + List.length gvs)%nat.
Proof.
  induction gvs as [|[g v] gvs IH]; intros s n Hn Hok; simpl in *.
  - unfold ret. simpl. rewrite Hn. f_equal. lia.
  - unfold bind in *.
    pose proof (update_step_fst_adamod g v lr s) as Hf.
    pose proof (update_step_snd_adamod g v lr s) as Hs.
    destruct (AdaMod.update_step g v lr s) as [[[]|e] s1] eqn:E;
      simpl in *; [ | discriminate ].
    destruct (adamod_frame_step g v lr s) as [_ Hstep].
    destruct (fst (AdaMod.update_step_frame g v lr s)) as [f|e] eqn:Ef;
      [ | discriminate ].
    destruct (Hstep f eq_refl) as (n' & Hn' & Hs1).
    rewrite Hn in Hn'. inversion Hn'; subst n'.
    rewrite <- Hs in Hs1.
    rewrite (IH s1 (n + 1)%nat Hs1 Hok). f_equal. lia.
Qed.

(** A call of AdaMod's [update_step] that finds the slots of the
    variable and whose powers are in range returns normally and leaves
    the lists of slots as they were. *)
Lemma adamod_call_ok
    (s : AdaMod.state) (g : tensor) (v : var_id) (lr : R)
    (ea eas eal : list tensor) (n i : nat) (m vv c : tensor) :
  AdaMod.exp_avg s = Some ea ->
  AdaMod.exp_avg_sq s = Some eas ->
  AdaMod.exp_avg_lr s = Some eal ->
  AdaMod.step s = Some n ->
  Base._get_variable_index (AdaMod.base s) v = Ok i ->
  nth_error ea i = Some m ->
  nth_error eas i = Some vv ->
  nth_error eal i = Some c ->
  py_pow (AdaMod.beta1 s) (n + 1) = Ok (AdaMod.beta1 s ^ (n + 1)) ->
  py_pow (AdaMod.beta2 s) (n + 1) = Ok (AdaMod.beta2 s ^ (n + 1)) ->
  exists s',
    AdaMod.update_step (Dense g) v lr s = (Ok tt, s') /\
    AdaMod.base s' = AdaMod.base s /\
    AdaMod.beta1 s' = AdaMod.beta1 s /\
    AdaMod.beta2 s' = AdaMod.beta2 s /\
    AdaMod.exp_avg s' = Some ea /\
    AdaMod.exp_avg_sq s' = Some eas /\
    AdaMod.exp_avg_lr s' = Some eal /\
    AdaMod.step s' = Some (n + 1)%nat.
Proof.
  intros Hea Heas Heal Hst Hidx Hm Hv Hc Hp1 Hp2.
  pose proof (adamod_exec s g v lr ea eas eal n i m vv c
                Hea Heas Heal Hst Hidx Hm Hv Hc Hp1 Hp2) as Hexec.
  cbv zeta in Hexec.
  unfold AdaMod.update_step, bind. rewrite Hexec.
  eexists. cbn. repeat split; assumption.
Qed.

Lemma example_adamod_iteration :
  fst (training_iteration AdaMod.update_step
         [(Dense Example.grad, 0%nat); (Dense Example.grad, 1%nat)]
         Example.lr Example.adamod) = Ok tt.
Proof.
  pose (z := tf.zeros_like (Example.scalar 1)).
  destruct (adamod_call_ok Example.adamod Example.grad 0%nat Example.lr
              [z; z] [z; z] [z; z] 0%nat 0%nat z z z
              eq_refl eq_refl eq_refl eq_refl eq_refl eq_refl eq_refl
              eq_refl (example_pow_beta1 _) (example_pow_beta2 _))
    as (s1 & Hcall1 & Hb1 & Hbeta1 & Hbeta2 & Hea1 & Heas1 & Heal1 & Hst1).
  assert (Hidx1 : Base._get_variable_index (AdaMod.base s1) 1%nat = Ok 1%nat)
    by (rewrite Hb1; reflexivity).
  assert (Hp1 : py_pow (AdaMod.beta1 s1) (0 + 1 + 1)
                = Ok (AdaMod.beta1 s1 ^ (0 + 1 + 1)))
    by (rewrite Hbeta1; apply example_pow_beta1).
  assert (Hp2 : py_pow (AdaMod.beta2 s1) (0 + 1 + 1)
                = Ok (AdaMod.beta2 s1 ^ (0 + 1 + 1)))
    by (rewrite Hbeta2; apply example_pow_beta2).
  destruct (adamod_call_ok s1 Example.grad 1%nat Example.lr
              _ _ _ _ 1%nat z z z Hea1 Heas1 Heal1 Hst1 Hidx1
              eq_refl eq_refl eq_refl Hp1 Hp2)
    as (s2 & Hcall2 & _).
  unfold training_iteration, bind. rewrite Hcall1, Hcall2. reflexivity.
Qed.

(** C5, as the code has it: the step counters never decrease.  For
    AdaBound and AdamP a call of [update_step] either stops before the
    increment, all counters being as they were, or adds exactly one to
    the counter of the variable it was called for and leaves every other
    counter alone; a call that returns normally has done the latter.
    For AdaMod the counter shared by all parameters is left alone by a
    call that stops before the increment and is otherwise incremented by
    exactly one in each call of [update_step], that is once for each
    parameter's update: a training iteration that completes advances it
    by the number of parameters updated. *)
Theorem step_counters_advance :
  (forall g v lr s,
      let r := AdaBound.update_step g v lr s in
      (AdaBound.step (snd r) = AdaBound.step s \/
       exists l i, AdaBound.step s = Some l /\
         Base._get_variable_index (AdaBound.base s) v = Ok i /\
         exists l', bumped l i l' /\ AdaBound.step (snd r) = Some l') /\
      (fst r = Ok tt ->
       exists l i, AdaBound.step s = Some l /\
         Base._get_variable_index (AdaBound.base s) v = Ok i /\
         exists l', bumped l i l' /\ AdaBound.step (snd r) = Some l')) /\
  (forall g v lr s,
      let r := AdamP.update_step g v lr s in
      (AdamP.step (snd r) = AdamP.step s \/
       exists l i, AdamP.step s = Some l /\
         Base._get_variable_index (AdamP.base s) v = Ok i /\
         exists l', bumped l i l' /\ AdamP.step (snd r) = Some l') /\
      (fst r = Ok tt ->
       exists l i, AdamP.step s = Some l /\
         Base._get_variable_index (AdamP.base s) v = Ok i /\
         exists l', bumped l i l' /\ AdamP.step (snd r) = Some l')) /\
  (forall g v lr s,
      let r := AdaMod.update_step g v lr s in
      (AdaMod.step (snd r) = AdaMod.step s \/
       exists n, AdaMod.step s = Some n /\
                 AdaMod.step (snd r) = Some (n + 1)%nat) /\
      (fst r = Ok tt ->
       exists n, AdaMod.step s = Some n /\
                 AdaMod.step (snd r) = Some (n + 1)%nat)) /\
  (forall gvs lr s n,
      AdaMod.step s = Some n ->
      fst (training_iteration AdaMod.update_step gvs lr s) = Ok tt ->
      AdaMod.step (snd (training_iteration AdaMod.update_step gvs lr s))
      = Some (n + List.length gvs)%nat).
Proof.
  split; [ | split; [ | split ] ].
  - intros g v lr s r. subst r.
    rewrite update_step_snd_adabound, update_step_fst_adabound.
    destruct (adabound_frame_step g v lr s) as [H1 H2].
    split; [ exact H1 | ].
    destruct (fst (AdaBound.update_step_frame g v lr s)) as [f|e] eqn:E;
      [ intros _; exact (H2 f eq_refl) | discriminate ].
  - intros g v lr s r. subst r.
    rewrite update_step_snd_adamp, update_step_fst_adamp.
    destruct (adamp_frame_step g v lr s) as [H1 H2].
    split; [ exact H1 | ].
    destruct (fst (AdamP.update_step_frame g v lr s)) as [f|e] eqn:E;
      [ intros _; exact (H2 f eq_refl) | discriminate ].
  - intros g v lr s r. subst r.
    rewrite update_step_snd_adamod, update_step_fst_adamod.
    destruct (adamod_frame_step g v lr s) as [H1 H2].
    split; [ exact H1 | ].
    destruct (fst (AdaMod.update_step_frame g v lr s)) as [f|e] eqn:E;
      [ intros _; exact (H2 f eq_refl) | discriminate ].
  - intros gvs lr s n. apply adamod_training_iteration_step.
Qed.

(** One training iteration of AdaMod over two parameters takes the
    shared counter from 0 to 2. *)
Lemma step_counters_advance_witness :
  AdaMod.step
    (snd (training_iteration AdaMod.update_step
            [(Dense Example.grad, 0%nat); (Dense Example.grad, 1%nat)]
            Example.lr Example.adamod))
  = Some 2%nat.
Proof.
  exact (proj2 (proj2 (proj2 step_counters_advance))
           [(Dense Example.grad, 0%nat); (Dense Example.grad, 1%nat)]
           Example.lr Example.adamod 0%nat eq_refl
           example_adamod_iteration).
Defined.

(** C5, as the claim has it, fails for AdaMod: in one training
    iteration over two parameters the shared counter is incremented
    twice, once for each parameter's update, not once. *)
Lemma adamod_counter_counterexample :
  let s' := snd (training_iteration AdaMod.update_step
                   [(Dense Example.grad, 0%nat); (Dense Example.grad, 1%nat)]
                   Example.lr Example.adamod) in
  AdaMod.step Example.adamod = Some 0%nat /\
  AdaMod.step s' = Some 2%nat /\
  AdaMod.step s' <> Some (0 + 1)%nat.
Proof.
  cbv zeta.
  rewrite (adamod_training_iteration_step
             [(Dense Example.grad, 0%nat); (Dense Example.grad, 1%nat)]
             Example.lr Example.adamod 0%nat eq_refl
             example_adamod_iteration).
  repeat split. discriminate.
Qed.

(** ** What [get_config] reports under "step" *)

Lemma adabound_calls_keep calls :
  forall s l,
    AdaBound.step s = Some l ->
    let s' := after_calls AdaBound.update_step calls s in
    AdaBound.base s' = AdaBound.base s /\
    exists l', AdaBound.step s' = Some l' /\
               List.length l' = List.length l.
Proof.
  induction calls as [|[[g v] lr] calls IH]; intros s l Hl; simpl.
  - split; eauto.
  - rewrite update_step_snd_adabound.
    pose proof (adabound_frame_keeps g v lr s) as (Hb & _).
    destruct (adabound_frame_step g v lr s) as [Hstep _].
    cbv zeta in Hb, Hstep.
    assert (H1 : exists l1,
               AdaBound.step (snd (AdaBound.update_step_frame g v lr s))
               = Some l1 /\ List.length l1 = List.length l).
    { destruct Hstep as [E | (l0 & i & E0 & _ & l1 & Hbump & E1)].
      - exists l. split; congruence.
      - exists l1. split; [ exact E1 | ].
        rewrite (bumped_length _ _ _ Hbump). congruence. }
    destruct H1 as (l1 & E1 & Hlen1).
    destruct (IH _ l1 E1) as (Hb' & l' & E' & Hlen').
    split; [ congruence | ]. exists l'. split; congruence.
Qed.

Lemma adamp_calls_keep calls :
  forall s l,
    AdamP.step s = Some l ->
    let s' := after_calls AdamP.update_step calls s in
    AdamP.base s' = AdamP.base s /\
    exists l', AdamP.step s' = Some l' /\ List.length l' = List.length l.
Proof.
  induction calls as [|[[g v] lr] calls IH]; intros s l Hl; simpl.
  - split; eauto.
  - rewrite update_step_snd_adamp.
    pose proof (adamp_frame_keeps g v lr s) as Hb.
    destruct (adamp_frame_step g v lr s) as [Hstep _].
    cbv zeta in Hstep.
    assert (H1 : exists l1,
               AdamP.step (snd (AdamP.update_step_frame g v lr s))
               = Some l1 /\ List.length l1 = List.length l).
    { destruct Hstep as [E | (l0 & i & E0 & _ & l1 & Hbump & E1)].
      - exists l. split; congruence.
      - exists l1. split; [ exact E1 | ].
        rewrite (bumped_length _ _ _ Hbump). congruence. }
    destruct H1 as (l1 & E1 & Hlen1).
    destruct (IH _ l1 E1) as (Hb' & l' & E' & Hlen').
    split; [ congruence | ]. exists l'. split; congruence.
Qed.

Lemma adamod_calls_keep calls :
  forall s,
    AdaMod.base (after_calls AdaMod.update_step calls s) = AdaMod.base s.
Proof.
  induction calls as [|[[g v] lr] calls IH]; intros s; simpl; auto.
  rewrite IH, update_step_snd_adamod. apply adamod_frame_keeps.
Qed.

Lemma adabound_config_step s l :
  AdaBound.step s = Some l ->
  exists cfg,
    AdaBound.get_config s = Ok cfg /\
    dict_get cfg "step"
    = Some (CList (repeat (Base.iterations (AdaBound.base s))
                          (List.length l))).
Proof.
  intros Hl. unfold AdaBound.get_config. rewrite Hl.
  eexists. split; [ reflexivity | ].
  rewrite map_const_seq.
  match goal with
  | |- dict_get (dict_update ?d [?a; ?b; ?c; ?e; ?f; ?h; (?k, ?x)]) _ = _ =>
      change [a; b; c; e; f; h; (k, x)] with ([a; b; c; e; f; h] ++ [(k, x)])
  end.
  apply dict_get_update_last.
Qed.

Lemma adamp_config_step s l :
  AdamP.step s = Some l ->
  exists cfg,
    AdamP.get_config s = Ok cfg /\
    dict_get cfg "step"
    = Some (CList (repeat (Base.iterations (AdamP.base s))
                          (List.length l))).
Proof.
  intros Hl. unfold AdamP.get_config. rewrite Hl.
  eexists. split; [ reflexivity | ].
  rewrite map_const_seq.
  match goal with
  | |- dict_get (dict_update ?d [?a; ?b; ?c; ?e; ?f; ?h; (?k, ?x)]) _ = _ =>
      change [a; b; c; e; f; h; (k, x)] with ([a; b; c; e; f; h] ++ [(k, x)])
  end.
  apply dict_get_update_last.
Qed.

Lemma adamod_config_step s :
  exists cfg s',
    AdaMod.get_config s = (Ok cfg, s') /\
    dict_get cfg "step" = Some (CInt (Base.iterations (AdaMod.base s))).
Proof.
  unfold AdaMod.get_config, AdaMod.Manager, bind, modify, get, ret.
  eexists _, _. split; [ reflexivity | ]. cbn [AdaMod.base AdaMod.set_manager_].
  match goal with
  | |- dict_get (dict_update ?d [?a; ?b; ?c; ?e; (?k, ?x)]) _ = _ =>
      change [a; b; c; e; (k, x)] with ([a; b; c; e] ++ [(k, x)])
  end.
  apply dict_get_update_last.
Qed.

(** C3, as the code has it: after any sequence of [update_step] calls
    on a built optimizer, the entry of [get_config] under "step" is, for
    AdaBound and AdamP, a list with one entry for each step counter,
    every entry being the iteration counter of the base class, and for
    AdaMod that iteration counter itself.  The iteration counter is the
    one the optimizer had before the calls: [update_step] does not write
    it, and it does not change the number of step counters. *)
Theorem get_config_step_is_iterations :
  (forall calls s l,
      AdaBound.step s = Some l ->
      let s' := after_calls AdaBound.update_step calls s in
      exists cfg,
        AdaBound.get_config s' = Ok cfg /\
        dict_get cfg "step"
        = Some (CList (repeat (Base.iterations (AdaBound.base s))
                              (List.length l)))) /\
  (forall calls s l,
      AdamP.step s = Some l ->
      let s' := after_calls AdamP.update_step calls s in
      exists cfg,
        AdamP.get_config s' = Ok cfg /\
        dict_get cfg "step"
        = Some (CList (repeat (Base.iterations (AdamP.base s))
                              (List.length l)))) /\
  (forall calls s,
      let s' := after_calls AdaMod.update_step calls s in
      exists cfg s'',
        AdaMod.get_config s' = (Ok cfg, s'') /\
        dict_get cfg "step"
        = Some (CInt (Base.iterations (AdaMod.base s)))).
Proof.
  split; [ | split ].
  - intros calls s l Hl s'.
    destruct (adabound_calls_keep calls s l Hl) as (Hb & l' & Hl' & Hlen).
    destruct (adabound_config_step s' l' Hl') as (cfg & Hc & Hs).
    exists cfg. split; [ exact Hc | ]. fold s' in Hb.
    rewrite Hs, Hb, Hlen. reflexivity.
  - intros calls s l Hl s'.
    destruct (adamp_calls_keep calls s l Hl) as (Hb & l' & Hl' & Hlen).
    destruct (adamp_config_step s' l' Hl') as (cfg & Hc & Hs).
    exists cfg. split; [ exact Hc | ]. fold s' in Hb.
    rewrite Hs, Hb, Hlen. reflexivity.
  - intros calls s s'.
    destruct (adamod_config_step s') as (cfg & s'' & Hc & Hs).
    exists cfg, s''. split; [ exact Hc | ].
    rewrite Hs. unfold s'. now rewrite adamod_calls_keep.
Qed.

Lemma get_config_step_is_iterations_witness :
  exists cfg,
    AdaBound.get_config
      (after_calls AdaBound.update_step
         [(Dense Example.grad, 0%nat, Example.lr)] Example.adabound)
    = Ok cfg /\
    dict_get cfg "step" = Some (CList [0%nat]).
Proof.
  exact (proj1 get_config_step_is_iterations
           [(Dense Example.grad, 0%nat, Example.lr)] Example.adabound
           [0%nat] eq_refl).
Defined.

(** C3, as the claim has it, fails: after one call of [update_step] for
    the only parameter of an AdaBound optimizer, the step counter of the
    parameter is 1 and the entry reported under "step" is 0. *)
Lemma get_config_step_counterexample :
  let s' := snd (AdaBound.update_step (Dense Example.grad) 0%nat Example.lr
                                      Example.adabound) in
  AdaBound.step s' = Some [1%nat] /\
  exists cfg,
    AdaBound.get_config s' = Ok cfg /\
    dict_get cfg "step" = Some (CList [0%nat]) /\
    Some (CList [0%nat]) <> Some (CList [1%nat]).
Proof.
  cbv zeta. rewrite update_step_snd_adabound.
  destruct example_adabound_call as (f & s' & Hcall & Hstep & Hbase).
  rewrite Hcall. cbn [snd]. split; [ exact Hstep | ].
  destruct (adabound_config_step s' _ Hstep) as (cfg & Hc & Hs).
  exists cfg. split; [ exact Hc | ]. split.
  - rewrite Hs, Hbase. reflexivity.
  - discriminate.
Qed.

(** ** One call of AdamP's [update_step], step by step *)

Section AdamPCall.

Variables (s : AdamP.state) (g : tensor) (v : var_id) (lr : R).
Variables (ea eas : list tensor) (st : list nat).
Variables (i : nat) (m vv : tensor) (n : nat).

Hypothesis Hea : AdamP.exp_avg s = Some ea.
Hypothesis Heas : AdamP.exp_avg_sq s = Some eas.
Hypothesis Hst : AdamP.step s = Some st.
Hypothesis Hidx : Base._get_variable_index (AdamP.base s) v = Ok i.
Hypothesis Hm : nth_error ea i = Some m.
Hypothesis Hv : nth_error eas i = Some vv.
Hypothesis Hn : nth_error st i = Some n.
Hypothesis Hp1 :
  py_pow (AdamP.beta1 s) (n + 1) = Ok (AdamP.beta1 s ^ (n + 1)).
Hypothesis Hp2 :
  py_pow (AdamP.beta2 s) (n + 1) = Ok (AdamP.beta2 s ^ (n + 1)).

(** With the slots of the variable in place and both powers in range,
    the call increments the counter, updates both moments and then either stops at the root of
    the second bias correction or inside [projection], or decays and
    steps the variable. *)
Lemma adamp_exec :
  let b1 := AdamP.beta1 s in
  let b2 := AdamP.beta2 s in
  let wd := Base.weight_decay (AdamP.base s) in
  let p := AdamP.variables s v in
  let m' := tf.add (tf.times m b1) (tf.times g (1 - b1)) in
  let v' := tf.add (tf.times vv b2)
                   (tf.times (tf.multiply g g) (1 - b2)) in
  let s2 := AdamP.set_exp_avg_sq (Some (setitem eas i v'))
              (AdamP.set_exp_avg (Some (setitem ea i m'))
                 (AdamP.set_step (Some (setitem st i (n + 1)%nat)) s)) in
  let bc1 := 1 - b1 ^ (n + 1) in
  let bc2 := 1 - b2 ^ (n + 1) in
  AdamP.update_step_frame g v lr s =
  match math_sqrt bc2 with
  | Raise e => (Raise e, s2)
  | Ok root =>
      let denom := tf.plus (tf.over (tf.sqrt v') root) (AdamP.epsilon s) in
      let perturb :=
        if AdamP.nesterov s
        then tf.divide (tf.add (tf.scale b1 m') (tf.scale (1 - b1) g)) denom
        else tf.divide m' denom in
      match (if (1 <? List.length (shape p))%nat
             then AdamP.projection p g perturb (AdamP.delta s)
                                   (AdamP.wd_ratio s) (AdamP.epsilon s)
             else Ok (perturb, 1)) with
      | Raise e => (Raise e, s2)
      | Ok pw =>
          let decayed :=
            if Rlt_dec 0 wd
            then AdaBound.update_var (AdamP.variables s) v
                   (tf.times p (1 - lr * wd * snd pw))
            else AdamP.variables s in
          (Ok (AdamP.mkFrame bc1 bc2 denom (lr / bc1) (fst pw) (snd pw)),
           AdamP.set_variables
             (AdaBound.update_var decayed v
                (tf.add (decayed v) (tf.times (fst pw) (- (lr / bc1)))))
             s2)
      end
  end.
Proof.
  destruct s; cbn -[AdamP.projection Nat.ltb] in *; subst.
  unfold_adamp. unfold getitem. cbn -[AdamP.projection Nat.ltb].
  repeat (rewrite ?Hidx, ?Hm, ?Hv, ?Hn, ?Hp1, ?Hp2,
            ?(nth_error_setitem_same _ _ _ _ Hn),
            ?(nth_error_setitem_same _ _ _ _ Hm),
            ?(nth_error_setitem_same _ _ _ _ Hv);
          cbn -[AdamP.projection Nat.ltb]).
  destruct (math_sqrt _) as [root|e]; cbn -[AdamP.projection Nat.ltb];
    [ | reflexivity ].
  destruct (1 <? List.length (shape (variables v)))%nat;
    cbn -[AdamP.projection Nat.ltb].
  - destruct (AdamP.projection _ _ _ _ _ _) as [pw|e];
      cbn -[AdamP.projection Nat.ltb]; [ | reflexivity ].
    destruct (Rlt_dec 0 (Base.weight_decay base)); reflexivity.
  - destruct (Rlt_dec 0 (Base.weight_decay base)); reflexivity.
Qed.

End AdamPCall.

Lemma example_adamp_call :
  exists f s',
    AdamP.update_step_frame Example.grad 0%nat Example.lr Example.adamp
    = (Ok f, s') /\
    0 < AdamP.f_bias_correction2 f.
Proof.
  pose proof (adamp_exec Example.adamp Example.grad 0%nat Example.lr
                [tf.zeros_like (Example.scalar 1)]
                [tf.zeros_like (Example.scalar 1)]
                [0%nat] 0%nat
                (tf.zeros_like (Example.scalar 1))
                (tf.zeros_like (Example.scalar 1)) 0%nat
                eq_refl eq_refl eq_refl eq_refl eq_refl eq_refl eq_refl
                (example_pow_beta1 _) (example_pow_beta2 _))
    as Hexec.
  cbv zeta in Hexec.
  rewrite math_sqrt_ok in Hexec by (cbn; lra).
  change (1 <? List.length (shape (AdamP.variables Example.adamp 0%nat)))%nat
    with false in Hexec.
  cbv iota in Hexec.
  rewrite Hexec. eexists _, _. split; [ reflexivity | ]. cbn. lra.
Qed.

Lemma example_adamp_slots_nonneg :
  nonneg_slots (AdamP.exp_avg_sq Example.adamp).
Proof.
  intros l t E. inversion E; subst l. intros [<- | []] k. cbn. lra.
Qed.

(** ** The projection of AdamP *)

Lemma view_test_false view_func p grad delta eps pv gv :
  view_func p = Ok pv ->
  view_func grad = Ok gv ->
  (0 < AdamP.width pv)%nat ->
  delta / sqrt (INR (AdamP.width pv))
  <= AdamP.reduce_max (tf.abs (AdamP.cosine_similarity gv pv eps)) ->
  AdamP.view_test view_func p grad delta eps = Ok false.
Proof.
  intros Hp Hg Hw Hle. unfold AdamP.view_test. rewrite Hp, Hg.
  rewrite math_sqrt_ok by apply pos_INR.
  rewrite py_div_ok.
  - destruct (Rlt_dec _ _) as [Hlt|_]; [ lra | reflexivity ].
  - apply Rgt_not_eq, sqrt_lt_R0. change 0 with (INR 0). now apply lt_INR.
Qed.

(** C8: for a parameter of at least two dimensions, if for the channel
    view and for the layer view the largest absolute cosine similarity
    between the gradient view and the parameter view is not below
    [delta / sqrt width], then [projection] returns the perturbation it
    was given and the weight-decay ratio 1; and a call of [update_step]
    for such a parameter, which the number of dimensions sends through
    [projection], steps along the perturbation it computed from the
    moments, unprojected, with the weight-decay ratio 1 (the call
    reaches [projection] when both powers are within the range of a
    float and the second bias correction is not negative). *)
Theorem projection_unchanged_above_threshold
    (p grad perturb : tensor) (delta wd_ratio eps : R)
    (pv gv lpv lgv : tensor) :
  (2 <= List.length (shape p))%nat ->
  AdamP._channel_view p = Ok pv ->
  AdamP._channel_view grad = Ok gv ->
  AdamP._layer_view p = Ok lpv ->
  AdamP._layer_view grad = Ok lgv ->
  (0 < AdamP.width pv)%nat ->
  (0 < AdamP.width lpv)%nat ->
  delta / sqrt (INR (AdamP.width pv))
  <= AdamP.reduce_max (tf.abs (AdamP.cosine_similarity gv pv eps)) ->
  delta / sqrt (INR (AdamP.width lpv))
  <= AdamP.reduce_max (tf.abs (AdamP.cosine_similarity lgv lpv eps)) ->
  AdamP.projection p grad perturb delta wd_ratio eps = Ok (perturb, 1) /\
  forall s v lr ea eas st i m vv n,
    AdamP.variables s v = p ->
    AdamP.delta s = delta ->
    AdamP.epsilon s = eps ->
    AdamP.exp_avg s = Some ea ->
    AdamP.exp_avg_sq s = Some eas ->
    AdamP.step s = Some st ->
    Base._get_variable_index (AdamP.base s) v = Ok i ->
    nth_error ea i = Some m ->
    nth_error eas i = Some vv ->
    nth_error st i = Some n ->
    representable (AdamP.beta1 s ^ (n + 1)) ->
    representable (AdamP.beta2 s ^ (n + 1)) ->
    0 <= 1 - AdamP.beta2 s ^ (n + 1) ->
    exists f s' m',
      AdamP.update_step_frame grad v lr s = (Ok f, s') /\
      AdamP.exp_avg s' = Some (setitem ea i m') /\
      AdamP.f_wd_ratio f = 1 /\
      AdamP.f_perturb f
      = if AdamP.nesterov s
        then tf.divide (tf.add (tf.scale (AdamP.beta1 s) m')
                               (tf.scale (1 - AdamP.beta1 s) grad))
                       (AdamP.f_denom f)
        else tf.divide m' (AdamP.f_denom f).
Proof.
  intros Hdim Hpv Hgv Hlpv Hlgv Hw Hlw Hc Hl.
  assert (Hproj : forall x w,
             AdamP.projection p grad x delta w eps = Ok (x, 1)).
  { intros x w. unfold AdamP.projection, AdamP.projection_loop.
    rewrite (view_test_false _ _ _ _ _ _ _ Hpv Hgv Hw Hc).
    rewrite (view_test_false _ _ _ _ _ _ _ Hlpv Hlgv Hlw Hl).
    reflexivity. }
  split; [ apply Hproj | ].
  intros s v lr ea eas st i m vv n Hp Hdelta Heps Hea Heas Hst Hidx
         Hm Hv Hn Hr1 Hr2 Hbc.
  pose proof (adamp_exec s grad v lr ea eas st i m vv n
                Hea Heas Hst Hidx Hm Hv Hn
                (py_pow_in_range _ _ Hr1) (py_pow_in_range _ _ Hr2))
    as Hexec.
  cbv zeta in Hexec.
  rewrite (math_sqrt_ok _ Hbc), Hp, Hdelta, Heps in Hexec.
  assert (Hguard : (1 <? List.length (shape p))%nat = true)
    by (apply Nat.ltb_lt; lia).
  rewrite Hguard, Hproj in Hexec.
  rewrite Hexec. eexists _, _, _.
  split; [ reflexivity | ]. split; [ reflexivity | ].
  split; [ reflexivity | ]. reflexivity.
Qed.

(** A one-by-one parameter and a gradient equal to it have cosine
    similarity 1 in both views. *)
Lemma example_cosine eps :
  0 < eps <= 1 ->
  AdamP.reduce_max
    (tf.abs (AdamP.cosine_similarity (Example.matrix 1) (Example.matrix 1)
                                     eps)) = 1.
Proof.
  intros He.
  unfold AdamP.reduce_max, AdamP.cosine_similarity, AdamP.cosine_denominator,
    AdamP.clip, AdamP.clip_max, tf.clip_by_value, tf.clip_scalar,
    AdamP.float32_max.
  cbn. rewrite !Rplus_0_l, !Rmult_1_r.
  rewrite Rmin_left by lra.
  rewrite Rmax_left by nra.
  rewrite sqrt_1. unfold Rdiv. rewrite Rinv_1, Rmult_1_r.
  apply Rabs_R1.
Qed.

Lemma projection_unchanged_above_threshold_witness :
  AdamP.projection (Example.matrix 1) (Example.matrix 1) (Example.matrix 2)
                   (1 / 10) (1 / 10) (1 / 100000000)
  = Ok (Example.matrix 2, 1).
Proof.
  assert (Hthr : 1 / 10 / sqrt (INR 1) <= 1).
  { cbn. rewrite sqrt_1. lra. }
  apply (projection_unchanged_above_threshold
           (Example.matrix 1) (Example.matrix 1) (Example.matrix 2)
           (1 / 10) (1 / 10) (1 / 100000000)
           (Example.matrix 1) (Example.matrix 1)
           (Example.matrix 1) (Example.matrix 1));
    try reflexivity; try (cbn; lia);
    (cbn [AdamP.width Example.matrix shape nth];
     rewrite example_cosine by lra; exact Hthr).
Defined.

(** ** Denominators *)

Lemma nonneg_nth slots l i t k :
  nonneg_slots slots -> slots = Some l -> nth_error l i = Some t ->
  0 <= data t k.
Proof.
  intros H Hs Hn. eapply H; eauto. eapply nth_error_In; eauto.
Qed.

Lemma second_moment_nonneg beta2 v g :
  0 <= beta2 <= 1 -> 0 <= v -> 0 <= beta2 * v + (1 - beta2) * (g * g).
Proof.
  intros Hb Hv. pose proof (Rle_0_sqr g) as Hg. unfold Rsqr in Hg. nra.
Qed.

(** A slot read back after an assignment holds the value assigned. *)
Ltac settle_reads :=
  repeat match goal with
         | H : nth_error (setitem ?l ?i ?a) ?i = Some ?t,
           H' : nth_error ?l ?i = Some _ |- _ =>
             rewrite (nth_error_setitem_same _ _ _ _ H') in H;
             inversion H; clear H; subst t
         end.

Ltac second_moment k :=
  match goal with
  | Hs : nonneg_slots (Some ?l), H : nth_error ?l _ = Some ?t
    |- 0 <= _ * data ?t k + _ =>
      apply second_moment_nonneg;
      [ assumption | exact (nonneg_nth _ _ _ _ k Hs eq_refl H) ]
  end.

(** The divisor of the elementwise division in AdaBound is the square
    root of a non-negative tensor plus [epsilon], on either branch of
    [amsbound]. *)
Lemma adabound_denom_form g v lr s f s' :
  0 <= AdaBound.beta2 s <= 1 ->
  nonneg_slots (AdaBound.exp_avg_sq s) ->
  nonneg_slots (AdaBound.max_exp_avg_sq s) ->
  AdaBound.update_step_frame g v lr s = (Ok f, s') ->
  exists t, AdaBound.f_denom f = tf.plus (tf.sqrt t) (AdaBound.epsilon s) /\
            forall k, 0 <= data t k.
Proof.
  destruct s. unfold_adabound. unfold getitem. cbn. intros Hb Hsq Hmax.
  crunch; intros H; inversion H; subst; cbn; settle_reads;
    eexists; (split; [ reflexivity | ]); intros k; cbn;
    try (eapply Rle_trans; [ | apply Rmax_r ]); second_moment k.
Qed.

Lemma adamod_denom_form g v lr s f s' :
  0 <= AdaMod.beta2 s <= 1 ->
  nonneg_slots (AdaMod.exp_avg_sq s) ->
  AdaMod.update_step_frame g v lr s = (Ok f, s') ->
  exists t, AdaMod.f_denom f = tf.plus (tf.sqrt t) (AdaMod.epsilon s) /\
            forall k, 0 <= data t k.
Proof.
  destruct s. unfold_adamod. unfold getitem. cbn. intros Hb Hsq.
  crunch; intros H; inversion H; subst; cbn; settle_reads;
    eexists; (split; [ reflexivity | ]); intros k; cbn; second_moment k.
Qed.

(** In AdamP the root of the second moment is first divided by the root
    of the second bias correction, which carries no [epsilon]. *)
Lemma adamp_denom_form g v lr s f s' :
  0 <= AdamP.beta2 s <= 1 ->
  nonneg_slots (AdamP.exp_avg_sq s) ->
  AdamP.update_step_frame g v lr s = (Ok f, s') ->
  0 <= AdamP.f_bias_correction2 f /\
  exists t,
    AdamP.f_denom f
    = tf.plus (tf.over (tf.sqrt t) (sqrt (AdamP.f_bias_correction2 f)))
              (AdamP.epsilon s) /\
    forall k, 0 <= data t k.
Proof.
  destruct s. unfold_adamp. unfold math_sqrt, getitem. cbn. intros Hb Hsq.
  crunch; intros H; inversion H; subst; cbn; settle_reads;
    (split; [ lra | ]);
    eexists; (split; [ reflexivity | ]); intros k; cbn;
    rewrite (Rmult_comm (data _ k) beta2),
            (Rmult_comm _ (1 - beta2));
    second_moment k.
Qed.

Lemma sqrt_plus_eps_ge (x eps : R) : eps <= sqrt x + eps.
Proof. pose proof (sqrt_pos x). lra. Qed.

Lemma cosine_denominator_ge x1 x2 eps k :
  0 < eps -> eps <= data (AdamP.cosine_denominator x1 x2 eps) k.
Proof.
  intros He. unfold AdamP.cosine_denominator, AdamP.clip. cbn.
  unfold tf.clip_scalar.
  rewrite <- (sqrt_square eps) at 1 by lra.
  apply sqrt_le_1_alt, Rmax_r.
Qed.

Lemma unit_denominator_ge pv eps k :
  eps <= data (AdamP.unit_denominator pv eps) k.
Proof.
  unfold AdamP.unit_denominator. cbn. apply sqrt_plus_eps_ge.
Qed.

(** C9, as the code has it: with [epsilon > 0], the divisors to which
    [epsilon] is added or on which a floor is enforced are at least
    [epsilon]: the tensor [denom] by which [update_step] divides in
    AdaBound, in AdaMod and (the second bias correction being positive)
    in AdamP, each the root of a non-negative tensor plus [epsilon]; the
    divisor [n12] of [cosine_similarity], floored at [epsilon * epsilon]
    under the root; and the norm plus [epsilon] by which [projection]
    normalises the parameter.  The second moments are taken
    non-negative and [beta2] between 0 and 1, as they are from the
    initial zeros on. *)
Theorem epsilon_guarded_denominators (eps : R) :
  0 < eps ->
  (forall g v lr s f s',
      AdaBound.epsilon s = eps ->
      0 <= AdaBound.beta2 s <= 1 ->
      nonneg_slots (AdaBound.exp_avg_sq s) ->
      nonneg_slots (AdaBound.max_exp_avg_sq s) ->
      AdaBound.update_step_frame g v lr s = (Ok f, s') ->
      exists t,
        AdaBound.f_denom f = tf.plus (tf.sqrt t) eps /\
        forall k, 0 <= data t k /\ eps <= data (AdaBound.f_denom f) k) /\
  (forall g v lr s f s',
      AdaMod.epsilon s = eps ->
      0 <= AdaMod.beta2 s <= 1 ->
      nonneg_slots (AdaMod.exp_avg_sq s) ->
      AdaMod.update_step_frame g v lr s = (Ok f, s') ->
      exists t,
        AdaMod.f_denom f = tf.plus (tf.sqrt t) eps /\
        forall k, 0 <= data t k /\ eps <= data (AdaMod.f_denom f) k) /\
  (forall g v lr s f s',
      AdamP.epsilon s = eps ->
      0 <= AdamP.beta2 s <= 1 ->
      nonneg_slots (AdamP.exp_avg_sq s) ->
      AdamP.update_step_frame g v lr s = (Ok f, s') ->
      0 < AdamP.f_bias_correction2 f ->
      exists t,
        AdamP.f_denom f
        = tf.plus (tf.over (tf.sqrt t) (sqrt (AdamP.f_bias_correction2 f)))
                  eps /\
        forall k, 0 <= data t k /\ eps <= data (AdamP.f_denom f) k) /\
  (forall x1 x2 k, eps <= data (AdamP.cosine_denominator x1 x2 eps) k) /\
  (forall param_view k,
      eps <= data (AdamP.unit_denominator param_view eps) k).
Proof.
  intros He. split; [ | split; [ | split; [ | split ] ] ].
  - intros g v lr s f s' <- Hb Hsq Hmax Hcall.
    destruct (adabound_denom_form _ _ _ _ _ _ Hb Hsq Hmax Hcall)
      as (t & Hd & Ht).
    exists t. split; [ exact Hd | ]. intros k. split; [ apply Ht | ].
    rewrite Hd. cbn. apply sqrt_plus_eps_ge.
  - intros g v lr s f s' <- Hb Hsq Hcall.
    destruct (adamod_denom_form _ _ _ _ _ _ Hb Hsq Hcall) as (t & Hd & Ht).
    exists t. split; [ exact Hd | ]. intros k. split; [ apply Ht | ].
    rewrite Hd. cbn. apply sqrt_plus_eps_ge.
  - intros g v lr s f s' <- Hb Hsq Hcall Hbc.
    destruct (adamp_denom_form _ _ _ _ _ _ Hb Hsq Hcall)
      as (_ & t & Hd & Ht).
    exists t. split; [ exact Hd | ]. intros k. split; [ apply Ht | ].
    rewrite Hd. cbn.
    assert (0 <= sqrt (data t k) / sqrt (AdamP.f_bias_correction2 f)).
    { apply Rmult_le_pos; [ apply sqrt_pos | ].
      apply Rlt_le, Rinv_0_lt_compat, sqrt_lt_R0, Hbc. }
    lra.
  - intros. now apply cosine_denominator_ge.
  - intros. apply unit_denominator_ge.
Qed.

Lemma example_adabound_slots_nonneg :
  nonneg_slots (AdaBound.exp_avg_sq Example.adabound) /\
  nonneg_slots (AdaBound.max_exp_avg_sq Example.adabound).
Proof.
  split; intros l t E; [ | discriminate ].
  inversion E; subst l. intros [<- | []] k. cbn. lra.
Qed.

Lemma epsilon_guarded_denominators_witness :
  (forall x1 x2 k,
      1 / 100000000
      <= data (AdamP.cosine_denominator x1 x2 (1 / 100000000)) k) /\
  (exists f s',
      AdaBound.update_step_frame (Dense Example.grad) 0%nat Example.lr
                                 Example.adabound = (Ok f, s') /\
      forall k, 1 / 100000000 <= data (AdaBound.f_denom f) k) /\
  (exists f s',
      AdamP.update_step_frame Example.grad 0%nat Example.lr Example.adamp
      = (Ok f, s') /\
      forall k, 1 / 100000000 <= data (AdamP.f_denom f) k).
Proof.
  assert (He : 0 < 1 / 100000000) by lra.
  destruct (epsilon_guarded_denominators (1 / 100000000) He)
    as (HA & _ & HP & HC & _).
  split; [ exact HC | ]. split.
  - destruct example_adabound_call as (f & s' & Hcall & _).
    exists f, s'. split; [ exact Hcall | ].
    assert (Hb : 0 <= AdaBound.beta2 Example.adabound <= 1) by (cbn; lra).
    destruct (HA (Dense Example.grad) 0%nat Example.lr Example.adabound
                f s' eq_refl Hb
                (proj1 example_adabound_slots_nonneg)
                (proj2 example_adabound_slots_nonneg) Hcall)
      as (t & _ & Ht).
    intros k. apply Ht.
  - destruct example_adamp_call as (f & s' & Hcall & Hbc).
    exists f, s'. split; [ exact Hcall | ].
    assert (Hb : 0 <= AdamP.beta2 Example.adamp <= 1) by (cbn; lra).
    destruct (HP Example.grad 0%nat Example.lr Example.adamp
                f s' eq_refl Hb example_adamp_slots_nonneg Hcall Hbc)
      as (t & _ & Ht).
    intros k. apply Ht.
Defined.

(** C9, as the claim has it, fails: the quotient [1 / (gamma * step)]
    of AdaBound's upper bound has no [epsilon] in its divisor, and with
    [epsilon > 0] and [gamma = 0] the first call of [update_step]
    divides by zero there. *)
Lemma epsilon_guard_counterexample :
  0 < AdaBound.epsilon Example.adabound_gamma0 /\
  AdaBound.upper_bound 1 (AdaBound.gamma Example.adabound_gamma0) 1
  = Raise ZeroDivisionError /\
  fst (AdaBound.update_step (Dense Example.grad) 0%nat Example.lr
                            Example.adabound_gamma0)
  = Raise ZeroDivisionError.
Proof.
  split; [ cbn; lra | ]. split.
  - unfold AdaBound.upper_bound.
    replace (AdaBound.gamma Example.adabound_gamma0 * INR 1) with 0
      by (cbn; ring).
    now rewrite py_div_zero.
  - rewrite update_step_fst_adabound, example_adabound_gamma0_call.
    reflexivity.
Qed.

(** * Further properties *)

(** ** The index of a variable *)

Lemma index_from_bounds v l : forall k i,
  Base.index_from v l k = Some i ->
  (k <= i < k + List.length l)%nat /\ nth_error l (i - k) = Some v.
Proof.
  induction l as [|x l IH]; intros k i H; simpl in *; [ discriminate | ].
  destruct (Base.index_from v l (S k)) as [j|] eqn:E.
  - inversion H; subst j. destruct (IH _ _ E) as [Hb Hn].
    split; [ lia | ].
    replace (i - k)%nat with (S (i - S k)) by lia. exact Hn.
  - destruct (Nat.eqb x v) eqn:Ex; [ | discriminate ].
    inversion H; subst i. apply Nat.eqb_eq in Ex. subst x.
    split; [ lia | ]. now rewrite Nat.sub_diag.
Qed.

Lemma index_from_in v l : forall k,
  In v l -> exists i, Base.index_from v l k = Some i.
Proof.
  induction l as [|x l IH]; intros k Hin; simpl in *; [ contradiction | ].
  destruct (Base.index_from v l (S k)) as [j|] eqn:E; [ eauto | ].
  destruct Hin as [-> | Hin].
  - rewrite Nat.eqb_refl. eauto.
  - destruct (IH (S k) Hin) as [i Hi]. congruence.
Qed.

Lemma index_from_not_in v l : forall k,
  ~ In v l -> Base.index_from v l k = None.
Proof.
  induction l as [|x l IH]; intros k Hin; simpl in *; [ reflexivity | ].
  rewrite IH by tauto.
  destruct (Nat.eqb x v) eqn:Ex; [ | reflexivity ].
  apply Nat.eqb_eq in Ex. tauto.
Qed.

(** A variable given to [build] has an index, and the index is a
    position of the list. *)
Lemma get_variable_index_listed b v :
  In v (Base._trainable_variables b) ->
  exists i, Base._get_variable_index b v = Ok i /\
            (i < List.length (Base._trainable_variables b))%nat.
Proof.
  intros Hin. unfold Base._get_variable_index.
  destruct (index_from_in v _ 0%nat Hin) as [i Hi]. rewrite Hi.
  exists i. split; [ reflexivity | ].
  destruct (index_from_bounds _ _ _ _ Hi). lia.
Qed.

Lemma get_variable_index_unlisted b v :
  ~ In v (Base._trainable_variables b) ->
  Base._get_variable_index b v = Raise KeyError.
Proof.
  intros Hin. unfold Base._get_variable_index.
  now rewrite index_from_not_in.
Qed.

Lemma slots_for_nth {A} n (slots : option (list A)) i :
  slots_for n slots -> (i < n)%nat ->
  exists l a, slots = Some l /\ nth_error l i = Some a.
Proof.
  intros (l & Hl & Hlen) Hi. exists l.
  destruct (nth_error l i) as [a|] eqn:E.
  - eauto.
  - apply nth_error_None in E. lia.
Qed.

(** ** What [build] allocates *)

Lemma adabound_build_var_slots x s ea eas st :
  AdaBound.exp_avg s = Some ea ->
  AdaBound.exp_avg_sq s = Some eas ->
  AdaBound.step s = Some st ->
  let s' := AdaBound.build_var x s in
  let z := zero_slot (AdaBound.variables s) x in
  AdaBound.exp_avg s' = Some (ea ++ [z]) /\
  AdaBound.exp_avg_sq s' = Some (eas ++ [z]) /\
  AdaBound.step s' = Some (st ++ [0%nat]) /\
  AdaBound.max_exp_avg_sq s'
  = (if AdaBound.amsbound s
     then option_map (fun l => l ++ [z]) (AdaBound.max_exp_avg_sq s)
     else AdaBound.max_exp_avg_sq s) /\
  AdaBound.variables s' = AdaBound.variables s /\
  AdaBound.base s' = AdaBound.base s /\
  AdaBound.amsbound s' = AdaBound.amsbound s /\
  AdaBound.base_lr s' = AdaBound.base_lr s /\
  AdaBound.beta1 s' = AdaBound.beta1 s /\
  AdaBound.beta2 s' = AdaBound.beta2 s /\
  AdaBound.epsilon s' = AdaBound.epsilon s /\
  AdaBound.final_lr s' = AdaBound.final_lr s /\
  AdaBound.gamma s' = AdaBound.gamma s.
Proof.
  intros Hea Heas Hst. destruct s. cbn in *. subst.
  unfold AdaBound.build_var. cbn.
  destruct amsbound, max_exp_avg_sq; cbn; repeat split.
Qed.

Lemma adabound_build_loop_slots vl : forall s ea eas st,
  AdaBound.exp_avg s = Some ea ->
  AdaBound.exp_avg_sq s = Some eas ->
  AdaBound.step s = Some st ->
  let s' := fold_left (fun acc var => AdaBound.build_var var acc) vl s in
  let zeros := List.map (zero_slot (AdaBound.variables s)) vl in
  AdaBound.exp_avg s' = Some (ea ++ zeros) /\
  AdaBound.exp_avg_sq s' = Some (eas ++ zeros) /\
  AdaBound.step s' = Some (st ++ repeat 0%nat (List.length vl)) /\
  AdaBound.max_exp_avg_sq s'
  = (if AdaBound.amsbound s
     then option_map (fun l => l ++ zeros) (AdaBound.max_exp_avg_sq s)
     else AdaBound.max_exp_avg_sq s) /\
  AdaBound.variables s' = AdaBound.variables s /\
  AdaBound.base s' = AdaBound.base s /\
  AdaBound.amsbound s' = AdaBound.amsbound s /\
  AdaBound.base_lr s' = AdaBound.base_lr s /\
  AdaBound.beta1 s' = AdaBound.beta1 s /\
  AdaBound.beta2 s' = AdaBound.beta2 s /\
  AdaBound.epsilon s' = AdaBound.epsilon s /\
  AdaBound.final_lr s' = AdaBound.final_lr s /\
  AdaBound.gamma s' = AdaBound.gamma s.
Proof.
  induction vl as [|x vl IH]; intros s ea eas st Hea Heas Hst; simpl.
  - rewrite !app_nil_r. rewrite Hea, Heas, Hst.
    destruct (AdaBound.amsbound s), (AdaBound.max_exp_avg_sq s); simpl;
      rewrite ?app_nil_r; repeat split.
  - destruct (adabound_build_var_slots x s ea eas st Hea Heas Hst)
      as (H1 & H2 & H3 & H4 & H5 & H6 & H7 & H8 & H9 & H10 & H11 & H12 & H13).
    destruct (IH _ _ _ _ H1 H2 H3)
      as (I1 & I2 & I3 & I4 & I5 & I6 & I7 & I8 & I9 & I10 & I11 & I12 & I13).
    rewrite H5 in *. rewrite I1, I2, I3, I4, H4, H7.
    rewrite <- !app_assoc. cbn.
    repeat split; try congruence.
    destruct (AdaBound.amsbound s), (AdaBound.max_exp_avg_sq s); cbn;
      rewrite <- ?app_assoc; reflexivity.
Qed.

(** X1: [build] on an optimizer that is not built yet records the variables,
    creates for each of them, in order, a first moment and a second
    moment of the variable's shape filled with zeros and a step counter
    0, and keeps the learning rate as [base_lr]; the slot
    [max_exp_avg_sq] is created, in the same way, only with [amsbound].
    The variables and the hyperparameters are left as they were. *)
Theorem adabound_build_allocates (vl : list var_id) (s : AdaBound.state) :
  Base.built (AdaBound.base s) = false ->
  let s' := AdaBound.build vl s in
  let zeros := List.map (zero_slot (AdaBound.variables s)) vl in
  Base.built (AdaBound.base s') = true /\
  Base._trainable_variables (AdaBound.base s') = vl /\
  AdaBound.exp_avg s' = Some zeros /\
  AdaBound.exp_avg_sq s' = Some zeros /\
  AdaBound.step s' = Some (repeat 0%nat (List.length vl)) /\
  AdaBound.base_lr s' = Some (Base._learning_rate (AdaBound.base s)) /\
  AdaBound.max_exp_avg_sq s'
  = (if AdaBound.amsbound s then Some zeros
     else AdaBound.max_exp_avg_sq s) /\
  AdaBound.variables s' = AdaBound.variables s /\
  AdaBound.amsbound s' = AdaBound.amsbound s /\
  adabound_wf s'.
Proof.
  intros Hb s' zeros. unfold s', zeros, AdaBound.build. rewrite Hb.
  destruct s as [b b1 b2 e fl g ams oea oeas omx blr ost vars].
  cbn in Hb. destruct ams; cbn;
    match goal with
    | |- context [fold_left ?f vl ?s0] =>
        destruct (adabound_build_loop_slots vl s0 [] [] []
                    eq_refl eq_refl eq_refl)
          as (I1 & I2 & I3 & I4 & I5 & I6 & I7 & I8 & _)
    end;
    cbn in *; unfold adabound_wf, slots_for;
    rewrite I1, I2, I3, I4, I5, I6, I7, I8; cbn;
    rewrite ?length_map, ?repeat_length;
    (repeat split; try reflexivity; try discriminate;
     try (eexists; split; [ reflexivity | ];
          rewrite ?length_map, ?repeat_length; reflexivity);
     try (intros; discriminate);
     try (intros; eexists; split; [ reflexivity | ];
          rewrite ?length_map; reflexivity)).
Qed.

Lemma adamp_build_loop_slots vl : forall s ea eas st,
  AdamP.exp_avg s = Some ea ->
  AdamP.exp_avg_sq s = Some eas ->
  AdamP.step s = Some st ->
  let s' := fold_left (fun acc var => AdamP.build_var var acc) vl s in
  let zeros := List.map (zero_slot (AdamP.variables s)) vl in
  AdamP.exp_avg s' = Some (ea ++ zeros) /\
  AdamP.exp_avg_sq s' = Some (eas ++ zeros) /\
  AdamP.step s' = Some (st ++ repeat 0%nat (List.length vl)) /\
  AdamP.variables s' = AdamP.variables s /\
  AdamP.base s' = AdamP.base s.
Proof.
  induction vl as [|x vl IH]; intros s ea eas st Hea Heas Hst; simpl.
  - rewrite !app_nil_r. repeat split; assumption.
  - assert (H : let s1 := AdamP.build_var x s in
                AdamP.exp_avg s1
                = Some (ea ++ [zero_slot (AdamP.variables s) x]) /\
                AdamP.exp_avg_sq s1
                = Some (eas ++ [zero_slot (AdamP.variables s) x]) /\
                AdamP.step s1 = Some (st ++ [0%nat]) /\
                AdamP.variables s1 = AdamP.variables s /\
                AdamP.base s1 = AdamP.base s).
    { destruct s. cbn in *. subst. repeat split. }
    destruct H as (H1 & H2 & H3 & H4 & H5).
    destruct (IH _ _ _ _ H1 H2 H3) as (I1 & I2 & I3 & I4 & I5).
    rewrite H4 in *. rewrite I1, I2, I3, <- !app_assoc. cbn.
    repeat split; congruence.
Qed.

(** X2: [build] of AdamP on an optimizer that is not built yet: one first
    moment, one second moment (zeros of the variable's shape) and one
    counter 0 for each variable, in the order of the list. *)
Theorem adamp_build_allocates (vl : list var_id) (s : AdamP.state) :
  Base.built (AdamP.base s) = false ->
  let s' := AdamP.build vl s in
  let zeros := List.map (zero_slot (AdamP.variables s)) vl in
  Base.built (AdamP.base s') = true /\
  Base._trainable_variables (AdamP.base s') = vl /\
  AdamP.exp_avg s' = Some zeros /\
  AdamP.exp_avg_sq s' = Some zeros /\
  AdamP.step s' = Some (repeat 0%nat (List.length vl)) /\
  AdamP.variables s' = AdamP.variables s /\
  adamp_wf s'.
Proof.
  intros Hb s' zeros. unfold s', zeros, AdamP.build. rewrite Hb.
  destruct s as [b b1 b2 e d w nest oea oeas ost vars]. cbn in Hb. cbn.
  match goal with
  | |- context [fold_left ?f vl ?s0] =>
      destruct (adamp_build_loop_slots vl s0 [] [] []
                  eq_refl eq_refl eq_refl) as (I1 & I2 & I3 & I4 & I5)
  end.
  cbn in *. unfold adamp_wf, slots_for. rewrite I1, I2, I3, I4, I5. cbn.
  repeat split;
    eexists; (split; [ reflexivity | ]);
    rewrite ?length_map, ?repeat_length; reflexivity.
Qed.

Lemma adamod_build_loop_slots vl : forall s ea eas eal,
  AdaMod.exp_avg s = Some ea ->
  AdaMod.exp_avg_sq s = Some eas ->
  AdaMod.exp_avg_lr s = Some eal ->
  let s' := fold_left (fun acc var => AdaMod.build_var var acc) vl s in
  let zeros := List.map (zero_slot (AdaMod.variables s)) vl in
  AdaMod.exp_avg s' = Some (ea ++ zeros) /\
  AdaMod.exp_avg_sq s' = Some (eas ++ zeros) /\
  AdaMod.exp_avg_lr s' = Some (eal ++ zeros) /\
  AdaMod.step s' = AdaMod.step s /\
  AdaMod.variables s' = AdaMod.variables s /\
  AdaMod.base s' = AdaMod.base s /\
  AdaMod.manager s' = AdaMod.manager s.
Proof.
  induction vl as [|x vl IH]; intros s ea eas eal Hea Heas Heal; simpl.
  - rewrite !app_nil_r. repeat split; assumption.
  - assert (H : let s1 := AdaMod.build_var x s in
                AdaMod.exp_avg s1
                = Some (ea ++ [zero_slot (AdaMod.variables s) x]) /\
                AdaMod.exp_avg_sq s1
                = Some (eas ++ [zero_slot (AdaMod.variables s) x]) /\
                AdaMod.exp_avg_lr s1
                = Some (eal ++ [zero_slot (AdaMod.variables s) x]) /\
                AdaMod.step s1 = AdaMod.step s /\
                AdaMod.variables s1 = AdaMod.variables s /\
                AdaMod.base s1 = AdaMod.base s /\
                AdaMod.manager s1 = AdaMod.manager s).
    { destruct s. cbn in *. subst. repeat split. }
    destruct H as (H1 & H2 & H3 & H4 & H5 & H6 & H7).
    destruct (IH _ _ _ _ H1 H2 H3) as (I1 & I2 & I3 & I4 & I5 & I6 & I7).
    rewrite H5 in *. rewrite I1, I2, I3, <- !app_assoc. cbn.
    repeat split; congruence.
Qed.

(** X3: [build] of AdaMod on an optimizer that is not built yet returns
    normally: three zero slots for each variable, in the order of the
    list, one shared counter 0, and the slot lists live in the manager
    this call has started. *)
Theorem adamod_build_allocates (vl : list var_id) (s : AdaMod.state) :
  Base.built (AdaMod.base s) = false ->
  let s' := snd (AdaMod.build vl s) in
  let zeros := List.map (zero_slot (AdaMod.variables s)) vl in
  fst (AdaMod.build vl s) = Ok tt /\
  Base.built (AdaMod.base s') = true /\
  Base._trainable_variables (AdaMod.base s') = vl /\
  AdaMod.exp_avg s' = Some zeros /\
  AdaMod.exp_avg_sq s' = Some zeros /\
  AdaMod.exp_avg_lr s' = Some zeros /\
  AdaMod.step s' = Some 0%nat /\
  AdaMod.manager s' = Some (AdaMod.managers_started s) /\
  AdaMod.variables s' = AdaMod.variables s /\
  adamod_wf s'.
Proof.
  intros Hb s' zeros. unfold s', zeros.
  destruct s as [b b1 b2 b3 e mg mg' ms oea oeas oeal ost vars].
  cbn in Hb.
  unfold AdaMod.build, AdaMod.Manager, attr, bind, get, modify, ret. cbn.
  rewrite Hb. cbn.
  match goal with
  | |- context [fold_left ?f vl ?s0] =>
      destruct (adamod_build_loop_slots vl s0 [] [] []
                  eq_refl eq_refl eq_refl)
        as (I1 & I2 & I3 & I4 & I5 & I6 & I7)
  end.
  cbn in *. unfold adamod_wf, slots_for.
  rewrite I1, I2, I3, I4, I5, I6, I7. cbn.
  repeat split; try discriminate;
    eexists; (split; [ reflexivity | ]);
    rewrite ?length_map; reflexivity.
Qed.

Lemma adabound_build_allocates_witness :
  AdaBound.exp_avg Example.adabound
  = Some [zero_slot Example.host 0%nat] /\
  AdaBound.step Example.adabound = Some [0%nat].
Proof.
  destruct (adabound_build_allocates [0%nat]
              (Example.adabound_new (1 / 1000)) eq_refl)
    as (_ & _ & H1 & _ & H2 & _).
  split; [ exact H1 | exact H2 ].
Defined.

Lemma adamp_build_allocates_witness :
  AdamP.exp_avg Example.adamp = Some [zero_slot Example.host 0%nat].
Proof.
  exact (proj1 (proj2 (proj2
    (adamp_build_allocates [0%nat]
       (AdamP.__init__ Example.lr (9 / 10) (999 / 1000) (1 / 100000000) 0
                       (1 / 10) (1 / 10) false [] Example.host)
       eq_refl)))).
Defined.

Lemma adamod_build_allocates_witness :
  AdaMod.step Example.adamod = Some 0%nat.
Proof.
  destruct (adamod_build_allocates [0%nat; 1%nat]
              (AdaMod.__init__ Example.lr (9 / 10) (999 / 1000) (999 / 1000)
                               (1 / 100000000) 0 [] Example.host) eq_refl)
    as (_ & _ & _ & _ & _ & _ & H & _).
  exact H.
Defined.

(** ** Calls out of order *)

(** X4: [update_step] on an optimizer fresh from its constructor, before any
    [build]: the slot attributes do not exist yet, the call raises
    [AttributeError] at the first of them and has changed nothing. *)
Theorem update_step_before_build :
  (forall lr0 b1 b2 eps wd fl gm ams cfg host g v lr,
      let s := AdaBound.__init__ lr0 b1 b2 eps wd fl gm ams cfg host in
      AdaBound.update_step (Dense g) v lr s
      = (Raise (AttributeError "exp_avg"), s)) /\
  (forall lr0 b1 b2 eps wd dl wr nest cfg host g v lr,
      let s := AdamP.__init__ lr0 b1 b2 eps wd dl wr nest cfg host in
      AdamP.update_step g v lr s
      = (Raise (AttributeError "exp_avg"), s)) /\
  (forall lr0 b1 b2 b3 eps wd cfg host g v lr,
      let s := AdaMod.__init__ lr0 b1 b2 b3 eps wd cfg host in
      AdaMod.update_step (Dense g) v lr s
      = (Raise (AttributeError "exp_avg"), s)).
Proof.
  repeat split.
Qed.

(** X5: [update_step] for a variable that was not given to [build]: the
    index lookup raises [KeyError] before anything is written. *)
Theorem update_step_unknown_variable :
  (forall g v lr s,
      AdaBound.exp_avg s <> None ->
      ~ In v (Base._trainable_variables (AdaBound.base s)) ->
      AdaBound.update_step (Dense g) v lr s = (Raise KeyError, s)) /\
  (forall g v lr s,
      AdamP.exp_avg s <> None ->
      ~ In v (Base._trainable_variables (AdamP.base s)) ->
      AdamP.update_step g v lr s = (Raise KeyError, s)) /\
  (forall g v lr s,
      AdaMod.exp_avg s <> None ->
      ~ In v (Base._trainable_variables (AdaMod.base s)) ->
      AdaMod.update_step (Dense g) v lr s = (Raise KeyError, s)).
Proof.
  split; [ | split ]; intros g v lr s Hea Hin;
    apply get_variable_index_unlisted in Hin; destruct s; cbn in *.
  - unfold_adabound. cbn. destruct exp_avg; [ | congruence ].
    cbn. rewrite Hin. reflexivity.
  - unfold_adamp. cbn. destruct exp_avg; [ | congruence ].
    cbn. rewrite Hin. reflexivity.
  - unfold_adamod. cbn. destruct exp_avg; [ | congruence ].
    cbn. rewrite Hin. reflexivity.
Qed.

Lemma update_step_unknown_variable_witness :
  AdaBound.update_step (Dense Example.grad) 7%nat Example.lr
                       Example.adabound
  = (Raise KeyError, Example.adabound).
Proof.
  apply (proj1 update_step_unknown_variable).
  - discriminate.
  - cbn. intros [H | []]. discriminate.
Defined.

(** ** The mapping of [get_config] *)

Lemma dict_get_set_other (d : config) (k k' : string) (v : cfg_value) :
  String.eqb k' k = false ->
  dict_get (dict_set d k' v) k = dict_get d k.
Proof.
  intros Hk. induction d as [|[k0 v0] d IH]; simpl.
  - now rewrite Hk.
  - destruct (String.eqb k0 k') eqn:E; simpl.
    + apply String.eqb_eq in E. subst k0. now rewrite Hk.
    + destruct (String.eqb k0 k); auto.
Qed.

Ltac dict_lookup :=
  solve [ unfold dict_update; cbn [fold_left fst snd];
          repeat first
            [ rewrite dict_get_set_same; reflexivity
            | rewrite dict_get_set_other by reflexivity ] ].

(** X6: [get_config] of AdaBound and AdamP raises [AttributeError] as long
    as the step counters do not exist, that is before [build]; once they
    exist it returns the base mapping with the hyperparameters written
    under their names and, under "step", one entry for each counter.
    AdaMod's [get_config] returns in every state.  An entry of the base
    mapping under any other key is kept. *)
Theorem get_config_mapping :
  (forall s,
      match AdaBound.step s with
      | None => AdaBound.get_config s = Raise (AttributeError "step")
      | Some l =>
          exists c,
            AdaBound.get_config s = Ok c /\
            dict_get c "beta1" = Some (CFloat (AdaBound.beta1 s)) /\
            dict_get c "beta2" = Some (CFloat (AdaBound.beta2 s)) /\
            dict_get c "epsilon" = Some (CFloat (AdaBound.epsilon s)) /\
            dict_get c "final_lr" = Some (CFloat (AdaBound.final_lr s)) /\
            dict_get c "gamma" = Some (CFloat (AdaBound.gamma s)) /\
            dict_get c "amsbound" = Some (CBool (AdaBound.amsbound s)) /\
            (exists steps, dict_get c "step" = Some (CList steps) /\
                           List.length steps = List.length l) /\
            forall k,
              ~ In k ["beta1"; "beta2"; "epsilon"; "final_lr"; "gamma";
                      "amsbound"; "step"]%string ->
              dict_get c k = dict_get (Base.base_config (AdaBound.base s)) k
      end) /\
  (forall s,
      match AdamP.step s with
      | None => AdamP.get_config s = Raise (AttributeError "step")
      | Some l =>
          exists c,
            AdamP.get_config s = Ok c /\
            dict_get c "beta1" = Some (CFloat (AdamP.beta1 s)) /\
            dict_get c "beta2" = Some (CFloat (AdamP.beta2 s)) /\
            dict_get c "epsilon" = Some (CFloat (AdamP.epsilon s)) /\
            dict_get c "delta" = Some (CFloat (AdamP.delta s)) /\
            dict_get c "wd_ratio" = Some (CFloat (AdamP.wd_ratio s)) /\
            dict_get c "nesterov" = Some (CBool (AdamP.nesterov s)) /\
            (exists steps, dict_get c "step" = Some (CList steps) /\
                           List.length steps = List.length l) /\
            forall k,
              ~ In k ["beta1"; "beta2"; "epsilon"; "delta"; "wd_ratio";
                      "nesterov"; "step"]%string ->
              dict_get c k = dict_get (Base.base_config (AdamP.base s)) k
      end) /\
  (forall s,
      exists c s',
        AdaMod.get_config s = (Ok c, s') /\
        dict_get c "beta1" = Some (CFloat (AdaMod.beta1 s)) /\
        dict_get c "beta2" = Some (CFloat (AdaMod.beta2 s)) /\
        dict_get c "beta3" = Some (CFloat (AdaMod.beta3 s)) /\
        dict_get c "epsilon" = Some (CFloat (AdaMod.epsilon s)) /\
        (forall k,
            ~ In k ["beta1"; "beta2"; "beta3"; "epsilon"; "step"]%string ->
            dict_get c k = dict_get (Base.base_config (AdaMod.base s)) k) /\
        adamod_same_state s s' /\
        AdaMod.manager_ s' = Some (AdaMod.managers_started s)).
Proof.
  split; [ | split ].
  - intros s. unfold AdaBound.get_config.
    destruct (AdaBound.step s) as [l|]; [ | reflexivity ].
    eexists. split; [ reflexivity | ].
    repeat (split; [ dict_lookup | ]). split.
    + eexists. split; [ dict_lookup | ].
      now rewrite length_map, length_seq.
    + intros k Hk. cbn in Hk. unfold dict_update. cbn [fold_left fst snd].
      rewrite !dict_get_set_other; [ reflexivity | .. ];
        (destruct (String.eqb _ k) eqn:E; [ | reflexivity ];
         apply (proj1 (String.eqb_eq _ _)) in E; tauto).
  - intros s. unfold AdamP.get_config.
    destruct (AdamP.step s) as [l|]; [ | reflexivity ].
    eexists. split; [ reflexivity | ].
    repeat (split; [ dict_lookup | ]). split.
    + eexists. split; [ dict_lookup | ].
      now rewrite length_map, length_seq.
    + intros k Hk. cbn in Hk. unfold dict_update. cbn [fold_left fst snd].
      rewrite !dict_get_set_other; [ reflexivity | .. ];
        (destruct (String.eqb _ k) eqn:E; [ | reflexivity ];
         apply (proj1 (String.eqb_eq _ _)) in E; tauto).
  - intros s.
    unfold AdaMod.get_config, AdaMod.Manager, bind, modify, get, ret.
    eexists _, _. split; [ reflexivity | ].
    cbn [AdaMod.base AdaMod.set_manager_ AdaMod.beta1 AdaMod.beta2
         AdaMod.beta3 AdaMod.epsilon].
    repeat (split; [ dict_lookup | ]). split; [ | split ].
    + intros k Hk. cbn in Hk. unfold dict_update. cbn [fold_left fst snd].
      rewrite !dict_get_set_other; [ reflexivity | .. ];
        (destruct (String.eqb _ k) eqn:E; [ | reflexivity ];
         apply (proj1 (String.eqb_eq _ _)) in E; tauto).
    + unfold adamod_same_state. destruct s. cbn. repeat split.
    + destruct s. reflexivity.
Qed.

Lemma get_config_mapping_witness :
  exists c,
    AdaBound.get_config Example.adabound = Ok c /\
    dict_get c "gamma" = Some (CFloat (1 / 1000)) /\
    dict_get c "name" = None.
Proof.
  pose proof (proj1 get_config_mapping Example.adabound) as H.
  cbn [AdaBound.step Example.adabound] in H.
  change (AdaBound.step Example.adabound) with (Some [0%nat]) in H.
  destruct H as (c & Hc & _ & _ & _ & _ & Hg & _ & _ & Hk).
  exists c. split; [ exact Hc | ]. split; [ exact Hg | ].
  rewrite Hk; [ reflexivity | ].
  cbn. intros H. repeat (destruct H as [H | H]; [ discriminate | ]).
  exact H.
Defined.

(** ** One call of AdaBound's [update_step] with [amsbound] *)

Section AdaBoundAmsCall.

Variables (s : AdaBound.state) (g : tensor) (v : var_id) (lr : R).
Variables (ea eas mxs : list tensor) (st : list nat) (blr : R).
Variables (i : nat) (m vv mx : tensor) (n : nat).

Hypothesis Hams : AdaBound.amsbound s = true.
Hypothesis Hea : AdaBound.exp_avg s = Some ea.
Hypothesis Heas : AdaBound.exp_avg_sq s = Some eas.
Hypothesis Hmxs : AdaBound.max_exp_avg_sq s = Some mxs.
Hypothesis Hst : AdaBound.step s = Some st.
Hypothesis Hblr : AdaBound.base_lr s = Some blr.
Hypothesis Hidx : Base._get_variable_index (AdaBound.base s) v = Ok i.
Hypothesis Hm : nth_error ea i = Some m.
Hypothesis Hv : nth_error eas i = Some vv.
Hypothesis Hmx : nth_error mxs i = Some mx.
Hypothesis Hn : nth_error st i = Some n.
Hypothesis Hp1 :
  py_pow (AdaBound.beta1 s) (n + 1) = Ok (AdaBound.beta1 s ^ (n + 1)).
Hypothesis Hp2 :
  py_pow (AdaBound.beta2 s) (n + 1) = Ok (AdaBound.beta2 s ^ (n + 1)).

(** With [amsbound] the call also raises the slot [max_exp_avg_sq] to
    the new second moment, before the Python-float operations, and
    takes the denominator from it (both powers being in range). *)
Lemma adabound_exec_ams :
  let wd := Base.weight_decay (AdaBound.base s) in
  let g' := if Req_dec_T wd 0 then g
            else tf.add g (tf.scale wd (AdaBound.variables s v)) in
  let m' := tf.add (tf.scale (AdaBound.beta1 s) m)
                   (tf.scale (1 - AdaBound.beta1 s) g') in
  let v' := tf.add (tf.scale (AdaBound.beta2 s) vv)
                   (tf.scale (1 - AdaBound.beta2 s) (tf.square g')) in
  let mx' := tf.maximum mx v' in
  let s2 := AdaBound.set_max_exp_avg_sq (Some (setitem mxs i mx'))
              (AdaBound.set_exp_avg_sq (Some (setitem eas i v'))
                 (AdaBound.set_exp_avg (Some (setitem ea i m'))
                    (AdaBound.set_step (Some (setitem st i (n + 1)%nat))
                       s))) in
  let denom := tf.plus (tf.sqrt mx') (AdaBound.epsilon s) in
  let bc1 := 1 - AdaBound.beta1 s ^ (n + 1) in
  let bc2 := 1 - AdaBound.beta2 s ^ (n + 1) in
  let fl := AdaBound.final_lr s * lr / blr in
  AdaBound.update_step_frame (Dense g) v lr s =
  match math_sqrt bc2 with
  | Raise e => (Raise e, s2)
  | Ok root =>
      match AdaBound.lower_bound fl (AdaBound.gamma s) (n + 1) with
      | Raise e => (Raise e, s2)
      | Ok lo =>
          match AdaBound.upper_bound fl (AdaBound.gamma s) (n + 1) with
          | Raise e => (Raise e, s2)
          | Ok hi =>
              let size :=
                tf.multiply
                  (tf.clip_by_value
                     (tf.divide
                        (tf.fill (shape denom) (t_dtype denom)
                                 (lr * root / bc1)) denom) lo hi) m' in
              (Ok (AdaBound.mkFrame g' denom bc1 bc2 (lr * root / bc1)
                                    fl lo hi size),
               AdaBound.set_variables
                 (AdaBound.update_var (AdaBound.variables s) v
                    (tf.add (AdaBound.variables s v) (tf.neg size))) s2)
          end
      end
  end.
Proof.
  destruct s; cbn in *; subst.
  unfold_adabound. unfold getitem. cbn.
  repeat (rewrite ?Hidx, ?Hm, ?Hv, ?Hn, ?Hmx, ?Hp1, ?Hp2,
            ?(nth_error_setitem_same _ _ _ _ Hn),
            ?(nth_error_setitem_same _ _ _ _ Hm),
            ?(nth_error_setitem_same _ _ _ _ Hmx),
            ?(nth_error_setitem_same _ _ _ _ Hv); cbn).
  destruct (math_sqrt _) as [root|e]; cbn; [ | reflexivity ].
  repeat (rewrite ?Hidx, ?Hn, ?(nth_error_setitem_same _ _ _ _ Hn),
            ?(nth_error_setitem_same _ _ _ _ Hm); cbn).
  destruct (AdaBound.lower_bound _ _ _) as [lo|e]; cbn; [ | reflexivity ].
  repeat (rewrite ?Hidx, ?Hn, ?(nth_error_setitem_same _ _ _ _ Hn),
            ?(nth_error_setitem_same _ _ _ _ Hm); cbn).
  destruct (AdaBound.upper_bound _ _ _) as [hi|e]; cbn; [ | reflexivity ].
  repeat (rewrite ?Hidx, ?Hn, ?(nth_error_setitem_same _ _ _ _ Hn),
            ?(nth_error_setitem_same _ _ _ _ Hm); cbn).
  reflexivity.
Qed.

End AdaBoundAmsCall.

(** ** AdaBound with [amsbound] *)

Lemma get_variable_index_bound b v i :
  Base._get_variable_index b v = Ok i ->
  (i < List.length (Base._trainable_variables b))%nat.
Proof.
  unfold Base._get_variable_index.
  destruct (Base.index_from v _ 0) as [j|] eqn:E; intros H; inversion H.
  subst j. destruct (index_from_bounds _ _ _ _ E). lia.
Qed.

(** X7: With [amsbound], one call of [update_step] on a dense gradient
    returns normally when the operations of the rule are defined (both
    powers within the range of a float, [1 - beta2 ^ step'] not
    negative, [1 - beta1 ^ step'], [base_lr], [gamma * step' + 1] and
    [gamma * step'] not 0, and in every element the new maximum not
    negative and the denominator not 0).  It raises the slot
    [max_exp_avg_sq] of the parameter to the elementwise maximum of its
    old value and the new second moment, so that it never decreases and
    dominates the second moment, and steps the parameter by the rule
    with the denominator [sqrt max_exp_avg_sq' + epsilon]. *)
Theorem adabound_amsbound_rule
    (s : AdaBound.state) (g : tensor) (v : var_id) (lr : R)
    (ea eas mxs : list tensor) (st : list nat) (blr : R)
    (i : nat) (m vv mx : tensor) (n : nat) :
  AdaBound.amsbound s = true ->
  AdaBound.exp_avg s = Some ea ->
  AdaBound.exp_avg_sq s = Some eas ->
  AdaBound.max_exp_avg_sq s = Some mxs ->
  AdaBound.step s = Some st ->
  AdaBound.base_lr s = Some blr ->
  Base._get_variable_index (AdaBound.base s) v = Ok i ->
  nth_error ea i = Some m ->
  nth_error eas i = Some vv ->
  nth_error mxs i = Some mx ->
  nth_error st i = Some n ->
  representable (AdaBound.beta1 s ^ (n + 1)) ->
  representable (AdaBound.beta2 s ^ (n + 1)) ->
  0 <= 1 - AdaBound.beta2 s ^ (n + 1) ->
  1 - AdaBound.beta1 s ^ (n + 1) <> 0 ->
  blr <> 0 ->
  AdaBound.gamma s * INR (n + 1) + 1 <> 0 ->
  AdaBound.gamma s * INR (n + 1) <> 0 ->
  (forall k,
      let wd := Base.weight_decay (AdaBound.base s) in
      let p := data (AdaBound.variables s v) k in
      let mx' := Rmax (data mx k)
                      (Rule.exp_avg_sq' (AdaBound.beta2 s) wd (data g k) p
                                        (data vv k)) in
      0 <= mx' /\ sqrt mx' + AdaBound.epsilon s <> 0) ->
  exists s' v' mx',
    AdaBound.update_step (Dense g) v lr s = (Ok tt, s') /\
    AdaBound.step s' = Some (setitem st i (n + 1)%nat) /\
    AdaBound.exp_avg_sq s' = Some (setitem eas i v') /\
    AdaBound.max_exp_avg_sq s' = Some (setitem mxs i mx') /\
    forall k,
      let wd := Base.weight_decay (AdaBound.base s) in
      let p := data (AdaBound.variables s v) k in
      let b1 := AdaBound.beta1 s in
      let b2 := AdaBound.beta2 s in
      let fl := AdaBound.final_lr s in
      let gm := AdaBound.gamma s in
      data v' k = Rule.exp_avg_sq' b2 wd (data g k) p (data vv k) /\
      data mx' k = Rmax (data mx k) (data v' k) /\
      data mx k <= data mx' k /\
      data v' k <= data mx' k /\
      data (AdaBound.variables s' v) k
      = p - Rule.clip (Rule.step_size_scalar b1 b2 lr (n + 1)
                       / (sqrt (data mx' k) + AdaBound.epsilon s))
                      (Rule.lower fl gm blr lr (n + 1))
                      (Rule.upper fl gm blr lr (n + 1))
            * Rule.exp_avg' b1 wd (data g k) p (data m k).
Proof.
  intros Hams Hea Heas Hmxs Hst Hblr Hidx Hm Hv Hmx Hn Hr1 Hr2 Hbc
         _ _ Hg1 Hg2 _.
  pose proof (adabound_exec_ams s g v lr ea eas mxs st blr i m vv mx n
                Hams Hea Heas Hmxs Hst Hblr Hidx Hm Hv Hmx Hn
                (py_pow_in_range _ _ Hr1) (py_pow_in_range _ _ Hr2))
    as Hexec.
  cbv zeta in Hexec.
  rewrite (math_sqrt_ok _ Hbc) in Hexec.
  unfold AdaBound.lower_bound, AdaBound.upper_bound in Hexec.
  rewrite (py_div_ok _ _ Hg1), (py_div_ok _ _ Hg2) in Hexec.
  unfold AdaBound.update_step, bind. rewrite Hexec.
  eexists _, _, _. split; [ reflexivity | ].
  split; [ reflexivity | ]. split; [ reflexivity | ].
  split; [ reflexivity | ].
  intros k. cbn. rewrite update_var_same.
  unfold Rule.exp_avg', Rule.exp_avg_sq', Rule.clip, Rule.step_size_scalar,
    Rule.lower, Rule.upper, Rule.final_lr_eff, Rule.g'.
  destruct (Req_dec_T (Base.weight_decay (AdaBound.base s)) 0) as [E|E];
    cbn; rewrite ?Rmult_1_r;
    (split; [ ring | ]); (split; [ reflexivity | ]);
    (split; [ apply Rmax_l | ]); (split; [ apply Rmax_r | ]); ring.
Qed.

Lemma adabound_amsbound_rule_witness :
  let s := AdaBound.build [0%nat]
             (AdaBound.__init__ Example.lr (9 / 10) (999 / 1000)
                (1 / 100000000) 0 (1 / 10) (1 / 1000) true []
                Example.host) in
  exists s',
    AdaBound.update_step (Dense Example.grad) 0%nat Example.lr s
    = (Ok tt, s') /\
    AdaBound.step s' = Some [1%nat].
Proof.
  cbv zeta.
  destruct (adabound_amsbound_rule
              (AdaBound.build [0%nat]
                 (AdaBound.__init__ Example.lr (9 / 10) (999 / 1000)
                    (1 / 100000000) 0 (1 / 10) (1 / 1000) true []
                    Example.host))
              Example.grad 0%nat Example.lr
              [zero_slot Example.host 0%nat] [zero_slot Example.host 0%nat]
              [zero_slot Example.host 0%nat] [0%nat] Example.lr 0%nat
              (zero_slot Example.host 0%nat) (zero_slot Example.host 0%nat)
              (zero_slot Example.host 0%nat) 0%nat)
    as (s' & v' & mx' & H1 & H2 & _); try reflexivity.
  - apply representable_pow. cbn. rewrite Rabs_pos_eq; lra.
  - apply representable_pow. cbn. rewrite Rabs_pos_eq; lra.
  - cbn. lra.
  - cbn. lra.
  - cbn. unfold Example.lr. lra.
  - cbn. apply Rgt_not_eq. lra.
  - cbn. apply Rgt_not_eq. lra.
  - intros k. cbn. split.
    + apply Rmax_l.
    + apply root_plus_eps_nonzero. lra.
  - exists s'. split; assumption.
Defined.

(** ** A call on a built AdaBound optimizer, with or without [amsbound] *)

Lemma slots_for_setitem {A} n (l : list A) i a :
  List.length l = n -> slots_for n (Some (setitem l i a)).
Proof.
  intros H. exists (setitem l i a). split; [ reflexivity | ].
  now rewrite length_setitem.
Qed.

Lemma adabound_call s g v lr i st n :
  adabound_wf s ->
  Base._get_variable_index (AdaBound.base s) v = Ok i ->
  AdaBound.step s = Some st ->
  nth_error st i = Some n ->
  py_pow (AdaBound.beta1 s) (n + 1) = Ok (AdaBound.beta1 s ^ (n + 1)) ->
  py_pow (AdaBound.beta2 s) (n + 1) = Ok (AdaBound.beta2 s ^ (n + 1)) ->
  exists ea blr m t s2,
    let wd := Base.weight_decay (AdaBound.base s) in
    let g' := if Req_dec_T wd 0 then g
              else tf.add g (tf.scale wd (AdaBound.variables s v)) in
    let m' := tf.add (tf.scale (AdaBound.beta1 s) m)
                     (tf.scale (1 - AdaBound.beta1 s) g') in
    let denom := tf.plus (tf.sqrt t) (AdaBound.epsilon s) in
    let bc1 := 1 - AdaBound.beta1 s ^ (n + 1) in
    let bc2 := 1 - AdaBound.beta2 s ^ (n + 1) in
    let fl := AdaBound.final_lr s * lr / blr in
    AdaBound.exp_avg s = Some ea /\ nth_error ea i = Some m /\
    AdaBound.step s = Some st /\ nth_error st i = Some n /\
    AdaBound.base_lr s = Some blr /\
    AdaBound.step s2 = Some (setitem st i (n + 1)%nat) /\
    AdaBound.exp_avg s2 = Some (setitem ea i m') /\
    AdaBound.variables s2 = AdaBound.variables s /\
    AdaBound.base s2 = AdaBound.base s /\
    AdaBound.beta1 s2 = AdaBound.beta1 s /\
    AdaBound.beta2 s2 = AdaBound.beta2 s /\
    AdaBound.gamma s2 = AdaBound.gamma s /\
    AdaBound.final_lr s2 = AdaBound.final_lr s /\
    AdaBound.base_lr s2 = AdaBound.base_lr s /\
    adabound_wf s2 /\
    AdaBound.update_step_frame (Dense g) v lr s =
    match math_sqrt bc2 with
    | Raise e => (Raise e, s2)
    | Ok root =>
        match AdaBound.lower_bound fl (AdaBound.gamma s) (n + 1) with
        | Raise e => (Raise e, s2)
        | Ok lo =>
            match AdaBound.upper_bound fl (AdaBound.gamma s) (n + 1) with
            | Raise e => (Raise e, s2)
            | Ok hi =>
                let size :=
                  tf.multiply
                    (tf.clip_by_value
                       (tf.divide
                          (tf.fill (shape denom) (t_dtype denom)
                                   (lr * root / bc1)) denom) lo hi) m' in
                (Ok (AdaBound.mkFrame g' denom bc1 bc2 (lr * root / bc1)
                                      fl lo hi size),
                 AdaBound.set_variables
                   (AdaBound.update_var (AdaBound.variables s) v
                      (tf.add (AdaBound.variables s v) (tf.neg size))) s2)
            end
        end
    end.
Proof.
  intros Hwf Hidx Est En Hp1 Hp2.
  pose proof (get_variable_index_bound _ _ _ Hidx) as Hi.
  destruct Hwf as (Hea & Heas & Hst & Hblr & Hmx).
  destruct (slots_for_nth _ _ _ Hea Hi) as (ea & m & Eea & Em).
  destruct (slots_for_nth _ _ _ Heas Hi) as (eas & vv & Eeas & Ev).
  destruct (AdaBound.base_lr s) as [blr|] eqn:Eblr; [ | congruence ].
  assert (Lea : List.length ea
                = List.length (Base._trainable_variables (AdaBound.base s))).
  { destruct Hea as (l & E & L). congruence. }
  assert (Leas : List.length eas
                 = List.length (Base._trainable_variables (AdaBound.base s))).
  { destruct Heas as (l & E & L). congruence. }
  assert (Lst : List.length st
                = List.length (Base._trainable_variables (AdaBound.base s))).
  { destruct Hst as (l & E & L). congruence. }
  destruct (AdaBound.amsbound s) eqn:Eams.
  - destruct (slots_for_nth _ _ _ (Hmx eq_refl) Hi) as (mxs & mx & Emxs & Emx).
    assert (Lmx : List.length mxs
                  = List.length
                      (Base._trainable_variables (AdaBound.base s))).
    { destruct (Hmx eq_refl) as (l & E & L). congruence. }
    pose proof (adabound_exec_ams s g v lr ea eas mxs st blr i m vv mx n
                  Eams Eea Eeas Emxs Est Eblr Hidx Em Ev Emx En Hp1 Hp2)
      as Hexec.
    cbv zeta in Hexec.
    eexists ea, blr, m, _, _. cbv zeta.
    do 15 (split; [ shelve | ]). exact Hexec.
    Unshelve.
    all: try first [ eassumption | reflexivity ].
    unfold adabound_wf. cbn.
    repeat split; try (apply slots_for_setitem; assumption).
    + congruence.
    + intros _. apply slots_for_setitem; assumption.
  - pose proof (adabound_exec s g v lr ea eas st blr i m vv n
                  Eams Eea Eeas Est Eblr Hidx Em Ev En Hp1 Hp2) as Hexec.
    cbv zeta in Hexec.
    eexists ea, blr, m, _, _. cbv zeta.
    do 15 (split; [ shelve | ]). exact Hexec.
    Unshelve.
    all: try first [ eassumption | reflexivity ].
    unfold adabound_wf. cbn.
    repeat split; try (apply slots_for_setitem; assumption).
    + congruence.
    + intros E. congruence.
Qed.

Lemma pow_le_1 (x : R) (n : nat) : 0 <= x <= 1 -> x ^ n <= 1.
Proof.
  intros H. rewrite <- (pow1 n). apply pow_incr. exact H.
Qed.

Lemma INR_succ_pos (n : nat) : 1 <= INR (n + 1).
Proof.
  rewrite plus_INR. cbn. pose proof (pos_INR n). lra.
Qed.

(** X8: A call that fails at a Python-float operation of the step size or
    of the bounds ([math.sqrt] of a negative second bias correction, a
    quotient of the bounds with divisor 0), both powers being within the
    range of a float, fails after the counter of the parameter was
    incremented and its first moment overwritten, and before the
    parameter is touched: the failure is not atomic. *)
Theorem adabound_failure_not_atomic
    (s : AdaBound.state) (g : tensor) (v : var_id) (lr : R)
    (i : nat) (st : list nat) (n : nat) :
  adabound_wf s ->
  Base._get_variable_index (AdaBound.base s) v = Ok i ->
  AdaBound.step s = Some st ->
  nth_error st i = Some n ->
  representable (AdaBound.beta1 s ^ (n + 1)) ->
  representable (AdaBound.beta2 s ^ (n + 1)) ->
  1 - AdaBound.beta2 s ^ (n + 1) < 0 \/
  AdaBound.gamma s * INR (n + 1) + 1 = 0 \/
  AdaBound.gamma s * INR (n + 1) = 0 ->
  exists e s' ea m m',
    AdaBound.update_step (Dense g) v lr s = (Raise e, s') /\
    (e = ValueError \/ e = ZeroDivisionError) /\
    AdaBound.step s' = Some (setitem st i (n + 1)%nat) /\
    AdaBound.exp_avg s = Some ea /\
    nth_error ea i = Some m /\
    AdaBound.exp_avg s' = Some (setitem ea i m') /\
    (forall k,
        data m' k
        = Rule.exp_avg' (AdaBound.beta1 s)
            (Base.weight_decay (AdaBound.base s)) (data g k)
            (data (AdaBound.variables s v) k) (data m k)) /\
    AdaBound.variables s' = AdaBound.variables s.
Proof.
  intros Hwf Hidx Hst Hn Hr1 Hr2 Hfail.
  destruct (adabound_call s g v lr i st n Hwf Hidx Hst Hn
              (py_pow_in_range _ _ Hr1) (py_pow_in_range _ _ Hr2))
    as (ea & blr & m & t & s2 & Hcall).
  cbv zeta in Hcall.
  destruct Hcall as (Eea & Em & _ & _ & Eblr & S1 & S2 & S3 & _ & _ & _ & _
                     & _ & _ & _ & Hexec).
  assert (Hm' : forall k,
             data (tf.add (tf.scale (AdaBound.beta1 s) m)
                     (tf.scale (1 - AdaBound.beta1 s)
                        (if Req_dec_T (Base.weight_decay (AdaBound.base s)) 0
                         then g
                         else tf.add g
                                (tf.scale
                                   (Base.weight_decay (AdaBound.base s))
                                   (AdaBound.variables s v))))) k
             = Rule.exp_avg' (AdaBound.beta1 s)
                 (Base.weight_decay (AdaBound.base s)) (data g k)
                 (data (AdaBound.variables s v) k) (data m k)).
  { intros k. unfold Rule.exp_avg', Rule.g'.
    destruct (Req_dec_T (Base.weight_decay (AdaBound.base s)) 0);
      reflexivity. }
  assert (Hres : exists e,
             fst (AdaBound.update_step_frame (Dense g) v lr s) = Raise e /\
             snd (AdaBound.update_step_frame (Dense g) v lr s) = s2 /\
             (e = ValueError \/ e = ZeroDivisionError)).
  { rewrite Hexec. unfold math_sqrt.
    destruct (Rlt_dec (1 - AdaBound.beta2 s ^ (n + 1)) 0) as [Hlt|Hge].
    { exists ValueError. auto. }
    unfold AdaBound.lower_bound, AdaBound.upper_bound, py_div.
    destruct (Req_dec_T (AdaBound.gamma s * INR (n + 1) + 1) 0) as [E1|N1].
    { exists ZeroDivisionError. auto. }
    destruct (Req_dec_T (AdaBound.gamma s * INR (n + 1)) 0) as [E2|N2].
    { exists ZeroDivisionError. auto. }
    exfalso. destruct Hfail as [H | [H | H]]; auto. }
  destruct Hres as (e & Hf & Hs & He).
  exists e, s2, ea, m. eexists.
  split.
  { unfold AdaBound.update_step, bind.
    destruct (AdaBound.update_step_frame (Dense g) v lr s) as [r s'].
    cbn in Hf, Hs. subst r s'. reflexivity. }
  split; [ exact He | ]. split; [ exact S1 | ].
  split; [ exact Eea | ]. split; [ exact Em | ].
  split; [ exact S2 | ]. split; [ exact Hm' | exact S3 ].
Qed.

Lemma adabound_failure_not_atomic_witness :
  exists e s',
    AdaBound.update_step (Dense Example.grad) 0%nat Example.lr
                         Example.adabound_gamma0 = (Raise e, s') /\
    AdaBound.step s' = Some [1%nat] /\
    AdaBound.variables s' = AdaBound.variables Example.adabound_gamma0.
Proof.
  assert (Hwf : adabound_wf Example.adabound_gamma0).
  { unfold adabound_wf, slots_for. cbn.
    repeat split; try (eexists; split; reflexivity); try discriminate. }
  assert (Hf : 1 - AdaBound.beta2 Example.adabound_gamma0 ^ (0 + 1) < 0 \/
               AdaBound.gamma Example.adabound_gamma0 * INR (0 + 1) + 1 = 0 \/
               AdaBound.gamma Example.adabound_gamma0 * INR (0 + 1) = 0).
  { right. right. cbn. ring. }
  assert (Hr1 : representable
                  (AdaBound.beta1 Example.adabound_gamma0 ^ (0 + 1))).
  { apply representable_pow. cbn. rewrite Rabs_pos_eq; lra. }
  assert (Hr2 : representable
                  (AdaBound.beta2 Example.adabound_gamma0 ^ (0 + 1))).
  { apply representable_pow. cbn. rewrite Rabs_pos_eq; lra. }
  destruct (adabound_failure_not_atomic
              Example.adabound_gamma0 Example.grad 0%nat Example.lr
              0%nat [0%nat] 0%nat Hwf eq_refl eq_refl eq_refl Hr1 Hr2 Hf)
    as (e & s' & ea & m & m' & H1 & _ & H2 & _ & _ & _ & _ & H3).
  exists e, s'. split; [ exact H1 | ]. split; [ exact H2 | exact H3 ].
Defined.

(** ** AdaBound never raises under the usual hyperparameters *)

(** X9: With [beta1] and [beta2] between 0 and 1 and a positive [gamma],
    every call of [update_step] on a built optimizer, for a dense
    gradient and a variable given to [build], returns normally, and so
    does any training iteration made of such calls: the slots stay in
    step with the variables. *)
Theorem adabound_training_never_raises
    (gvs : list (gradient * var_id)) (lr : R) :
  forall s,
    adabound_wf s ->
    0 <= AdaBound.beta1 s <= 1 ->
    0 <= AdaBound.beta2 s <= 1 ->
    0 < AdaBound.gamma s ->
    Forall (fun gv => is_sparse (fst gv) = false /\
                      In (snd gv)
                         (Base._trainable_variables (AdaBound.base s))) gvs ->
    exists s',
      training_iteration AdaBound.update_step gvs lr s = (Ok tt, s') /\
      adabound_wf s' /\
      AdaBound.base s' = AdaBound.base s.
Proof.
  induction gvs as [|[g v] gvs IH]; intros s Hwf Hb1 Hb Hg Hall.
  - exists s. split; [ reflexivity | ]. split; [ assumption | reflexivity ].
  - inversion Hall as [|x l [Hdense Hin] Hrest]; subst. cbn in Hdense, Hin.
    destruct g as [g|]; [ | discriminate ].
    destruct (get_variable_index_listed _ _ Hin) as (i & Hidx & Hi).
    destruct (slots_for_nth _ _ _ (proj1 (proj2 (proj2 Hwf))) Hi)
      as (st & n & Est & En).
    destruct (adabound_call s g v lr i st n Hwf Hidx Est En
                (py_pow_ok _ _ Hb1) (py_pow_ok _ _ Hb))
      as (ea & blr & m & t & s2 & Hcall).
    cbv zeta in Hcall.
    destruct Hcall as (_ & _ & _ & _ & _ & _ & _ & _ & S4 & S4' & S5 & S6
                       & _ & _ & Hwf2 & Hexec).
    rewrite math_sqrt_ok in Hexec
      by (pose proof (pow_le_1 _ (n + 1) Hb); lra).
    pose proof (INR_succ_pos n) as Hn1.
    assert (Hgn : 0 < AdaBound.gamma s * INR (n + 1))
      by (apply Rmult_lt_0_compat; lra).
    unfold AdaBound.lower_bound, AdaBound.upper_bound in Hexec.
    rewrite !py_div_ok in Hexec by lra.
    match type of Hexec with
    | _ = (_, ?S3) =>
        destruct (IH S3) as (s' & Hit & Hwf' & Hbase')
    end.
    + exact Hwf2.
    + cbn. rewrite S4'. exact Hb1.
    + cbn. rewrite S5. exact Hb.
    + cbn. rewrite S6. exact Hg.
    + cbn. rewrite S4. exact Hrest.
    + exists s'. split; [ | split; [ exact Hwf' | ] ].
      * cbn [training_iteration]. unfold bind at 1.
        unfold AdaBound.update_step, bind at 1. rewrite Hexec.
        cbn [ret]. exact Hit.
      * rewrite Hbase'. cbn. exact S4.
Qed.

Lemma example_adabound_wf : adabound_wf Example.adabound.
Proof.
  unfold adabound_wf, slots_for. cbn.
  repeat split; try (eexists; split; reflexivity); discriminate.
Qed.

Lemma adabound_training_never_raises_witness :
  exists s',
    training_iteration AdaBound.update_step
      [(Dense Example.grad, 0%nat); (Dense Example.grad, 0%nat)]
      Example.lr Example.adabound = (Ok tt, s').
Proof.
  assert (Hb1 : 0 <= AdaBound.beta1 Example.adabound <= 1) by (cbn; lra).
  assert (Hb : 0 <= AdaBound.beta2 Example.adabound <= 1) by (cbn; lra).
  assert (Hg : 0 < AdaBound.gamma Example.adabound) by (cbn; lra).
  assert (Hall : Forall
            (fun gv => is_sparse (fst gv) = false /\
                       In (snd gv)
                          (Base._trainable_variables
                             (AdaBound.base Example.adabound)))
            [(Dense Example.grad, 0%nat); (Dense Example.grad, 0%nat)]).
  { repeat constructor. }
  destruct (adabound_training_never_raises _ Example.lr Example.adabound
              example_adabound_wf Hb1 Hb Hg Hall) as (s' & H & _).
  exists s'. exact H.
Defined.

(** ** The step of AdaBound stays between the bounds *)

Lemma clip_scalar_within (lo hi x : R) :
  lo <= hi -> lo <= tf.clip_scalar lo hi x <= hi.
Proof.
  intros H. unfold tf.clip_scalar. split.
  - apply Rmax_r.
  - apply Rmax_lub; [ apply Rmin_r | exact H ].
Qed.

Lemma adabound_bounds_ordered (fe gamma : R) (n : nat) :
  0 < fe -> 0 < gamma ->
  exists lo hi,
    AdaBound.lower_bound fe gamma (n + 1) = Ok lo /\
    AdaBound.upper_bound fe gamma (n + 1) = Ok hi /\
    0 <= lo /\ lo <= fe /\ fe <= hi /\
    hi - lo <= 2 * fe / (gamma * INR (n + 1)).
Proof.
  intros Hfe Hg.
  pose proof (INR_succ_pos n) as Hn1.
  assert (Hgn : 0 < gamma * INR (n + 1)) by (apply Rmult_lt_0_compat; lra).
  unfold AdaBound.lower_bound, AdaBound.upper_bound.
  rewrite !py_div_ok by lra.
  eexists _, _. split; [ reflexivity | ]. split; [ reflexivity | ].
  assert (Hp1 : 0 < / (gamma * INR (n + 1) + 1))
    by (apply Rinv_0_lt_compat; lra).
  assert (Hp2 : 0 < / (gamma * INR (n + 1)))
    by (apply Rinv_0_lt_compat; lra).
  assert (Hle1 : / (gamma * INR (n + 1) + 1) <= 1).
  { apply Rle_trans with (/ 1); [ | rewrite Rinv_1; lra ].
    apply Rinv_le_contravar; lra. }
  assert (Hle2 : / (gamma * INR (n + 1) + 1) <= / (gamma * INR (n + 1)))
    by (apply Rinv_le_contravar; lra).
  unfold Rdiv. rewrite !Rmult_1_l.
  repeat split; nra.
Qed.

(** X10: With positive [lr], [gamma], [final_lr], [base_lr] and
    [epsilon], [0 <= beta1 < 1], [beta2] between 0 and 1 and second
    moments that are not negative, a call of [update_step] on a built
    optimizer moves each element of the parameter by the new first
    moment times a factor that lies between the lower and the upper
    bound of the incremented step; the bounds themselves are ordered
    [0 <= lower <= final_lr * lr / base_lr <= upper] and at most
    [2 * final_lr_eff / (gamma * step)] apart. *)
Theorem adabound_step_within_bounds
    (s : AdaBound.state) (g : tensor) (v : var_id) (lr : R)
    (i : nat) (st : list nat) (n : nat) (blr : R) :
  adabound_wf s ->
  Base._get_variable_index (AdaBound.base s) v = Ok i ->
  AdaBound.step s = Some st ->
  nth_error st i = Some n ->
  AdaBound.base_lr s = Some blr ->
  0 < lr -> 0 < blr ->
  0 < AdaBound.final_lr s -> 0 < AdaBound.gamma s ->
  0 < AdaBound.epsilon s ->
  0 <= AdaBound.beta1 s < 1 ->
  0 <= AdaBound.beta2 s <= 1 ->
  nonneg_slots (AdaBound.exp_avg_sq s) ->
  nonneg_slots (AdaBound.max_exp_avg_sq s) ->
  let fe := AdaBound.final_lr s * lr / blr in
  exists s' lo hi factor ea m',
    AdaBound.update_step (Dense g) v lr s = (Ok tt, s') /\
    AdaBound.lower_bound fe (AdaBound.gamma s) (n + 1) = Ok lo /\
    AdaBound.upper_bound fe (AdaBound.gamma s) (n + 1) = Ok hi /\
    0 <= lo /\ lo <= fe /\ fe <= hi /\
    hi - lo <= 2 * fe / (AdaBound.gamma s * INR (n + 1)) /\
    AdaBound.exp_avg s' = Some ea /\
    nth_error ea i = Some m' /\
    forall k,
      lo <= data factor k <= hi /\
      data (AdaBound.variables s' v) k
      = data (AdaBound.variables s v) k - data factor k * data m' k.
Proof.
  intros Hwf Hidx Hst Hn Hblr Hlr Hb Hf Hg _ Hb1 Hb2 _ _ fe.
  assert (Hb1' : 0 <= AdaBound.beta1 s <= 1) by lra.
  destruct (adabound_call s g v lr i st n Hwf Hidx Hst Hn
              (py_pow_ok _ _ Hb1') (py_pow_ok _ _ Hb2))
    as (ea & blr0 & m & t & s2 & Hcall).
  cbv zeta in Hcall.
  destruct Hcall as (Eea & Em & _ & _ & Eblr & S1 & S2 & S3 & _ & _ & _ & _
                     & _ & _ & _ & Hexec).
  rewrite Hblr in Eblr. inversion Eblr; subst blr0.
  assert (Hfe : 0 < fe).
  { unfold fe. apply Rdiv_lt_0_compat; [ apply Rmult_lt_0_compat | ]; lra. }
  destruct (adabound_bounds_ordered fe (AdaBound.gamma s) n Hfe Hg)
    as (lo & hi & Hlo & Hhi & H0 & H1 & H2 & H3).
  fold fe in Hexec. rewrite Hlo, Hhi in Hexec.
  rewrite math_sqrt_ok in Hexec
    by (pose proof (pow_le_1 _ (n + 1) Hb2); lra).
  unfold AdaBound.update_step, bind. rewrite Hexec.
  match type of Hexec with
  | context [tf.multiply ?c _] => eexists _, lo, hi, c, _, _
  end.
  split; [ reflexivity | ].
  do 6 (split; [ assumption | ]).
  split; [ cbn; exact S2 | ].
  split.
  { eapply nth_error_setitem_same. exact Em. }
  intros k. cbn. rewrite update_var_same. cbn. split.
  - apply clip_scalar_within. lra.
  - ring.
Qed.

Lemma adabound_step_within_bounds_witness :
  exists s' lo hi,
    AdaBound.update_step (Dense Example.grad) 0%nat Example.lr
                         Example.adabound = (Ok tt, s') /\
    0 <= lo /\ lo <= hi.
Proof.
  destruct (adabound_step_within_bounds
              Example.adabound Example.grad 0%nat Example.lr
              0%nat [0%nat] 0%nat Example.lr
              example_adabound_wf eq_refl eq_refl eq_refl eq_refl)
    as (s' & lo & hi & factor & ea & m' & H1 & _ & _ & H2 & H3 & H4 & _);
    try (cbn; lra); try (unfold Example.lr; lra);
    try apply example_adabound_slots_nonneg.
  exists s', lo, hi. split; [ exact H1 | ]. split; [ exact H2 | lra ].
Defined.

(** ** The rule of AdaMod *)

(** X11: One call of AdaMod's [update_step] on a dense gradient, the slots
    of the variable in place, both powers within the range of a float
    and the step sizes defined (the first bias correction not 0, the
    second not negative, and in every element the new second moment not
    negative and the denominator not 0), returns normally.  It adds one
    to the shared counter and leaves the three lists of slots as they
    were stored: the moments and the cap are updated in copies only.
    From the stored values and the gradient as it is (weight decay is
    not folded into it) it computes the new first moment, second moment
    and cap; the parameter is first decayed by [weight_decay * lr * p]
    when [weight_decay] is not 0, then moved by the capped step size
    times the new first moment.  The other variables are as they
    were. *)
Theorem adamod_update_step_rule
    (s : AdaMod.state) (g : tensor) (v : var_id) (lr : R)
    (ea eas eal : list tensor) (n i : nat) (m vv c : tensor) :
  AdaMod.exp_avg s = Some ea ->
  AdaMod.exp_avg_sq s = Some eas ->
  AdaMod.exp_avg_lr s = Some eal ->
  AdaMod.step s = Some n ->
  Base._get_variable_index (AdaMod.base s) v = Ok i ->
  nth_error ea i = Some m ->
  nth_error eas i = Some vv ->
  nth_error eal i = Some c ->
  representable (AdaMod.beta1 s ^ (n + 1)) ->
  representable (AdaMod.beta2 s ^ (n + 1)) ->
  1 - AdaMod.beta1 s ^ (n + 1) <> 0 ->
  0 <= 1 - AdaMod.beta2 s ^ (n + 1) ->
  (forall k,
      let v' := AdaMod.beta2 s * data vv k
                + (1 - AdaMod.beta2 s) * (data g k * data g k) in
      0 <= v' /\ sqrt v' + AdaMod.epsilon s <> 0) ->
  exists s' m' v' c',
    AdaMod.update_step (Dense g) v lr s = (Ok tt, s') /\
    AdaMod.step s' = Some (n + 1)%nat /\
    AdaMod.exp_avg s' = Some ea /\
    AdaMod.exp_avg_sq s' = Some eas /\
    AdaMod.exp_avg_lr s' = Some eal /\
    (forall w, w <> v -> AdaMod.variables s' w = AdaMod.variables s w) /\
    forall k,
      let b1 := AdaMod.beta1 s in
      let b2 := AdaMod.beta2 s in
      let b3 := AdaMod.beta3 s in
      let wd := Base.weight_decay (AdaMod.base s) in
      let p := data (AdaMod.variables s v) k in
      let raw := lr * sqrt (1 - b2 ^ (n + 1)) / (1 - b1 ^ (n + 1))
                 / (sqrt (data v' k) + AdaMod.epsilon s) in
      data m' k = b1 * data m k + (1 - b1) * data g k /\
      data v' k = b2 * data vv k + (1 - b2) * (data g k * data g k) /\
      data c' k = b3 * data c k + (1 - b3) * raw /\
      data (AdaMod.variables s' v) k
      = (if Req_dec_T wd 0 then p else p - wd * lr * p)
        - Rmin raw (data c' k) * data m' k.
Proof.
  intros Hea Heas Heal Hst Hidx Hm Hv Hc Hr1 Hr2 _ _ _.
  pose proof (adamod_exec s g v lr ea eas eal n i m vv c
                Hea Heas Heal Hst Hidx Hm Hv Hc
                (py_pow_in_range _ _ Hr1) (py_pow_in_range _ _ Hr2))
    as Hexec.
  cbv zeta in Hexec.
  unfold AdaMod.update_step, bind. rewrite Hexec.
  eexists _,
    (tf.add (tf.scale (AdaMod.beta1 s) m)
            (tf.scale (1 - AdaMod.beta1 s) g)),
    (tf.add (tf.scale (AdaMod.beta2 s) vv)
            (tf.scale (1 - AdaMod.beta2 s) (tf.square g))),
    (tf.add (tf.scale (AdaMod.beta3 s) c)
            (tf.scale (1 - AdaMod.beta3 s)
               (tf.divide
                  (tf.fill
                     (shape
                        (tf.plus
                           (tf.sqrt
                              (tf.add (tf.scale (AdaMod.beta2 s) vv)
                                 (tf.scale (1 - AdaMod.beta2 s)
                                    (tf.square g))))
                           (AdaMod.epsilon s)))
                     (t_dtype
                        (tf.plus
                           (tf.sqrt
                              (tf.add (tf.scale (AdaMod.beta2 s) vv)
                                 (tf.scale (1 - AdaMod.beta2 s)
                                    (tf.square g))))
                           (AdaMod.epsilon s)))
                     (lr * sqrt (1 - AdaMod.beta2 s ^ (n + 1))
                      / (1 - AdaMod.beta1 s ^ (n + 1))))
                  (tf.plus
                     (tf.sqrt
                        (tf.add (tf.scale (AdaMod.beta2 s) vv)
                           (tf.scale (1 - AdaMod.beta2 s) (tf.square g))))
                     (AdaMod.epsilon s))))).
  split; [ reflexivity | ].
  split; [ reflexivity | ].
  split; [ cbn; exact Hea | ]. split; [ cbn; exact Heas | ].
  split; [ cbn; exact Heal | ]. split.
  - intros w Hw. cbn. rewrite update_var_other by assumption.
    destruct (Req_dec_T (Base.weight_decay (AdaMod.base s)) 0);
      [ reflexivity | now rewrite update_var_other ].
  - intros k. cbn. rewrite update_var_same.
    destruct (Req_dec_T (Base.weight_decay (AdaMod.base s)) 0); cbn;
      rewrite ?update_var_same; cbn; repeat split; ring.
Qed.

Lemma adamod_update_step_rule_witness :
  exists s',
    AdaMod.update_step (Dense Example.grad) 1%nat Example.lr Example.adamod
    = (Ok tt, s') /\
    AdaMod.step s' = Some 1%nat /\
    AdaMod.exp_avg s' = AdaMod.exp_avg Example.adamod.
Proof.
  destruct (adamod_update_step_rule
              Example.adamod Example.grad 1%nat Example.lr
              [zero_slot Example.host 0%nat; zero_slot Example.host 1%nat]
              [zero_slot Example.host 0%nat; zero_slot Example.host 1%nat]
              [zero_slot Example.host 0%nat; zero_slot Example.host 1%nat]
              0%nat 1%nat
              (zero_slot Example.host 1%nat) (zero_slot Example.host 1%nat)
              (zero_slot Example.host 1%nat)
              eq_refl eq_refl eq_refl eq_refl eq_refl eq_refl eq_refl
              eq_refl)
    as (s' & m' & v' & c' & H1 & H2 & H3 & _).
  - apply representable_pow. cbn. rewrite Rabs_pos_eq; lra.
  - apply representable_pow. cbn. rewrite Rabs_pos_eq; lra.
  - cbn. lra.
  - cbn. lra.
  - intros k. cbn. split; [ lra | ].
    apply root_plus_eps_nonzero. lra.
  - exists s'. split; [ exact H1 | ]. split; [ exact H2 | exact H3 ].
Defined.

(** X12: On a built AdaMod optimizer with [beta1] and [beta2] between 0
    and 1, every training iteration over dense gradients for variables
    given to [build] returns normally; it advances the shared counter
    by the number of updates and keeps the slots in step with the
    variables. *)
Theorem adamod_training_never_raises
    (gvs : list (gradient * var_id)) (lr : R) :
  forall s n,
    adamod_wf s ->
    0 <= AdaMod.beta1 s <= 1 ->
    0 <= AdaMod.beta2 s <= 1 ->
    AdaMod.step s = Some n ->
    Forall (fun gv => is_sparse (fst gv) = false /\
                      In (snd gv)
                         (Base._trainable_variables (AdaMod.base s))) gvs ->
    exists s',
      training_iteration AdaMod.update_step gvs lr s = (Ok tt, s') /\
      adamod_wf s' /\
      AdaMod.base s' = AdaMod.base s /\
      AdaMod.step s' = Some (n + List.length gvs)%nat.
Proof.
  induction gvs as [|[g v] gvs IH]; intros s n Hwf Hb1 Hb2 Hst Hall.
  - exists s. split; [ reflexivity | ]. split; [ assumption | ].
    split; [ reflexivity | ]. rewrite Hst. cbn. f_equal. lia.
  - inversion Hall as [|x l [Hdense Hin] Hrest]; subst. cbn in Hdense, Hin.
    destruct g as [g|]; [ | discriminate ].
    destruct (get_variable_index_listed _ _ Hin) as (i & Hidx & Hi).
    destruct Hwf as (Hea & Heas & Heal & Hstep).
    destruct (slots_for_nth _ _ _ Hea Hi) as (ea & m & Eea & Em).
    destruct (slots_for_nth _ _ _ Heas Hi) as (eas & vv & Eeas & Ev).
    destruct (slots_for_nth _ _ _ Heal Hi) as (eal & c & Eeal & Ec).
    destruct (adamod_call_ok s g v lr ea eas eal n i m vv c
                Eea Eeas Eeal Hst Hidx Em Ev Ec
                (py_pow_ok _ _ Hb1) (py_pow_ok _ _ Hb2))
      as (s1 & Hcall & Hbase1 & Hbeta1 & Hbeta2 & Hea1 & Heas1 & Heal1
          & Hst1).
    assert (Hwf1 : adamod_wf s1).
    { unfold adamod_wf.
      rewrite Hbase1, Hea1, Heas1, Heal1, Hst1, <- Eea, <- Eeas, <- Eeal.
      repeat split; try assumption. discriminate. }
    rewrite <- Hbase1 in Hrest.
    destruct (IH s1 (n + 1)%nat Hwf1
                ltac:(rewrite Hbeta1; exact Hb1)
                ltac:(rewrite Hbeta2; exact Hb2) Hst1 Hrest)
      as (s' & Hit & Hwf' & Hb' & Hst').
    exists s'. split; [ | split; [ exact Hwf' | split ] ].
    + cbn [training_iteration]. unfold bind at 1. rewrite Hcall. exact Hit.
    + congruence.
    + rewrite Hst'. cbn [List.length]. f_equal. lia.
Qed.

Lemma adamod_training_never_raises_witness :
  exists s',
    training_iteration AdaMod.update_step
      [(Dense Example.grad, 0%nat); (Dense Example.grad, 1%nat);
       (Dense Example.grad, 0%nat)]
      Example.lr Example.adamod = (Ok tt, s') /\
    AdaMod.step s' = Some 3%nat.
Proof.
  assert (Hwf : adamod_wf Example.adamod).
  { unfold adamod_wf, slots_for. cbn.
    repeat split; try (eexists; split; reflexivity); discriminate. }
  assert (Hb1 : 0 <= AdaMod.beta1 Example.adamod <= 1) by (cbn; lra).
  assert (Hb2 : 0 <= AdaMod.beta2 Example.adamod <= 1) by (cbn; lra).
  assert (Hall : Forall
            (fun gv => is_sparse (fst gv) = false /\
                       In (snd gv)
                          (Base._trainable_variables
                             (AdaMod.base Example.adamod)))
            [(Dense Example.grad, 0%nat); (Dense Example.grad, 1%nat);
             (Dense Example.grad, 0%nat)]).
  { repeat (first [ apply Forall_cons | apply Forall_nil ]);
      (split; [ reflexivity | cbn; auto ]). }
  destruct (adamod_training_never_raises _ Example.lr Example.adamod 0%nat
              Hwf Hb1 Hb2 eq_refl Hall) as (s' & H1 & _ & _ & H2).
  exists s'. split; [ exact H1 | exact H2 ].
Defined.

(** ** The rule of AdamP without projection *)

(** X13: For a parameter of fewer than two dimensions [update_step] of AdamP
    does not project: with the slots of the variable in place, both
    powers within the range of a float, a positive second bias
    correction, a first bias correction that is not 0 and, in every
    element, a new second moment that is not negative and a denominator
    that is not 0, the call returns
    normally; the counter of the parameter is incremented; the moments
    are updated from the gradient; the perturbation is the new first
    moment (with [nesterov], [beta1] times it plus [1 - beta1] times the
    gradient) over [sqrt exp_avg_sq' / sqrt bias_correction2 + epsilon];
    the parameter is multiplied by [1 - lr * weight_decay] when
    [weight_decay > 0] (a weight decay that is not positive is ignored)
    and then moved by the perturbation times [- lr / bias_correction1]. *)
Theorem adamp_update_step_rule_flat
    (s : AdamP.state) (g : tensor) (v : var_id) (lr : R)
    (ea eas : list tensor) (st : list nat)
    (i : nat) (m vv : tensor) (n : nat) :
  AdamP.exp_avg s = Some ea ->
  AdamP.exp_avg_sq s = Some eas ->
  AdamP.step s = Some st ->
  Base._get_variable_index (AdamP.base s) v = Ok i ->
  nth_error ea i = Some m ->
  nth_error eas i = Some vv ->
  nth_error st i = Some n ->
  (List.length (shape (AdamP.variables s v)) <= 1)%nat ->
  representable (AdamP.beta1 s ^ (n + 1)) ->
  representable (AdamP.beta2 s ^ (n + 1)) ->
  0 < 1 - AdamP.beta2 s ^ (n + 1) ->
  1 - AdamP.beta1 s ^ (n + 1) <> 0 ->
  (forall k,
      let v' := data vv k * AdamP.beta2 s
                + data g k * data g k * (1 - AdamP.beta2 s) in
      0 <= v' /\
      sqrt v' / sqrt (1 - AdamP.beta2 s ^ (n + 1)) + AdamP.epsilon s <> 0) ->
  exists s' m' v',
    AdamP.update_step g v lr s = (Ok tt, s') /\
    AdamP.step s' = Some (setitem st i (n + 1)%nat) /\
    AdamP.exp_avg s' = Some (setitem ea i m') /\
    AdamP.exp_avg_sq s' = Some (setitem eas i v') /\
    (forall w, w <> v -> AdamP.variables s' w = AdamP.variables s w) /\
    forall k,
      let b1 := AdamP.beta1 s in
      let b2 := AdamP.beta2 s in
      let wd := Base.weight_decay (AdamP.base s) in
      let p := data (AdamP.variables s v) k in
      let denom := sqrt (data v' k) / sqrt (1 - b2 ^ (n + 1))
                   + AdamP.epsilon s in
      let perturb := if AdamP.nesterov s
                     then (b1 * data m' k + (1 - b1) * data g k) / denom
                     else data m' k / denom in
      data m' k = data m k * b1 + data g k * (1 - b1) /\
      data v' k = data vv k * b2 + data g k * data g k * (1 - b2) /\
      data (AdamP.variables s' v) k
      = (if Rlt_dec 0 wd then p * (1 - lr * wd * 1) else p)
        + perturb * - (lr / (1 - b1 ^ (n + 1))).
Proof.
  intros Hea Heas Hst Hidx Hm Hv Hn Hdim Hr1 Hr2 Hbc _ _.
  pose proof (adamp_exec s g v lr ea eas st i m vv n
                Hea Heas Hst Hidx Hm Hv Hn
                (py_pow_in_range _ _ Hr1) (py_pow_in_range _ _ Hr2))
    as Hexec.
  cbv zeta in Hexec.
  rewrite (math_sqrt_ok _ (Rlt_le _ _ Hbc)) in Hexec.
  assert (Hguard : (1 <? List.length (shape (AdamP.variables s v)))%nat
                   = false) by (apply Nat.ltb_ge; exact Hdim).
  rewrite Hguard in Hexec.
  unfold AdamP.update_step, bind. rewrite Hexec.
  eexists _, _, _. split; [ reflexivity | ].
  split; [ reflexivity | ]. split; [ reflexivity | ].
  split; [ reflexivity | ]. split.
  - intros w Hw. cbn. rewrite update_var_other by assumption.
    destruct (Rlt_dec 0 (Base.weight_decay (AdamP.base s)));
      [ now rewrite update_var_other | reflexivity ].
  - intros k. cbn. rewrite update_var_same.
    destruct (Rlt_dec 0 (Base.weight_decay (AdamP.base s))),
             (AdamP.nesterov s); cbn;
      rewrite ?update_var_same; cbn; repeat split; ring.
Qed.

Lemma adamp_update_step_rule_flat_witness :
  exists s',
    AdamP.update_step Example.grad 0%nat Example.lr Example.adamp
    = (Ok tt, s') /\
    AdamP.step s' = Some [1%nat].
Proof.
  destruct (adamp_update_step_rule_flat
              Example.adamp Example.grad 0%nat Example.lr
              [zero_slot Example.host 0%nat] [zero_slot Example.host 0%nat]
              [0%nat] 0%nat
              (zero_slot Example.host 0%nat) (zero_slot Example.host 0%nat)
              0%nat eq_refl eq_refl eq_refl eq_refl eq_refl eq_refl eq_refl)
    as (s' & m' & v' & H1 & H2 & _).
  - cbn. lia.
  - apply representable_pow. cbn. rewrite Rabs_pos_eq; lra.
  - apply representable_pow. cbn. rewrite Rabs_pos_eq; lra.
  - cbn. lra.
  - cbn. lra.
  - intros k. cbn. split; [ lra | ]. apply Rgt_not_eq.
    assert (H : 0 <= sqrt (0 * (999 / 1000)
                           + 1 / 10 * (1 / 10) * (1 - 999 / 1000))
                     / sqrt (1 - 999 / 1000 * 1)).
    { apply Rmult_le_pos; [ apply sqrt_pos | ].
      apply Rlt_le, Rinv_0_lt_compat, sqrt_lt_R0. lra. }
    lra.
  - exists s'. split; [ exact H1 | exact H2 ].
Defined.

(** ** Sums over a row *)

Lemma sum_upto_ext (f g : nat -> R) (n : nat) :
  (forall c, (c < n)%nat -> f c = g c) ->
  AdamP.sum_upto f n = AdamP.sum_upto g n.
Proof.
  induction n as [|n IH]; intros H; simpl; [ reflexivity | ].
  rewrite IH by (intros; apply H; lia). rewrite H by lia. reflexivity.
Qed.

Lemma sum_upto_zero (f : nat -> R) (n : nat) :
  (forall c, (c < n)%nat -> f c = 0) -> AdamP.sum_upto f n = 0.
Proof.
  induction n as [|n IH]; intros H; simpl; [ reflexivity | ].
  rewrite IH by (intros; apply H; lia). rewrite H by lia. ring.
Qed.

Lemma sum_upto_minus (f g : nat -> R) (n : nat) :
  AdamP.sum_upto (fun c => f c - g c) n
  = AdamP.sum_upto f n - AdamP.sum_upto g n.
Proof.
  induction n as [|n IH]; simpl; [ ring | rewrite IH; ring ].
Qed.

Lemma sum_upto_scale (f : nat -> R) (a : R) (n : nat) :
  AdamP.sum_upto (fun c => f c * a) n = AdamP.sum_upto f n * a.
Proof.
  induction n as [|n IH]; simpl; [ ring | rewrite IH; ring ].
Qed.

Lemma sum_upto_squares_nonneg (f : nat -> R) (n : nat) :
  0 <= AdamP.sum_upto (fun c => f c * f c) n.
Proof.
  induction n as [|n IH]; simpl; [ lra | ].
  pose proof (Rle_0_sqr (f n)) as H. unfold Rsqr in H. lra.
Qed.

(** The inequality of Cauchy and Schwarz for the sums of a row. *)
Lemma sum_upto_cauchy_schwarz (f g : nat -> R) (n : nat) :
  AdamP.sum_upto (fun c => f c * g c) n
  * AdamP.sum_upto (fun c => f c * g c) n
  <= AdamP.sum_upto (fun c => f c * f c) n
     * AdamP.sum_upto (fun c => g c * g c) n.
Proof.
  induction n as [|n IH]; simpl; [ lra | ].
  set (A := AdamP.sum_upto (fun c => f c * g c) n) in *.
  set (P := AdamP.sum_upto (fun c => f c * f c) n) in *.
  set (Q := AdamP.sum_upto (fun c => g c * g c) n) in *.
  assert (HP : 0 <= P) by apply sum_upto_squares_nonneg.
  assert (HQ : 0 <= Q) by apply sum_upto_squares_nonneg.
  set (a := f n). set (b := g n).
  assert (Hu : 0 <= P * (b * b)) by (apply Rmult_le_pos; [ lra | nra ]).
  assert (Hv : 0 <= Q * (a * a)) by (apply Rmult_le_pos; [ lra | nra ]).
  assert (Hsq : Rsqr (2 * A * a * b) <= Rsqr (P * (b * b) + Q * (a * a))).
  { unfold Rsqr.
    assert (H1 : (2 * A * a * b) * (2 * A * a * b)
                 = 4 * (A * A) * ((a * a) * (b * b))) by ring.
    assert (H2 : 4 * (A * A) * ((a * a) * (b * b))
                 <= 4 * (P * Q) * ((a * a) * (b * b))).
    { apply Rmult_le_compat_r; [ | lra ].
      apply Rmult_le_pos; nra. }
    pose proof (Rle_0_sqr (P * (b * b) - Q * (a * a))) as H3.
    unfold Rsqr in H3.
    rewrite H1.
    apply Rle_trans with (4 * (P * Q) * (a * a * (b * b)));
      [ exact H2 | ].
    apply Rminus_le.
    replace (4 * (P * Q) * (a * a * (b * b))
             - (P * (b * b) + Q * (a * a)) * (P * (b * b) + Q * (a * a)))
      with (- ((P * (b * b) - Q * (a * a)) * (P * (b * b) - Q * (a * a))))
      by ring.
    lra. }
  apply Rsqr_incr_0_var in Hsq; [ | lra ].
  nra.
Qed.

(** ** Cosine similarity *)

Lemma max_upto_const (f : nat -> R) (c : R) (n : nat) :
  (forall r, f r = c) -> AdamP.max_upto f n = c.
Proof.
  intros H. induction n as [|n IH]; simpl; [ apply H | ].
  destruct n as [|n]; [ apply H | ].
  rewrite IH, H. apply Rmax_left. lra.
Qed.

(** X16: The absolute cosine similarity of two views of the same width is at
    most 1 in every row, as long as the product of the squared norms
    does not exceed the maximum at which [clip] cuts it. *)
Theorem cosine_similarity_at_most_one
    (x1 x2 : tensor) (eps : R) (r : nat) :
  0 < eps ->
  AdamP.width x2 = AdamP.width x1 ->
  data (AdamP.reduce_sum_axis1 (tf.multiply x1 x1)) r
  * data (AdamP.reduce_sum_axis1 (tf.multiply x2 x2)) r
  <= AdamP.clip_max (t_dtype x1) ->
  Rabs (data (AdamP.cosine_similarity x1 x2 eps) r) <= 1.
Proof.
  intros He Hw Hmax.
  unfold AdamP.cosine_similarity, AdamP.cosine_denominator, AdamP.clip.
  cbn in *. unfold AdamP.width in *. cbn in *. rewrite Hw in *.
  set (w := nth 1 (shape x1) 0%nat) in *.
  set (f := fun j => data x1 (r * w + j)%nat).
  set (g := fun j => data x2 (r * w + j)%nat).
  change (AdamP.sum_upto (fun j => data x1 (r * w + j)%nat
                                   * data x2 (r * w + j)%nat) w)
    with (AdamP.sum_upto (fun j => f j * g j) w).
  change (AdamP.sum_upto (fun j => data x1 (r * w + j)%nat
                                   * data x1 (r * w + j)%nat) w)
    with (AdamP.sum_upto (fun j => f j * f j) w) in *.
  change (AdamP.sum_upto (fun j => data x2 (r * w + j)%nat
                                   * data x2 (r * w + j)%nat) w)
    with (AdamP.sum_upto (fun j => g j * g j) w) in *.
  pose proof (sum_upto_cauchy_schwarz f g w) as Hcs.
  pose proof (sum_upto_squares_nonneg f w) as Hf.
  pose proof (sum_upto_squares_nonneg g w) as Hg.
  set (A := AdamP.sum_upto (fun j => f j * g j) w) in *.
  set (P := AdamP.sum_upto (fun j => f j * f j) w) in *.
  set (Q := AdamP.sum_upto (fun j => g j * g j) w) in *.
  unfold tf.clip_scalar. rewrite (Rmin_left (P * Q)) by exact Hmax.
  set (n12 := sqrt (Rmax (P * Q) (eps * eps))).
  assert (Hn : eps <= n12).
  { unfold n12. rewrite <- (sqrt_square eps) at 1 by lra.
    apply sqrt_le_1_alt, Rmax_r. }
  assert (HA : Rabs A <= n12).
  { unfold n12. rewrite <- sqrt_Rsqr_abs. apply sqrt_le_1_alt.
    unfold Rsqr. eapply Rle_trans; [ exact Hcs | apply Rmax_l ]. }
  unfold Rdiv. rewrite Rabs_mult, (Rabs_right (/ n12)).
  - apply Rmult_le_reg_r with n12; [ lra | ].
    rewrite Rmult_assoc, Rinv_l by lra. lra.
  - apply Rle_ge, Rlt_le, Rinv_0_lt_compat. lra.
Qed.

Lemma cosine_similarity_at_most_one_witness :
  Rabs (data (AdamP.cosine_similarity (Example.matrix 1) (Example.matrix 2)
                                      (1 / 100000000)) 0%nat) <= 1.
Proof.
  apply cosine_similarity_at_most_one; [ lra | reflexivity | ].
  cbn. unfold AdamP.float32_max. lra.
Defined.

(** ** The views *)

(** A view keeps the elements and the element type; what it does to the
    shape depends on the shape alone. *)
Lemma view_data vf x xv :
  is_view vf -> vf x = Ok xv ->
  data xv = data x /\ t_dtype xv = t_dtype x /\
  forall y, shape y = shape x ->
            vf y = Ok (mkTensor (shape xv) (t_dtype y) (data y)).
Proof.
  intros [-> | ->] H.
  - unfold AdamP._channel_view in *.
    destruct (shape x) as [|[|d] rest] eqn:E; inversion H; subst xv; cbn.
    repeat split. intros y Hy. rewrite Hy. reflexivity.
  - unfold AdamP._layer_view in *. inversion H; subst xv; cbn.
    repeat split. intros y Hy. rewrite Hy. reflexivity.
Qed.

Lemma row_index (r w c : nat) : (c < w)%nat -> ((r * w + c) / w)%nat = r.
Proof.
  intros H. rewrite Nat.div_add_l by lia.
  rewrite Nat.div_small by lia. lia.
Qed.

(** ** A zero gradient *)

(** X17: The cosine similarity of a zero gradient with any parameter is 0 in
    every row (the floor under the root keeps the divisor positive), so
    with [delta > 0] the test of a view succeeds and [projection] takes
    the first view, the channel view: it returns the weight-decay ratio
    [wd_ratio], not 1. *)
Theorem zero_gradient_is_projected
    (p grad perturb : tensor) (delta wd_ratio eps : R) (pv gv : tensor) :
  AdamP._channel_view p = Ok pv ->
  AdamP._channel_view grad = Ok gv ->
  (0 < AdamP.width pv)%nat ->
  0 < delta -> 0 < eps ->
  all_zero grad ->
  AdamP.view_test AdamP._channel_view p grad delta eps = Ok true /\
  exists q,
    AdamP.projection p grad perturb delta wd_ratio eps = Ok (q, wd_ratio).
Proof.
  intros Hpv Hgv Hw Hd He Hz.
  assert (Hview : is_view AdamP._channel_view) by (left; reflexivity).
  destruct (view_data _ _ _ Hview Hgv) as (Dg & _ & _).
  destruct (view_data _ _ _ Hview Hpv) as (Dp & _ & Hsame).
  assert (Htest : AdamP.view_test AdamP._channel_view p grad delta eps
                  = Ok true).
  { unfold AdamP.view_test. rewrite Hpv, Hgv.
    rewrite math_sqrt_ok by apply pos_INR.
    assert (Hs : 0 < sqrt (INR (AdamP.width pv))).
    { apply sqrt_lt_R0. change 0 with (INR 0). now apply lt_INR. }
    rewrite py_div_ok by lra.
    assert (Hcos : AdamP.reduce_max
                     (tf.abs (AdamP.cosine_similarity gv pv eps)) = 0).
    { unfold AdamP.reduce_max. apply max_upto_const. intros r. cbn.
      rewrite sum_upto_zero.
      - unfold Rdiv. rewrite Rmult_0_l. apply Rabs_R0.
      - intros c _. rewrite Dg, Hz. ring. }
    rewrite Hcos.
    destruct (Rlt_dec 0 (delta / sqrt (INR (AdamP.width pv)))) as [_|N];
      [ reflexivity | ].
    exfalso. apply N. apply Rdiv_lt_0_compat; lra. }
  split; [ exact Htest | ].
  unfold AdamP.projection, AdamP.projection_loop. rewrite Htest.
  unfold AdamP.project. rewrite Hpv.
  rewrite (Hsame (tf.multiply
                    (tf.divide p
                       (AdamP.expand (AdamP.unit_denominator pv eps)
                                     (AdamP.width pv) p)) perturb))
    by reflexivity.
  eexists. reflexivity.
Qed.

Lemma zero_gradient_is_projected_witness :
  exists q,
    AdamP.projection (Example.matrix 1) (Example.matrix 0)
                     (Example.matrix 2) (1 / 10) (1 / 10) (1 / 100000000)
    = Ok (q, 1 / 10).
Proof.
  destruct (zero_gradient_is_projected
              (Example.matrix 1) (Example.matrix 0) (Example.matrix 2)
              (1 / 10) (1 / 10) (1 / 100000000)
              (Example.matrix 1) (Example.matrix 0) eq_refl eq_refl)
    as (_ & q & Hq).
  - cbn. lia.
  - lra.
  - lra.
  - intros k. reflexivity.
  - exists q. exact Hq.
Defined.

(** ** What the projection removes *)

Lemma unit_rows_norm (p pv : tensor) (eps : R) (r : nat) :
  data pv = data p -> (0 < AdamP.width pv)%nat -> 0 < eps ->
  let w := AdamP.width pv in
  let norm := sqrt (row_dot p p w r) in
  (forall c, (c < w)%nat ->
     data (unit_rows p pv eps) (r * w + c)%nat
     = data p (r * w + c)%nat * / (norm + eps)) /\
  row_dot (unit_rows p pv eps) (unit_rows p pv eps) w r
  = Rsqr (norm / (norm + eps)) /\
  0 <= norm / (norm + eps) < 1.
Proof.
  intros Hd Hw He w norm.
  assert (Hn0 : 0 <= norm) by apply sqrt_pos.
  assert (Hrow : forall c, (c < w)%nat ->
             data (unit_rows p pv eps) (r * w + c)%nat
             = data p (r * w + c)%nat * / (norm + eps)).
  { intros c Hc. unfold unit_rows. cbn. fold w.
    rewrite (row_index r w c Hc). unfold norm, row_dot. rewrite Hd.
    reflexivity. }
  split; [ exact Hrow | ]. split.
  - unfold row_dot at 1.
    rewrite (sum_upto_ext _
               (fun c => data p (r * w + c)%nat * data p (r * w + c)%nat
                         * (/ (norm + eps) * / (norm + eps)))).
    + rewrite sum_upto_scale. fold (row_dot p p w r).
      unfold Rsqr, Rdiv.
      replace (row_dot p p w r) with (norm * norm).
      * ring.
      * unfold norm. apply sqrt_sqrt. apply sum_upto_squares_nonneg.
    + intros c Hc. rewrite (Hrow c Hc). ring.
  - split.
    + apply Rmult_le_pos; [ lra | ]. apply Rlt_le, Rinv_0_lt_compat. lra.
    + apply Rmult_lt_reg_r with (norm + eps); [ lra | ].
      unfold Rdiv. rewrite Rmult_assoc, Rinv_l by lra. lra.
Qed.

(** X18: When a view's test succeeds, [projection] subtracts from the
    perturbation, in every row of the view, the normalised parameter
    [p_n] times the inner product of [p_n] with the perturbation.  The
    norm of [p_n] in a row is [norm / (norm + eps)], below 1, so the
    component of the perturbation along the parameter is not removed
    entirely: it is multiplied by [1 - (norm / (norm + eps))^2]. *)
Theorem projection_shrinks_parallel_component
    (view_func : tensor -> result tensor) (p perturb pv : tensor)
    (eps : R) :
  is_view view_func ->
  view_func p = Ok pv ->
  (0 < AdamP.width pv)%nat ->
  0 < eps ->
  let w := AdamP.width pv in
  let p_n := unit_rows p pv eps in
  exists q,
    AdamP.project view_func p perturb eps = Ok q /\
    (forall grad delta wd_ratio,
        (view_func = AdamP._channel_view /\
         AdamP.view_test AdamP._channel_view p grad delta eps = Ok true) \/
        (view_func = AdamP._layer_view /\
         AdamP.view_test AdamP._channel_view p grad delta eps = Ok false /\
         AdamP.view_test AdamP._layer_view p grad delta eps = Ok true) ->
        AdamP.projection p grad perturb delta wd_ratio eps
        = Ok (q, wd_ratio)) /\
    (forall j,
        data q j
        = data perturb j - data p_n j * row_dot p_n perturb w (j / w)) /\
    forall r,
      let ratio := sqrt (row_dot p p w r) / (sqrt (row_dot p p w r) + eps) in
      row_dot p_n q w r = row_dot p_n perturb w r * (1 - Rsqr ratio) /\
      0 <= ratio < 1.
Proof.
  intros Hview Hpv Hw He w p_n.
  destruct (view_data _ _ _ Hview Hpv) as (Dp & _ & Hsame).
  assert (Hproj : exists q, AdamP.project view_func p perturb eps = Ok q /\
                            q = tf.sub perturb
                                  (tf.multiply p_n
                                     (AdamP.expand
                                        (AdamP.reduce_sum_axis1
                                           (mkTensor (shape pv)
                                              (t_dtype
                                                 (tf.multiply p_n perturb))
                                              (data
                                                 (tf.multiply p_n perturb))))
                                        w p))).
  { unfold AdamP.project. rewrite Hpv.
    rewrite (Hsame (tf.multiply
                      (tf.divide p
                         (AdamP.expand (AdamP.unit_denominator pv eps)
                                       (AdamP.width pv) p)) perturb))
      by reflexivity.
    eexists. split; reflexivity. }
  destruct Hproj as (q & Hproj & Eq).
  exists q. split; [ exact Hproj | ]. split.
  { intros grad delta wd_ratio [[-> Ht] | [-> [Hc Ht]]];
      unfold AdamP.projection, AdamP.projection_loop.
    - rewrite Ht, Hproj. reflexivity.
    - rewrite Hc, Ht, Hproj. reflexivity. }
  subst q.
  assert (Hq : forall j,
             data (tf.sub perturb
                     (tf.multiply p_n
                        (AdamP.expand
                           (AdamP.reduce_sum_axis1
                              (mkTensor (shape pv)
                                 (t_dtype (tf.multiply p_n perturb))
                                 (data (tf.multiply p_n perturb))))
                           w p))) j
             = data perturb j - data p_n j * row_dot p_n perturb w (j / w)).
  { intros j. reflexivity. }
  split; [ exact Hq | ].
  intros r.
  destruct (unit_rows_norm p pv eps r Dp Hw He) as (_ & Hnn & Hratio).
  split; [ | exact Hratio ].
  fold w p_n in Hnn.
  unfold row_dot at 1.
  rewrite (sum_upto_ext _
             (fun c => data p_n (r * w + c)%nat * data perturb (r * w + c)%nat
                       - data p_n (r * w + c)%nat * data p_n (r * w + c)%nat
                         * row_dot p_n perturb w r)).
  - rewrite sum_upto_minus, sum_upto_scale.
    fold (row_dot p_n perturb w r). fold (row_dot p_n p_n w r).
    rewrite Hnn. ring.
  - intros c Hc.
    change (data p_n (r * w + c)%nat
            * (data perturb (r * w + c)%nat
               - data p_n (r * w + c)%nat
                 * row_dot p_n perturb w ((r * w + c) / w))
            = data p_n (r * w + c)%nat * data perturb (r * w + c)%nat
              - data p_n (r * w + c)%nat * data p_n (r * w + c)%nat
                * row_dot p_n perturb w r).
    rewrite (row_index r w c Hc). ring.
Qed.

Lemma projection_shrinks_parallel_component_witness :
  exists q,
    AdamP.project AdamP._layer_view (Example.matrix 1) (Example.matrix 2)
                  (1 / 100000000) = Ok q.
Proof.
  assert (Hview : is_view AdamP._layer_view) by (right; reflexivity).
  assert (Hw : (0 < AdamP.width (Example.matrix 1))%nat) by (cbn; lia).
  assert (He : 0 < 1 / 100000000) by lra.
  destruct (projection_shrinks_parallel_component
              AdamP._layer_view (Example.matrix 1) (Example.matrix 2)
              (Example.matrix 1) (1 / 100000000) Hview eq_refl Hw He)
    as (q & Hq & _).
  exists q. exact Hq.
Defined.

(** ** Second moments stay non-negative *)

Lemma in_setitem {A} (l : list A) i a t :
  In t (setitem l i a) -> t = a \/ In t l.
Proof.
  revert i. induction l as [|x l IH]; intros [|i] H; simpl in *; auto.
  - destruct H as [<- | H]; auto.
  - destruct H as [<- | H]; auto. destruct (IH _ H); auto.
Qed.

Lemma nonneg_slots_setitem l i t :
  nonneg_slots (Some l) -> (forall k, 0 <= data t k) ->
  nonneg_slots (Some (setitem l i t)).
Proof.
  intros Hl Ht l' t' E Hin. inversion E; subst l'.
  destruct (in_setitem _ _ _ _ Hin) as [-> | Hin'].
  - exact Ht.
  - exact (Hl l t' eq_refl Hin').
Qed.

Lemma second_moment_nonneg' beta2 v g :
  0 <= beta2 <= 1 -> 0 <= v -> 0 <= v * beta2 + g * g * (1 - beta2).
Proof.
  intros Hb Hv. pose proof (Rle_0_sqr g) as Hg. unfold Rsqr in Hg. nra.
Qed.

Ltac nonneg_goal :=
  first
    [ assumption
    | apply nonneg_slots_setitem;
      [ assumption
      | intros k; cbn;
        try (eapply Rle_trans; [ | apply Rmax_r ]);
        match goal with
        | Hs : nonneg_slots (Some ?l), H : nth_error ?l _ = Some ?t
          |- 0 <= _ * data ?t k + _ =>
            apply second_moment_nonneg;
            [ assumption | exact (nonneg_nth _ _ _ _ k Hs eq_refl H) ]
        | Hs : nonneg_slots (Some ?l), H : nth_error ?l _ = Some ?t
          |- 0 <= data ?t k * _ + _ =>
            apply second_moment_nonneg';
            [ assumption | exact (nonneg_nth _ _ _ _ k Hs eq_refl H) ]
        end ] ].

Lemma adabound_step_keeps_nonneg g v lr s :
  0 <= AdaBound.beta2 s <= 1 ->
  nonneg_slots (AdaBound.exp_avg_sq s) ->
  nonneg_slots (AdaBound.max_exp_avg_sq s) ->
  let s' := snd (AdaBound.update_step_frame g v lr s) in
  AdaBound.beta2 s' = AdaBound.beta2 s /\
  nonneg_slots (AdaBound.exp_avg_sq s') /\
  nonneg_slots (AdaBound.max_exp_avg_sq s').
Proof.
  destruct s. unfold_adabound. unfold getitem. cbn. intros Hb Hsq Hmax.
  crunch; settle_reads; (split; [ reflexivity | ]); split; nonneg_goal.
Qed.

Lemma adamp_step_keeps_nonneg g v lr s :
  0 <= AdamP.beta2 s <= 1 ->
  nonneg_slots (AdamP.exp_avg_sq s) ->
  let s' := snd (AdamP.update_step_frame g v lr s) in
  AdamP.beta2 s' = AdamP.beta2 s /\
  nonneg_slots (AdamP.exp_avg_sq s').
Proof.
  destruct s. unfold_adamp. unfold getitem. cbn -[AdamP.projection Nat.ltb].
  intros Hb Hsq.
  repeat (cbn -[AdamP.projection Nat.ltb];
          match goal with
          | |- context [match ?x with _ => _ end] =>
              lazymatch x with
              | context [match _ with _ => _ end] => fail
              | _ => destruct x eqn:?
              end
          end);
    cbn -[AdamP.projection Nat.ltb];
    settle_reads; (split; [ reflexivity | ]); nonneg_goal.
Qed.

Lemma adamod_step_keeps_nonneg g v lr s :
  0 <= AdaMod.beta2 s <= 1 ->
  nonneg_slots (AdaMod.exp_avg_sq s) ->
  let s' := snd (AdaMod.update_step_frame g v lr s) in
  AdaMod.beta2 s' = AdaMod.beta2 s /\
  nonneg_slots (AdaMod.exp_avg_sq s').
Proof.
  destruct s. unfold_adamod. unfold getitem. cbn. intros Hb Hsq.
  crunch; settle_reads; (split; [ reflexivity | ]); nonneg_goal.
Qed.

Lemma zeros_nonneg (host : var_id -> tensor) (vl : list var_id) :
  nonneg_slots (Some (List.map (zero_slot host) vl)).
Proof.
  intros l t E Hin k. inversion E; subst l.
  apply in_map_iff in Hin. destruct Hin as (v & <- & _). cbn. lra.
Qed.

(** X20: The second moments never become negative.  With [beta2]
    between 0 and 1, in each of the three optimizers: if every element of
    every slot of [exp_avg_sq] (for AdaBound also of [max_exp_avg_sq]) is
    non-negative, it is so again after any sequence of [update_step]
    calls, whatever each call was given and however it ended; no call
    changes [beta2]. *)
Theorem second_moments_stay_nonneg :
  (forall calls s,
      0 <= AdaBound.beta2 s <= 1 ->
      nonneg_slots (AdaBound.exp_avg_sq s) ->
      nonneg_slots (AdaBound.max_exp_avg_sq s) ->
      let s' := after_calls AdaBound.update_step calls s in
      AdaBound.beta2 s' = AdaBound.beta2 s /\
      nonneg_slots (AdaBound.exp_avg_sq s') /\
      nonneg_slots (AdaBound.max_exp_avg_sq s')) /\
  (forall calls s,
      0 <= AdamP.beta2 s <= 1 ->
      nonneg_slots (AdamP.exp_avg_sq s) ->
      let s' := after_calls AdamP.update_step calls s in
      AdamP.beta2 s' = AdamP.beta2 s /\
      nonneg_slots (AdamP.exp_avg_sq s')) /\
  (forall calls s,
      0 <= AdaMod.beta2 s <= 1 ->
      nonneg_slots (AdaMod.exp_avg_sq s) ->
      let s' := after_calls AdaMod.update_step calls s in
      AdaMod.beta2 s' = AdaMod.beta2 s /\
      nonneg_slots (AdaMod.exp_avg_sq s')).
Proof.
  split; [ | split ].
  - induction calls as [|[[g v] lr] rest IH]; intros s Hb Hsq Hmax.
    + cbn. auto.
    + cbn. rewrite update_step_snd_adabound.
      destruct (adabound_step_keeps_nonneg g v lr s Hb Hsq Hmax)
        as (E & H1 & H2).
      destruct (IH _ ltac:(rewrite E; exact Hb) H1 H2) as (E' & H3 & H4).
      cbn in E', H3, H4. rewrite E'. auto.
  - induction calls as [|[[g v] lr] rest IH]; intros s Hb Hsq.
    + cbn. auto.
    + cbn. rewrite update_step_snd_adamp.
      destruct (adamp_step_keeps_nonneg g v lr s Hb Hsq) as (E & H1).
      destruct (IH _ ltac:(rewrite E; exact Hb) H1) as (E' & H3).
      cbn in E', H3. rewrite E'. auto.
  - induction calls as [|[[g v] lr] rest IH]; intros s Hb Hsq.
    + cbn. auto.
    + cbn. rewrite update_step_snd_adamod.
      destruct (adamod_step_keeps_nonneg g v lr s Hb Hsq) as (E & H1).
      destruct (IH _ ltac:(rewrite E; exact Hb) H1) as (E' & H3).
      cbn in E', H3. rewrite E'. auto.
Qed.

Lemma second_moments_stay_nonneg_witness :
  AdaBound.beta2
    (after_calls AdaBound.update_step
       [(Dense Example.grad, 0%nat, Example.lr);
        (Dense Example.grad, 0%nat, Example.lr)]
       Example.adabound)
  = 999 / 1000 /\
  nonneg_slots
    (AdaBound.exp_avg_sq
       (after_calls AdaBound.update_step
          [(Dense Example.grad, 0%nat, Example.lr);
           (Dense Example.grad, 0%nat, Example.lr)]
          Example.adabound)).
Proof.
  assert (Hb : 0 <= AdaBound.beta2 Example.adabound <= 1) by (cbn; lra).
  assert (Hsq : nonneg_slots (AdaBound.exp_avg_sq Example.adabound))
    by exact (zeros_nonneg Example.host [0%nat]).
  assert (Hmax : nonneg_slots (AdaBound.max_exp_avg_sq Example.adabound))
    by (intros l t E; discriminate E).
  destruct (proj1 second_moments_stay_nonneg
              [(Dense Example.grad, 0%nat, Example.lr);
               (Dense Example.grad, 0%nat, Example.lr)]
              Example.adabound Hb Hsq Hmax) as (E & H & _).
  split; [ rewrite E; reflexivity | exact H ].
Defined.

(** ** Zero gradients from zero first moments *)

Lemma zero_slots_setitem l i t :
  zero_slots (Some l) -> all_zero t -> zero_slots (Some (setitem l i t)).
Proof.
  intros Hl Ht l' t' E Hin. inversion E; subst l'.
  destruct (in_setitem _ _ _ _ Hin) as [-> | Hin'].
  - exact Ht.
  - exact (Hl l t' eq_refl Hin').
Qed.

Lemma zero_nth l i t k :
  zero_slots (Some l) -> nth_error l i = Some t -> data t k = 0.
Proof.
  intros H Hn. eapply H; eauto. eapply nth_error_In; eauto.
Qed.

Ltac zero_moment k Hg :=
  cbn; rewrite ?Hg;
  repeat match goal with
         | Hs : zero_slots (Some ?l), H : nth_error ?l _ = Some ?t
           |- context [data ?t k] =>
             rewrite (zero_nth _ _ _ k Hs H)
         end;
  try (unfold Rdiv; ring).

Ltac zero_goal v Hg :=
  cbn;
  lazymatch goal with
  | |- zero_slots _ =>
      first [ assumption
            | apply zero_slots_setitem;
              [ assumption | intros k; zero_moment k Hg ] ]
  | |- forall w k, _ =>
      let w := fresh "w" in
      let k := fresh "k" in
      let E := fresh "E" in
      intros w k; cbn;
      first [ reflexivity
            | unfold AdaBound.update_var;
              destruct (Nat.eqb w v) eqn:E;
              [ apply Nat.eqb_eq in E; subst w; zero_moment k Hg
              | reflexivity ] ]
  end.

Lemma adabound_zero_step g v lr s :
  Base.weight_decay (AdaBound.base s) = 0 ->
  zero_slots (AdaBound.exp_avg s) ->
  all_zero g ->
  let s' := snd (AdaBound.update_step_frame (Dense g) v lr s) in
  Base.weight_decay (AdaBound.base s') = 0 /\
  zero_slots (AdaBound.exp_avg s') /\
  forall w k,
    data (AdaBound.variables s' w) k = data (AdaBound.variables s w) k.
Proof.
  destruct s as [b ? ? ? ? ? ? ? ? ? ? ? ?]. unfold_adabound. unfold getitem.
  cbn. intros Hwd Hz Hg.
  crunch; settle_reads; try contradiction;
    (split; [ assumption | ]); split; try zero_goal v Hg.
Qed.

Lemma adamod_zero_step g v lr s :
  Base.weight_decay (AdaMod.base s) = 0 ->
  zero_slots (AdaMod.exp_avg s) ->
  all_zero g ->
  let s' := snd (AdaMod.update_step_frame (Dense g) v lr s) in
  Base.weight_decay (AdaMod.base s') = 0 /\
  zero_slots (AdaMod.exp_avg s') /\
  forall w k,
    data (AdaMod.variables s' w) k = data (AdaMod.variables s w) k.
Proof.
  destruct s as [b ? ? ? ? ? ? ? ? ? ? ?]. unfold_adamod. unfold getitem.
  cbn. intros Hwd Hz Hg.
  crunch; settle_reads; try contradiction;
    (split; [ assumption | ]); split; try zero_goal v Hg.
Qed.

Lemma project_zero vf p perturb eps q :
  is_view vf -> AdamP.project vf p perturb eps = Ok q ->
  all_zero perturb -> all_zero q.
Proof.
  intros Hview H Hz. unfold AdamP.project in H.
  destruct (vf p) as [pv|e] eqn:Hp; [ | discriminate ].
  destruct (view_data _ _ _ Hview Hp) as (_ & _ & Hsame).
  rewrite (Hsame (tf.multiply
                    (tf.divide p
                       (AdamP.expand (AdamP.unit_denominator pv eps)
                                     (AdamP.width pv) p)) perturb))
    in H by reflexivity.
  inversion H; subst q. intros j. cbn.
  rewrite Hz.
  match goal with
  | |- 0 - _ * AdamP.sum_upto ?f ?n = 0 =>
      rewrite (sum_upto_zero f n);
      [ ring | intros c _; rewrite Hz; ring ]
  end.
Qed.

Lemma projection_zero p grad perturb delta wd_ratio eps q r :
  AdamP.projection p grad perturb delta wd_ratio eps = Ok (q, r) ->
  all_zero perturb -> all_zero q.
Proof.
  unfold AdamP.projection, AdamP.projection_loop. intros H Hz.
  destruct (AdamP.view_test AdamP._channel_view p grad delta eps)
    as [[|]|]; try discriminate.
  - destruct (AdamP.project AdamP._channel_view p perturb eps) eqn:E;
      inversion H; subst.
    eapply project_zero; eauto. left; reflexivity.
  - destruct (AdamP.view_test AdamP._layer_view p grad delta eps)
      as [[|]|]; try discriminate.
    + destruct (AdamP.project AdamP._layer_view p perturb eps) eqn:E;
        inversion H; subst.
      eapply project_zero; eauto. right; reflexivity.
    + inversion H; subst. exact Hz.
Qed.

Lemma adamp_zero_step g v lr s :
  Base.weight_decay (AdamP.base s) = 0 ->
  zero_slots (AdamP.exp_avg s) ->
  all_zero g ->
  let s' := snd (AdamP.update_step_frame g v lr s) in
  Base.weight_decay (AdamP.base s') = 0 /\
  zero_slots (AdamP.exp_avg s') /\
  forall w k,
    data (AdamP.variables s' w) k = data (AdamP.variables s w) k.
Proof.
  destruct s as [b ? ? ? ? ? ? ? ? ? ?]. unfold_adamp. unfold getitem.
  cbn -[AdamP.projection Nat.ltb]. intros Hwd Hz Hg.
  repeat (cbn -[AdamP.projection Nat.ltb];
          match goal with
          | |- context [match ?x with _ => _ end] =>
              lazymatch x with
              | context [match _ with _ => _ end] => fail
              | _ => destruct x eqn:?
              end
          end);
    cbn -[AdamP.projection Nat.ltb];
    settle_reads; try lra;
    (split; [ assumption | ]); split; try zero_goal v Hg.
  all: match goal with
       | H : AdamP.projection _ _ _ _ _ _ = Ok ?a |- _ =>
           let q := fresh "q" in
           let r := fresh "r" in
           let Hq := fresh "Hq" in
           destruct a as [q r];
           assert (Hq : all_zero q)
             by (eapply projection_zero;
                 [ exact H | intros k'; zero_moment k' Hg ]);
           cbn; rewrite Hq; ring
       end.
Qed.

(** In the embedding, a zero gradient met by a zero first moment moves
    nothing, through any sequence of calls. *)
Lemma zero_gradients_fixed :
  (forall calls s,
      Base.weight_decay (AdaBound.base s) = 0 ->
      zero_slots (AdaBound.exp_avg s) ->
      Forall zero_call calls ->
      let s' := after_calls AdaBound.update_step calls s in
      zero_slots (AdaBound.exp_avg s') /\
      forall w k,
        data (AdaBound.variables s' w) k = data (AdaBound.variables s w) k) /\
  (forall calls s,
      Base.weight_decay (AdamP.base s) = 0 ->
      zero_slots (AdamP.exp_avg s) ->
      Forall (fun c => all_zero (fst (fst c))) calls ->
      let s' := after_calls AdamP.update_step calls s in
      zero_slots (AdamP.exp_avg s') /\
      forall w k,
        data (AdamP.variables s' w) k = data (AdamP.variables s w) k) /\
  (forall calls s,
      Base.weight_decay (AdaMod.base s) = 0 ->
      zero_slots (AdaMod.exp_avg s) ->
      Forall zero_call calls ->
      let s' := after_calls AdaMod.update_step calls s in
      zero_slots (AdaMod.exp_avg s') /\
      forall w k,
        data (AdaMod.variables s' w) k = data (AdaMod.variables s w) k).
Proof.
  split; [ | split ].
  - induction calls as [|[[g v] lr] rest IH]; intros s Hwd Hz Hc.
    + cbn. auto.
    + inversion Hc as [|c cs [g0 [Eg Hg]] Hrest]; subst. cbn in Eg. subst g.
      cbn. rewrite update_step_snd_adabound.
      destruct (adabound_zero_step g0 v lr s Hwd Hz Hg) as (H1 & H2 & H3).
      destruct (IH _ H1 H2 Hrest) as (H4 & H5). cbn in H4, H5.
      split; [ exact H4 | ]. intros w k. rewrite H5. apply H3.
  - induction calls as [|[[g v] lr] rest IH]; intros s Hwd Hz Hc.
    + cbn. auto.
    + inversion Hc as [|c cs Hg Hrest]; subst. cbn in Hg.
      cbn. rewrite update_step_snd_adamp.
      destruct (adamp_zero_step g v lr s Hwd Hz Hg) as (H1 & H2 & H3).
      destruct (IH _ H1 H2 Hrest) as (H4 & H5). cbn in H4, H5.
      split; [ exact H4 | ]. intros w k. rewrite H5. apply H3.
  - induction calls as [|[[g v] lr] rest IH]; intros s Hwd Hz Hc.
    + cbn. auto.
    + inversion Hc as [|c cs [g0 [Eg Hg]] Hrest]; subst. cbn in Eg. subst g.
      cbn. rewrite update_step_snd_adamod.
      destruct (adamod_zero_step g0 v lr s Hwd Hz Hg) as (H1 & H2 & H3).
      destruct (IH _ H1 H2 Hrest) as (H4 & H5). cbn in H4, H5.
      split; [ exact H4 | ]. intros w k. rewrite H5. apply H3.
Qed.

(** X21: Nothing moves without a gradient.  In each of the three
    optimizers with [weight_decay = 0], first moments that are zero
    everywhere (as [build] leaves them), second moments that are not
    negative, a positive [epsilon], [0 <= beta1 < 1] and [beta2]
    between 0 and 1 (below 1 for AdamP, which divides by the root of
    the second bias correction; for AdaBound also a [base_lr] that is
    not 0), any sequence of [update_step] calls with dense gradients
    that are zero everywhere leaves every element of every parameter as
    it was and the first moments zero, however each call ended; in
    AdamP this holds through the projection too. *)
Theorem zero_gradients_keep_parameters :
  (forall calls s,
      Base.weight_decay (AdaBound.base s) = 0 ->
      0 <= AdaBound.beta1 s < 1 ->
      0 <= AdaBound.beta2 s <= 1 ->
      0 < AdaBound.epsilon s ->
      (forall blr, AdaBound.base_lr s = Some blr -> blr <> 0) ->
      nonneg_slots (AdaBound.exp_avg_sq s) ->
      nonneg_slots (AdaBound.max_exp_avg_sq s) ->
      zero_slots (AdaBound.exp_avg s) ->
      Forall zero_call calls ->
      let s' := after_calls AdaBound.update_step calls s in
      zero_slots (AdaBound.exp_avg s') /\
      forall w k,
        data (AdaBound.variables s' w) k = data (AdaBound.variables s w) k) /\
  (forall calls s,
      Base.weight_decay (AdamP.base s) = 0 ->
      0 <= AdamP.beta1 s < 1 ->
      0 <= AdamP.beta2 s < 1 ->
      0 < AdamP.epsilon s ->
      nonneg_slots (AdamP.exp_avg_sq s) ->
      zero_slots (AdamP.exp_avg s) ->
      Forall (fun c => all_zero (fst (fst c))) calls ->
      let s' := after_calls AdamP.update_step calls s in
      zero_slots (AdamP.exp_avg s') /\
      forall w k,
        data (AdamP.variables s' w) k = data (AdamP.variables s w) k) /\
  (forall calls s,
      Base.weight_decay (AdaMod.base s) = 0 ->
      0 <= AdaMod.beta1 s < 1 ->
      0 <= AdaMod.beta2 s <= 1 ->
      0 < AdaMod.epsilon s ->
      nonneg_slots (AdaMod.exp_avg_sq s) ->
      zero_slots (AdaMod.exp_avg s) ->
      Forall zero_call calls ->
      let s' := after_calls AdaMod.update_step calls s in
      zero_slots (AdaMod.exp_avg s') /\
      forall w k,
        data (AdaMod.variables s' w) k = data (AdaMod.variables s w) k).
Proof.
  destruct zero_gradients_fixed as (Hab & Hap & Ham).
  split; [ | split ].
  - intros calls s Hwd _ _ _ _ _ _ Hz Hc. exact (Hab calls s Hwd Hz Hc).
  - intros calls s Hwd _ _ _ _ Hz Hc. exact (Hap calls s Hwd Hz Hc).
  - intros calls s Hwd _ _ _ _ Hz Hc. exact (Ham calls s Hwd Hz Hc).
Qed.

Lemma zeros_zero (host : var_id -> tensor) (vl : list var_id) :
  zero_slots (Some (List.map (zero_slot host) vl)).
Proof.
  intros l t E Hin k. inversion E; subst l.
  apply in_map_iff in Hin. destruct Hin as (v & <- & _). reflexivity.
Qed.

Lemma zero_gradients_keep_parameters_witness :
  data (AdaBound.variables
          (after_calls AdaBound.update_step
             [(Dense (Example.scalar 0), 0%nat, Example.lr);
              (Dense (Example.scalar 0), 0%nat, Example.lr)]
             Example.adabound) 0%nat) 0%nat
  = 1.
Proof.
  assert (Hwd : Base.weight_decay (AdaBound.base Example.adabound) = 0)
    by reflexivity.
  assert (Hb1 : 0 <= AdaBound.beta1 Example.adabound < 1) by (cbn; lra).
  assert (Hb2 : 0 <= AdaBound.beta2 Example.adabound <= 1) by (cbn; lra).
  assert (He : 0 < AdaBound.epsilon Example.adabound) by (cbn; lra).
  assert (Hblr : forall blr,
             AdaBound.base_lr Example.adabound = Some blr -> blr <> 0).
  { intros blr E. inversion E. unfold Example.lr. lra. }
  assert (Hz : zero_slots (AdaBound.exp_avg Example.adabound))
    by exact (zeros_zero Example.host [0%nat]).
  assert (Hc : Forall zero_call
                 [(Dense (Example.scalar 0), 0%nat, Example.lr);
                  (Dense (Example.scalar 0), 0%nat, Example.lr)]).
  { repeat (first [ apply Forall_cons | apply Forall_nil ]);
      exists (Example.scalar 0); (split; [ reflexivity | ]);
      intros j; reflexivity. }
  destruct (proj1 zero_gradients_keep_parameters _ _ Hwd Hb1 Hb2 He Hblr
              (proj1 example_adabound_slots_nonneg)
              (proj2 example_adabound_slots_nonneg) Hz Hc)
    as (_ & H).
  rewrite H. reflexivity.
Defined.

(** ** When the projection returns *)

Lemma view_test_returns vf p grad delta eps pv gv :
  vf p = Ok pv -> vf grad = Ok gv -> (0 < AdamP.width pv)%nat ->
  exists b, AdamP.view_test vf p grad delta eps = Ok b.
Proof.
  intros Hp Hg Hw. unfold AdamP.view_test. rewrite Hp, Hg.
  rewrite math_sqrt_ok by apply pos_INR.
  assert (Hs : 0 < sqrt (INR (AdamP.width pv))).
  { apply sqrt_lt_R0. change 0 with (INR 0). now apply lt_INR. }
  rewrite py_div_ok by lra.
  eexists. reflexivity.
Qed.

Lemma project_returns vf p perturb eps pv :
  is_view vf -> vf p = Ok pv ->
  exists q, AdamP.project vf p perturb eps = Ok q /\ shape q = shape perturb.
Proof.
  intros Hview Hp.
  destruct (view_data _ _ _ Hview Hp) as (_ & _ & Hsame).
  unfold AdamP.project. rewrite Hp.
  rewrite (Hsame (tf.multiply
                    (tf.divide p
                       (AdamP.expand (AdamP.unit_denominator pv eps)
                                     (AdamP.width pv) p)) perturb))
    by reflexivity.
  eexists. split; reflexivity.
Qed.

Lemma channel_view_numel p pv :
  AdamP._channel_view p = Ok pv -> (0 < AdamP.width pv)%nat ->
  (0 < numel (shape p))%nat.
Proof.
  unfold AdamP._channel_view.
  destruct (shape p) as [|[|d] rest]; intros H Hw; inversion H; subst pv.
  cbn in Hw. cbn [numel fold_right]. fold (numel rest). nia.
Qed.

Lemma projection_cases
    (p grad perturb : tensor) (delta wd_ratio eps : R) (pv gv : tensor) :
  AdamP._channel_view p = Ok pv ->
  AdamP._channel_view grad = Ok gv ->
  (AdamP.width pv = 0%nat ->
   AdamP.projection p grad perturb delta wd_ratio eps
   = Raise ZeroDivisionError) /\
  ((0 < AdamP.width pv)%nat ->
   exists q r,
     AdamP.projection p grad perturb delta wd_ratio eps = Ok (q, r) /\
     shape q = shape perturb /\
     (r = wd_ratio \/ (r = 1 /\ q = perturb))).
Proof.
  intros Hp Hg. split.
  - intros Hw. unfold AdamP.projection, AdamP.projection_loop,
      AdamP.view_test.
    rewrite Hp, Hg, Hw. cbn [INR].
    rewrite math_sqrt_ok by lra. rewrite sqrt_0, py_div_zero. reflexivity.
  - intros Hw. unfold AdamP.projection, AdamP.projection_loop.
    destruct (view_test_returns _ p grad delta eps pv gv Hp Hg Hw)
      as ([|] & Hc); rewrite Hc.
    + destruct (project_returns AdamP._channel_view p perturb eps pv
                  ltac:(left; reflexivity) Hp) as (q & Hq & Hs).
      rewrite Hq. exists q, wd_ratio. auto.
    + assert (Hl : exists b,
                 AdamP.view_test AdamP._layer_view p grad delta eps = Ok b).
      { eapply view_test_returns; try reflexivity. cbn.
        exact (channel_view_numel p pv Hp Hw). }
      destruct Hl as ([|] & Hl); rewrite Hl.
      * destruct (project_returns AdamP._layer_view p perturb eps _
                    ltac:(right; reflexivity) eq_refl) as (q & Hq & Hs).
        rewrite Hq. exists q, wd_ratio. auto.
      * exists perturb, 1. auto.
Qed.

(** X19: The outcome of [projection] for a parameter and a gradient that
    have a channel view.  If the rows of the view are empty, the
    threshold [delta / math.sqrt(0)] raises ZeroDivisionError.
    Otherwise [projection] returns: either a projected perturbation of
    the shape of [perturb] with the ratio [wd_ratio], or [perturb]
    itself with the ratio 1. *)
Theorem projection_outcome
    (p grad perturb : tensor) (delta wd_ratio eps : R) (pv gv : tensor) :
  AdamP._channel_view p = Ok pv ->
  AdamP._channel_view grad = Ok gv ->
  (AdamP.width pv = 0%nat ->
   AdamP.projection p grad perturb delta wd_ratio eps
   = Raise ZeroDivisionError) /\
  ((0 < AdamP.width pv)%nat ->
   exists q r,
     AdamP.projection p grad perturb delta wd_ratio eps = Ok (q, r) /\
     shape q = shape perturb /\
     (r = wd_ratio \/ (r = 1 /\ q = perturb))).
Proof.
  exact (projection_cases p grad perturb delta wd_ratio eps pv gv).
Qed.

Lemma projection_outcome_witness :
  AdamP.projection (mkTensor [2%nat; 0%nat] float32 (fun _ => 0))
                   (mkTensor [2%nat; 0%nat] float32 (fun _ => 0))
                   (mkTensor [2%nat; 0%nat] float32 (fun _ => 0))
                   (1 / 10) (1 / 10) (1 / 100000000)
  = Raise ZeroDivisionError /\
  exists q r,
    AdamP.projection (Example.matrix 1) (Example.matrix 1)
                     (Example.matrix 2) (1 / 10) (1 / 10) (1 / 100000000)
    = Ok (q, r).
Proof.
  split.
  - exact (proj1 (projection_outcome
                    (mkTensor [2%nat; 0%nat] float32 (fun _ => 0))
                    (mkTensor [2%nat; 0%nat] float32 (fun _ => 0))
                    (mkTensor [2%nat; 0%nat] float32 (fun _ => 0))
                    (1 / 10) (1 / 10) (1 / 100000000) _ _ eq_refl eq_refl)
                 eq_refl).
  - assert (Hw : (0 < AdamP.width (Example.matrix 1))%nat) by (cbn; lia).
    destruct (proj2 (projection_outcome
                       (Example.matrix 1) (Example.matrix 1)
                       (Example.matrix 2) (1 / 10) (1 / 10) (1 / 100000000)
                       (Example.matrix 1) (Example.matrix 1)
                       eq_refl eq_refl) Hw) as (q & r & H & _).
    exists q, r. exact H.
Defined.

(** ** AdamP never raises on parameters with rows *)

Lemma projectable_shape t t' :
  shape t' = shape t -> projectable t -> projectable t'.
Proof.
  intros E [H | (view & Hv & Hw)].
  - left. now rewrite E.
  - right. unfold has_rows, AdamP._channel_view in *. rewrite E.
    destruct (shape t) as [|[|d] rest]; inversion Hv; subst view.
    eexists. split; [ reflexivity | exact Hw ].
Qed.

Lemma has_rows_shape t t' :
  shape t' = shape t -> has_rows t -> has_rows t'.
Proof.
  intros E (view & Hv & Hw).
  unfold has_rows, AdamP._channel_view in *. rewrite E.
  destruct (shape t) as [|[|d] rest]; inversion Hv; subst view.
  eexists. split; [ reflexivity | exact Hw ].
Qed.

Lemma adamp_call s g v lr i :
  adamp_wf s ->
  Base._get_variable_index (AdamP.base s) v = Ok i ->
  (i < List.length (Base._trainable_variables (AdamP.base s)))%nat ->
  0 <= AdamP.beta1 s <= 1 ->
  0 <= AdamP.beta2 s <= 1 ->
  projectable (AdamP.variables s v) ->
  shape g = shape (AdamP.variables s v) ->
  exists s2,
    AdamP.update_step g v lr s = (Ok tt, s2) /\
    adamp_wf s2 /\
    AdamP.base s2 = AdamP.base s /\
    AdamP.beta1 s2 = AdamP.beta1 s /\
    AdamP.beta2 s2 = AdamP.beta2 s /\
    forall w, shape (AdamP.variables s2 w) = shape (AdamP.variables s w).
Proof.
  intros (Hea & Heas & Hst) Hidx Hi Hb1 Hb Hproj Hshape.
  destruct (slots_for_nth _ _ _ Hea Hi) as (ea & m & Eea & Em).
  destruct (slots_for_nth _ _ _ Heas Hi) as (eas & vv & Eeas & Ev).
  destruct (slots_for_nth _ _ _ Hst Hi) as (st & n & Est & En).
  pose proof (adamp_exec s g v lr ea eas st i m vv n
                Eea Eeas Est Hidx Em Ev En
                (py_pow_ok _ _ Hb1) (py_pow_ok _ _ Hb)) as Hexec.
  cbv zeta in Hexec.
  assert (Hbc : 0 <= 1 - AdamP.beta2 s ^ (n + 1)).
  { pose proof (pow_le_1 (AdamP.beta2 s) (n + 1) Hb). lra. }
  rewrite (math_sqrt_ok _ Hbc) in Hexec.
  match type of Hexec with
  | _ = match ?c with _ => _ end =>
      assert (Hpw : exists pw, c = Ok pw)
  end.
  { destruct (1 <? List.length (shape (AdamP.variables s v)))%nat eqn:G.
    - apply Nat.ltb_lt in G.
      destruct Hproj as [Hflat | Hrows]; [ lia | ].
      destruct (has_rows_shape _ g Hshape Hrows) as (gv & Hgv & _).
      destruct Hrows as (pv & Hpv & Hw).
      match goal with
      | |- exists pw, AdamP.projection ?p ?g ?pt ?d ?r ?e = Ok pw =>
          destruct (proj2 (projection_cases p g pt d r e pv gv Hpv Hgv) Hw)
            as (q & r' & Hq & _)
      end.
      rewrite Hq. eexists. reflexivity.
    - eexists. reflexivity. }
  destruct Hpw as (pw & Hpw). rewrite Hpw in Hexec.
  unfold AdamP.update_step, bind. rewrite Hexec.
  eexists. split; [ reflexivity | ].
  destruct Hea as (l1 & E1 & L1), Heas as (l2 & E2 & L2),
           Hst as (l3 & E3 & L3).
  split; [ | split; [ reflexivity | split; [ reflexivity |
                split; [ reflexivity | ] ] ] ].
  - unfold adamp_wf. cbn.
    repeat split; apply slots_for_setitem; congruence.
  - intros w. cbn. unfold AdaBound.update_var.
    destruct (Nat.eqb w v) eqn:E; [ | ].
    + apply Nat.eqb_eq in E. subst w.
      destruct (Rlt_dec 0 (Base.weight_decay (AdamP.base s))); cbn;
        rewrite ?Nat.eqb_refl; reflexivity.
    + destruct (Rlt_dec 0 (Base.weight_decay (AdamP.base s))); cbn;
        rewrite ?E; reflexivity.
Qed.

(** X15: On a built AdamP optimizer with [beta1] and [beta2] between 0
    and 1, whose parameters have fewer than two dimensions or rows that
    are not empty, every training iteration over gradients of the shape
    of their parameters, for variables given to [build], returns
    normally: the two powers, the root of the second bias correction
    and the threshold of the projection are defined.  The slots stay in step with the variables and no
    parameter changes its shape. *)
Theorem adamp_training_never_raises
    (gvs : list (tensor * var_id)) (lr : R) :
  forall s,
    adamp_wf s ->
    0 <= AdamP.beta1 s <= 1 ->
    0 <= AdamP.beta2 s <= 1 ->
    (forall w, In w (Base._trainable_variables (AdamP.base s)) ->
               projectable (AdamP.variables s w)) ->
    Forall (fun gv =>
              In (snd gv) (Base._trainable_variables (AdamP.base s)) /\
              shape (fst gv) = shape (AdamP.variables s (snd gv))) gvs ->
    exists s',
      training_iteration AdamP.update_step gvs lr s = (Ok tt, s') /\
      adamp_wf s' /\
      AdamP.base s' = AdamP.base s /\
      forall w, shape (AdamP.variables s' w) = shape (AdamP.variables s w).
Proof.
  induction gvs as [|[g v] gvs IH]; intros s Hwf Hbeta1 Hb Hproj Hall.
  - exists s. repeat split; try reflexivity; apply Hwf.
  - inversion Hall as [|x l [Hin Hshape] Hrest]; subst. cbn in Hin, Hshape.
    destruct (get_variable_index_listed _ _ Hin) as (i & Hidx & Hi).
    destruct (adamp_call s g v lr i Hwf Hidx Hi Hbeta1 Hb (Hproj v Hin)
                Hshape)
      as (s1 & Hcall & Hwf1 & Hb1 & Hbeta1' & Hbeta & Hsh).
    assert (Hproj1 : forall w,
               In w (Base._trainable_variables (AdamP.base s1)) ->
               projectable (AdamP.variables s1 w)).
    { intros w Hw. rewrite Hb1 in Hw.
      exact (projectable_shape _ _ (Hsh w) (Hproj w Hw)). }
    assert (Hrest1 : Forall (fun gv =>
              In (snd gv) (Base._trainable_variables (AdamP.base s1)) /\
              shape (fst gv) = shape (AdamP.variables s1 (snd gv))) gvs).
    { eapply Forall_impl; [ | exact Hrest ].
      intros [g' v'] [H1 H2]. cbn in *. rewrite Hb1, Hsh. auto. }
    destruct (IH s1 Hwf1 ltac:(rewrite Hbeta1'; exact Hbeta1)
                ltac:(rewrite Hbeta; exact Hb) Hproj1 Hrest1)
      as (s' & Hit & Hwf' & Hb' & Hsh').
    exists s'. split; [ | split; [ exact Hwf' | split ] ].
    + cbn [training_iteration]. unfold bind at 1. rewrite Hcall. exact Hit.
    + congruence.
    + intros w. rewrite Hsh'. apply Hsh.
Qed.

Lemma adamp_training_never_raises_witness :
  exists s',
    training_iteration AdamP.update_step
      [(Example.matrix (1 / 10), 0%nat); (Example.matrix (1 / 5), 0%nat)]
      Example.lr
      (AdamP.build [0%nat]
         (AdamP.__init__ Example.lr (9 / 10) (999 / 1000) (1 / 100000000) 0
                         (1 / 10) (1 / 10) false []
                         (fun _ => Example.matrix 1)))
    = (Ok tt, s').
Proof.
  set (s := AdamP.build [0%nat]
         (AdamP.__init__ Example.lr (9 / 10) (999 / 1000) (1 / 100000000) 0
                         (1 / 10) (1 / 10) false []
                         (fun _ => Example.matrix 1))).
  assert (Hwf : adamp_wf s).
  { unfold adamp_wf, slots_for. cbn.
    repeat split; eexists; split; reflexivity. }
  assert (Hb1 : 0 <= AdamP.beta1 s <= 1) by (cbn; lra).
  assert (Hb : 0 <= AdamP.beta2 s <= 1) by (cbn; lra).
  assert (Hproj : forall w,
             In w (Base._trainable_variables (AdamP.base s)) ->
             projectable (AdamP.variables s w)).
  { intros w _. right. exists (Example.matrix 1).
    split; [ reflexivity | cbn; lia ]. }
  assert (Hall : Forall (fun gv =>
              In (snd gv) (Base._trainable_variables (AdamP.base s)) /\
              shape (fst gv) = shape (AdamP.variables s (snd gv)))
            [(Example.matrix (1 / 10), 0%nat);
             (Example.matrix (1 / 5), 0%nat)]).
  { repeat (first [ apply Forall_cons | apply Forall_nil ]);
      (split; [ cbn; auto | reflexivity ]). }
  destruct (adamp_training_never_raises _ Example.lr s Hwf Hb1 Hb Hproj
              Hall)
    as (s' & H & _).
  exists s'. exact H.
Defined.

(** ** The rule of AdamP with projection *)

(** X14: For a parameter of two or more dimensions whose rows are not empty,
    with a gradient of its shape, the slots of the variable in place,
    both powers within the range of a float, a positive second bias
    correction, a first bias correction that is not 0, a positive
    [epsilon] and a new second moment that is not negative in any
    element, [update_step] of AdamP returns normally.  The moments are
    updated from the gradient;
    [projection] is called on the perturbation and returns [(q, r)],
    [r] being [wd_ratio] when a view was projected and 1 (with [q] the
    perturbation itself) when none was; a positive weight decay
    multiplies the parameter by [1 - lr * weight_decay * r]; the
    parameter is then moved by [q] times [- lr / bias_correction1]. *)
Theorem adamp_update_step_rule_rows
    (s : AdamP.state) (g : tensor) (v : var_id) (lr : R)
    (ea eas : list tensor) (st : list nat)
    (i : nat) (m vv : tensor) (n : nat) :
  AdamP.exp_avg s = Some ea ->
  AdamP.exp_avg_sq s = Some eas ->
  AdamP.step s = Some st ->
  Base._get_variable_index (AdamP.base s) v = Ok i ->
  nth_error ea i = Some m ->
  nth_error eas i = Some vv ->
  nth_error st i = Some n ->
  (1 < List.length (shape (AdamP.variables s v)))%nat ->
  has_rows (AdamP.variables s v) ->
  shape g = shape (AdamP.variables s v) ->
  representable (AdamP.beta1 s ^ (n + 1)) ->
  representable (AdamP.beta2 s ^ (n + 1)) ->
  0 < 1 - AdamP.beta2 s ^ (n + 1) ->
  1 - AdamP.beta1 s ^ (n + 1) <> 0 ->
  0 < AdamP.epsilon s ->
  (forall k,
      0 <= data vv k * AdamP.beta2 s
           + data g k * data g k * (1 - AdamP.beta2 s)) ->
  let b1 := AdamP.beta1 s in
  let b2 := AdamP.beta2 s in
  let wd := Base.weight_decay (AdamP.base s) in
  let p := AdamP.variables s v in
  exists s' m' v' q r,
    let denom := tf.plus (tf.over (tf.sqrt v') (sqrt (1 - b2 ^ (n + 1))))
                         (AdamP.epsilon s) in
    let perturb :=
      if AdamP.nesterov s
      then tf.divide (tf.add (tf.scale b1 m') (tf.scale (1 - b1) g)) denom
      else tf.divide m' denom in
    AdamP.update_step g v lr s = (Ok tt, s') /\
    AdamP.step s' = Some (setitem st i (n + 1)%nat) /\
    AdamP.exp_avg s' = Some (setitem ea i m') /\
    AdamP.exp_avg_sq s' = Some (setitem eas i v') /\
    (forall k,
        data m' k = data m k * b1 + data g k * (1 - b1) /\
        data v' k = data vv k * b2 + data g k * data g k * (1 - b2)) /\
    AdamP.projection p g perturb (AdamP.delta s) (AdamP.wd_ratio s)
                     (AdamP.epsilon s) = Ok (q, r) /\
    (r = AdamP.wd_ratio s \/ (r = 1 /\ q = perturb)) /\
    (forall w, w <> v -> AdamP.variables s' w = AdamP.variables s w) /\
    forall k,
      data (AdamP.variables s' v) k
      = (if Rlt_dec 0 wd then data p k * (1 - lr * wd * r) else data p k)
        + data q k * - (lr / (1 - b1 ^ (n + 1))).
Proof.
  intros Hea Heas Hst Hidx Hm Hv Hn Hdim Hrows Hshape Hr1 Hr2 Hbc _ _ _
         b1 b2 wd p.
  pose proof (adamp_exec s g v lr ea eas st i m vv n
                Hea Heas Hst Hidx Hm Hv Hn
                (py_pow_in_range _ _ Hr1) (py_pow_in_range _ _ Hr2))
    as Hexec.
  cbv zeta in Hexec.
  rewrite (math_sqrt_ok _ (Rlt_le _ _ Hbc)) in Hexec.
  assert (Hguard : (1 <? List.length (shape (AdamP.variables s v)))%nat
                   = true) by (apply Nat.ltb_lt; exact Hdim).
  rewrite Hguard in Hexec.
  destruct (has_rows_shape _ g Hshape Hrows) as (gv & Hgv & _).
  destruct Hrows as (pv & Hpv & Hw).
  match type of Hexec with
  | _ = match AdamP.projection ?p0 ?g0 ?pt ?d ?r0 ?e with _ => _ end =>
      destruct (proj2 (projection_cases p0 g0 pt d r0 e pv gv Hpv Hgv) Hw)
        as (q & r & Hq & _ & Hr)
  end.
  rewrite Hq in Hexec.
  unfold AdamP.update_step, bind. rewrite Hexec.
  eexists _, _, _, q, r. cbv zeta.
  split; [ reflexivity | ].
  split; [ reflexivity | ]. split; [ reflexivity | ].
  split; [ reflexivity | ].
  split; [ intros k; cbn; split; reflexivity | ].
  split; [ exact Hq | ]. split; [ exact Hr | ]. split.
  - intros w Hne. cbn. rewrite update_var_other by assumption.
    unfold wd.
    destruct (Rlt_dec 0 (Base.weight_decay (AdamP.base s)));
      [ now rewrite update_var_other | reflexivity ].
  - intros k. cbn. rewrite update_var_same. unfold wd, p.
    destruct (Rlt_dec 0 (Base.weight_decay (AdamP.base s))); cbn;
      rewrite ?update_var_same; cbn; reflexivity.
Qed.

Lemma adamp_update_step_rule_rows_witness :
  exists s',
    AdamP.update_step (Example.matrix (1 / 10)) 0%nat Example.lr
      (AdamP.build [0%nat]
         (AdamP.__init__ Example.lr (9 / 10) (999 / 1000) (1 / 100000000) 0
                         (1 / 10) (1 / 10) false []
                         (fun _ => Example.matrix 1)))
    = (Ok tt, s') /\
    AdamP.step s' = Some [1%nat].
Proof.
  set (s := AdamP.build [0%nat]
         (AdamP.__init__ Example.lr (9 / 10) (999 / 1000) (1 / 100000000) 0
                         (1 / 10) (1 / 10) false []
                         (fun _ => Example.matrix 1))).
  assert (Hdim : (1 < List.length (shape (AdamP.variables s 0%nat)))%nat)
    by (cbn; lia).
  assert (Hrows : has_rows (AdamP.variables s 0%nat)).
  { exists (Example.matrix 1). split; [ reflexivity | cbn; lia ]. }
  assert (Hr1 : representable (AdamP.beta1 s ^ (0 + 1))).
  { apply representable_pow. cbn. rewrite Rabs_pos_eq; lra. }
  assert (Hr2 : representable (AdamP.beta2 s ^ (0 + 1))).
  { apply representable_pow. cbn. rewrite Rabs_pos_eq; lra. }
  assert (Hbc : 0 < 1 - AdamP.beta2 s ^ (0 + 1)) by (cbn; lra).
  assert (Hbc1 : 1 - AdamP.beta1 s ^ (0 + 1) <> 0) by (cbn; lra).
  assert (He : 0 < AdamP.epsilon s) by (cbn; lra).
  assert (Hv : forall k,
             0 <= data (zero_slot (fun _ => Example.matrix 1) 0%nat) k
                  * AdamP.beta2 s
                  + data (Example.matrix (1 / 10)) k
                    * data (Example.matrix (1 / 10)) k
                    * (1 - AdamP.beta2 s)) by (intros k; cbn; lra).
  destruct (adamp_update_step_rule_rows
              s (Example.matrix (1 / 10)) 0%nat Example.lr
              [zero_slot (fun _ => Example.matrix 1) 0%nat]
              [zero_slot (fun _ => Example.matrix 1) 0%nat]
              [0%nat] 0%nat
              (zero_slot (fun _ => Example.matrix 1) 0%nat)
              (zero_slot (fun _ => Example.matrix 1) 0%nat)
              0%nat eq_refl eq_refl eq_refl eq_refl eq_refl eq_refl eq_refl
              Hdim Hrows eq_refl Hr1 Hr2 Hbc Hbc1 He Hv)
    as (s' & m' & v' & q & r & H1 & H2 & _).
  exists s'. split; [ exact H1 | exact H2 ].
Defined.

(** ** A power out of range *)

Lemma float_max_lt_2_1024 : float_max < 2 ^ 1024.
Proof.
  unfold float_max. change (2 ^ 1024) with (2 * 2 ^ 1023).
  assert (H1 : 0 < 2 ^ 1023) by (apply pow_lt; lra).
  assert (H2 : 0 < / 2 ^ 52) by (apply Rinv_0_lt_compat, pow_lt; lra).
  set (a := 2 ^ 1023) in *. set (b := / 2 ^ 52) in *. nra.
Qed.

Lemma py_pow_overflow (x : R) (n : nat) :
  2 ^ 1024 <= Rabs (x ^ n) -> py_pow x n = Raise OverflowError.
Proof.
  intros H. unfold py_pow.
  destruct (Rle_dec (Rabs (x ^ n)) float_max) as [Hle|_]; [ | reflexivity ].
  pose proof float_max_lt_2_1024. lra.
Qed.

(** X22: When the power [beta1 ** step] of the incremented counter is out
    of the range of a float (at least [2^1024] in absolute value), a
    call of [update_step] that has found the slots of the variable
    raises [OverflowError] and leaves the parameter untouched.  In
    AdaBound (without [amsbound]) the counter was incremented and both
    moments were overwritten before; in AdamP the counter was
    incremented and the moments are still as they were; in AdaMod the
    shared counter was incremented and the lists of slots are as they
    were. *)
Theorem power_overflow_raises :
  (forall s g v lr ea eas st i m vv n,
      AdaBound.amsbound s = false ->
      AdaBound.exp_avg s = Some ea ->
      AdaBound.exp_avg_sq s = Some eas ->
      AdaBound.step s = Some st ->
      Base._get_variable_index (AdaBound.base s) v = Ok i ->
      nth_error ea i = Some m ->
      nth_error eas i = Some vv ->
      nth_error st i = Some n ->
      2 ^ 1024 <= Rabs (AdaBound.beta1 s ^ (n + 1)) ->
      exists s' m' v',
        AdaBound.update_step (Dense g) v lr s = (Raise OverflowError, s') /\
        AdaBound.step s' = Some (setitem st i (n + 1)%nat) /\
        AdaBound.exp_avg s' = Some (setitem ea i m') /\
        AdaBound.exp_avg_sq s' = Some (setitem eas i v') /\
        AdaBound.variables s' = AdaBound.variables s) /\
  (forall s g v lr ea eas st i m vv n,
      AdamP.exp_avg s = Some ea ->
      AdamP.exp_avg_sq s = Some eas ->
      AdamP.step s = Some st ->
      Base._get_variable_index (AdamP.base s) v = Ok i ->
      nth_error ea i = Some m ->
      nth_error eas i = Some vv ->
      nth_error st i = Some n ->
      2 ^ 1024 <= Rabs (AdamP.beta1 s ^ (n + 1)) ->
      exists s',
        AdamP.update_step g v lr s = (Raise OverflowError, s') /\
        AdamP.step s' = Some (setitem st i (n + 1)%nat) /\
        AdamP.exp_avg s' = Some ea /\
        AdamP.exp_avg_sq s' = Some eas /\
        AdamP.variables s' = AdamP.variables s) /\
  (forall s g v lr ea eas eal n i m vv c,
      AdaMod.exp_avg s = Some ea ->
      AdaMod.exp_avg_sq s = Some eas ->
      AdaMod.exp_avg_lr s = Some eal ->
      AdaMod.step s = Some n ->
      Base._get_variable_index (AdaMod.base s) v = Ok i ->
      nth_error ea i = Some m ->
      nth_error eas i = Some vv ->
      nth_error eal i = Some c ->
      2 ^ 1024 <= Rabs (AdaMod.beta1 s ^ (n + 1)) ->
      exists s',
        AdaMod.update_step (Dense g) v lr s = (Raise OverflowError, s') /\
        AdaMod.step s' = Some (n + 1)%nat /\
        AdaMod.exp_avg s' = Some ea /\
        AdaMod.exp_avg_sq s' = Some eas /\
        AdaMod.exp_avg_lr s' = Some eal /\
        AdaMod.variables s' = AdaMod.variables s).
Proof.
  split; [ | split ].
  - intros s g v lr ea eas st i m vv n Hams Hea Heas Hst Hidx Hm Hv Hn Hov.
    apply py_pow_overflow in Hov.
    destruct s; cbn in *; subst.
    unfold_adabound. unfold getitem. cbn.
    repeat (rewrite ?Hidx, ?Hm, ?Hv, ?Hn, ?Hov,
              ?(nth_error_setitem_same _ _ _ _ Hn),
              ?(nth_error_setitem_same _ _ _ _ Hm),
              ?(nth_error_setitem_same _ _ _ _ Hv); cbn).
    eexists _, _, _. repeat split.
  - intros s g v lr ea eas st i m vv n Hea Heas Hst Hidx Hm Hv Hn Hov.
    apply py_pow_overflow in Hov.
    destruct s; cbn -[AdamP.projection Nat.ltb] in *; subst.
    unfold_adamp. unfold getitem. cbn -[AdamP.projection Nat.ltb].
    repeat (rewrite ?Hidx, ?Hm, ?Hv, ?Hn, ?Hov,
              ?(nth_error_setitem_same _ _ _ _ Hn);
            cbn -[AdamP.projection Nat.ltb]).
    eexists. repeat split.
  - intros s g v lr ea eas eal n i m vv c Hea Heas Heal Hst Hidx Hm Hv Hc
           Hov.
    apply py_pow_overflow in Hov.
    destruct s; cbn in *; subst.
    unfold_adamod. unfold getitem. cbn.
    repeat (rewrite ?Hidx, ?Hm, ?Hv, ?Hc, ?Hov; cbn).
    eexists. repeat split.
Qed.

Lemma power_overflow_raises_witness :
  exists s',
    AdamP.update_step Example.grad 0%nat Example.lr
      (AdamP.set_step (Some [1023%nat])
         (AdamP.build [0%nat]
            (AdamP.__init__ Example.lr 2 (999 / 1000) (1 / 100000000) 0
                            (1 / 10) (1 / 10) false [] Example.host)))
    = (Raise OverflowError, s') /\
    AdamP.step s' = Some [1024%nat].
Proof.
  assert (Hov : 2 ^ 1024 <= Rabs (2 ^ (1023 + 1))).
  { rewrite Rabs_pos_eq by (apply pow_le; lra). apply Rle_refl. }
  destruct (proj1 (proj2 power_overflow_raises)
              (AdamP.set_step (Some [1023%nat])
                 (AdamP.build [0%nat]
                    (AdamP.__init__ Example.lr 2 (999 / 1000)
                       (1 / 100000000) 0 (1 / 10) (1 / 10) false []
                       Example.host)))
              Example.grad 0%nat Example.lr
              [zero_slot Example.host 0%nat] [zero_slot Example.host 0%nat]
              [1023%nat] 0%nat
              (zero_slot Example.host 0%nat) (zero_slot Example.host 0%nat)
              1023%nat eq_refl eq_refl eq_refl eq_refl eq_refl eq_refl
              eq_refl Hov)
    as (s' & H1 & H2 & _).
  exists s'. split; [ exact H1 | exact H2 ].
Defined.
